(** * PDF report and receipt generation of the catering dashboard

    A shallow embedding of [src/lib/pdf-utils.ts] ([generateOrdersPDF],
    [generateOrderReceiptPDF], [downloadOrderReceipt] and their local
    helpers), with the properties of the renderer stated over it.

    Conventions.
    - A JavaScript string is the list of its UTF-16 code units ([jsstring]);
      [length], [substring] and the regular expressions of the source (none
      has the [u] flag) all work on code units.
    - A JavaScript number that the layout computes with is a rational: the
      cursor arithmetic of the source only adds and compares small integers
      and halves.
    - The jsPDF document is write-only for the code embedded here, so it is
      the list of the calls made on it, in order ([Op]).
    - Calls into jsPDF and the browser that can throw are steered by the
      environment [Env]; the [try]/[catch] blocks of the source are kept. *)

From Stdlib Require Import String Ascii List Bool NArith ZArith QArith Qround Lia Lqa.
Import ListNotations.

Set Implicit Arguments.

(* ===================================================================== *)
(** ** JavaScript values used by the module *)
(* ===================================================================== *)

Module JS.

(** A string, as its UTF-16 code units. *)
Definition jsstring := list N.

(** An ASCII literal of the source. *)
Definition str (s : string) : jsstring :=
  map N_of_ascii (list_ascii_of_string s).

Definition eqb (a b : jsstring) : bool :=
  if list_eq_dec N.eq_dec a b then true else false.

(** [cond ? a : b] and [||] on an optional string: [undefined] and the
    empty string are falsy. *)
Definition truthy (v : option jsstring) : bool :=
  match v with
  | Some (_ :: _) => true
  | _ => false
  end.

(** [v || d] *)
Definition orElse (v : option jsstring) (d : jsstring) : jsstring :=
  match v with
  | Some (c :: s) => c :: s
  | _ => d
  end.

(** [a || b || d] *)
Definition orElse2 (a b : option jsstring) (d : jsstring) : jsstring :=
  match a with
  | Some (c :: s) => c :: s
  | _ => orElse b d
  end.

Definition inRange (lo hi c : N) : bool := ((lo <=? c) && (c <=? hi))%N.

(** WhiteSpace and LineTerminator of ECMAScript: what [\s] matches and what
    [trim] and [parseFloat] skip. *)
Definition isWhiteSpace (c : N) : bool :=
  (inRange 9 13 c || (c =? 32) || (c =? 160) || (c =? 5760)
   || inRange 8192 8202 c || (c =? 8232) || (c =? 8233) || (c =? 8239)
   || (c =? 8287) || (c =? 12288) || (c =? 65279))%N.

Fixpoint trimStart (s : jsstring) : jsstring :=
  match s with
  | c :: r => if isWhiteSpace c then trimStart r else s
  | [] => []
  end.

Definition trimEnd (s : jsstring) : jsstring := rev (trimStart (rev s)).

(** [s.trim()] *)
Definition trim (s : jsstring) : jsstring := trimEnd (trimStart s).

(** [s.substring(0, n)] *)
Definition substring0 (n : nat) (s : jsstring) : jsstring := firstn n s.

(** *** parseFloat

    [parseFloat] skips leading white space and reads the longest prefix that
    is a StrDecimalLiteral.  The value read is kept exact (sign, decimal
    mantissa, power of ten); only its comparison with zero is needed, and
    that is decided on the exact value. *)

Inductive number :=
| NaN
| Infinity (negative : bool)
| Finite (negative : bool) (mantissa : N) (exp10 : Z).

Definition isDigit (c : N) : bool := inRange 48 57 c.

Fixpoint takeDigits (s : jsstring) : list N * jsstring :=
  match s with
  | c :: r =>
      if isDigit c
      then let (ds, rest) := takeDigits r in (c :: ds, rest)
      else ([], s)
  | [] => ([], [])
  end.

Definition digitsValue (ds : list N) : N :=
  fold_left (fun acc d => (10 * acc + (d - 48))%N) ds 0%N.

Fixpoint startsWith (p s : jsstring) : bool :=
  match p, s with
  | [], _ => true
  | a :: p', b :: s' => (a =? b)%N && startsWith p' s'
  | _ :: _, [] => false
  end.

(** ExponentPart, when one follows: [e] or [E], an optional sign, at least
    one digit.  Otherwise the literal ends before it. *)
Definition exponentPart (s : jsstring) : Z :=
  match s with
  | c :: r =>
      if ((c =? 101) || (c =? 69))%N then
        match r with
        | sg :: r' =>
            if (sg =? 45)%N then (- Z.of_N (digitsValue (fst (takeDigits r'))))%Z
            else if (sg =? 43)%N then Z.of_N (digitsValue (fst (takeDigits r')))
            else Z.of_N (digitsValue (fst (takeDigits r)))
        | [] => 0%Z
        end
      else 0%Z
  | [] => 0%Z
  end.

(** StrUnsignedDecimalLiteral *)
Definition unsignedLiteral (negative : bool) (s : jsstring) : number :=
  if startsWith (str "Infinity") s then Infinity negative
  else
    let (ip, r1) := takeDigits s in
    match r1 with
    | 46%N :: r2 =>
        let (fp, r3) := takeDigits r2 in
        match ip, fp with
        | [], [] => NaN
        | _, _ =>
            Finite negative (digitsValue (ip ++ fp))
                   (exponentPart r3 - Z.of_nat (List.length fp))
        end
    | _ =>
        match ip with
        | [] => NaN
        | _ => Finite negative (digitsValue ip) (exponentPart r1)
        end
    end.

Definition parseFloat (s : jsstring) : number :=
  match trimStart s with
  | 45%N :: r => unsignedLiteral true r
  | 43%N :: r => unsignedLiteral false r
  | r => unsignedLiteral false r
  end.

(** [x > 0], for [x] the double nearest to the value read.  The double
    nearest to a positive real is positive exactly when the real exceeds
    [2^-1075], half of the least positive double (the tie rounds to the even
    neighbour, zero). *)
Definition gtZero (x : number) : bool :=
  match x with
  | NaN => false
  | Infinity negative => negb negative
  | Finite true _ _ => false
  | Finite false m e =>
      match e with
      | Zneg p => (10 ^ Npos p <? m * 2 ^ 1075)%N
      | _ => (0 <? m)%N
      end
  end.

End JS.

Export JS.

(* ===================================================================== *)
(** ** Order records *)
(* ===================================================================== *)

Module Order.

(** [interface OrderWithStatus]: every field is optional. *)
Record OrderWithStatus := {
  receiptNo : option jsstring;
  orderId : option jsstring;
  name : option jsstring;
  orderDetails : option jsstring;
  phoneNumber : option jsstring;
  deliveryType : option jsstring;
  date : option jsstring;
  time : option jsstring;
  status : option jsstring;
  totalPayment : option jsstring;
  totalAmount : option Q;
  advancePayment : option jsstring;
  balancePayment : option jsstring;
  discount : option jsstring;
  location : option jsstring;
  paymentType : option jsstring;
  cookStatus : option jsstring;
  address : option jsstring
}.

(** The string-valued keys of [OrderWithStatus]; a table column names one.
    ([totalAmount], the one number-valued key, is never a column.) *)
Inductive DataKey :=
| kReceiptNo | kOrderId | kName | kOrderDetails | kPhoneNumber
| kDeliveryType | kDate | kTime | kStatus | kTotalPayment
| kAdvancePayment | kBalancePayment | kDiscount | kLocation
| kPaymentType | kCookStatus | kAddress.

(** [order[key]] *)
Definition get (order : OrderWithStatus) (key : DataKey) : option jsstring :=
  match key with
  | kReceiptNo => receiptNo order
  | kOrderId => orderId order
  | kName => name order
  | kOrderDetails => orderDetails order
  | kPhoneNumber => phoneNumber order
  | kDeliveryType => deliveryType order
  | kDate => date order
  | kTime => time order
  | kStatus => status order
  | kTotalPayment => totalPayment order
  | kAdvancePayment => advancePayment order
  | kBalancePayment => balancePayment order
  | kDiscount => discount order
  | kLocation => location order
  | kPaymentType => paymentType order
  | kCookStatus => cookStatus order
  | kAddress => address order
  end.

Definition isReceiptNo (key : DataKey) : bool :=
  match key with kReceiptNo => true | _ => false end.

Definition isTotalPayment (key : DataKey) : bool :=
  match key with kTotalPayment => true | _ => false end.

(** An order with no field set. *)
Definition empty : OrderWithStatus :=
  {| receiptNo := None; orderId := None; name := None; orderDetails := None;
     phoneNumber := None; deliveryType := None; date := None; time := None;
     status := None; totalPayment := None; totalAmount := None;
     advancePayment := None; balancePayment := None; discount := None;
     location := None; paymentType := None; cookStatus := None;
     address := None |}.

End Order.

Export Order.

(* ===================================================================== *)
(** ** Script detection and the font table ([./arabic-fonts]) *)
(* ===================================================================== *)

Module ArabicFonts.

Inductive Direction := ltr | rtl.

(** A compiled-in font: family name and base64 payload. *)
Record FontAsset := { fontName : jsstring; base64 : jsstring }.

(** Modelled from the spec: [containsArabic] of [./arabic-fonts] is imported
    by [pdf-utils.ts] but its file is not part of the sources.  Spec 4.1: true
    iff the string has at least one code point of the Arabic block
    U+0600-U+06FF; the empty string gives false.  (The spec allows further
    Arabic ranges "actually supported" without naming any; none is taken
    here.) *)
Definition containsArabic (text : jsstring) : bool :=
  existsb (inRange 1536 1791) text.

(** Modelled from the spec: [getTextDirection] of [./arabic-fonts], missing
    as above.  Spec 4.1: [rtl] iff [containsArabic], else [ltr]. *)
Definition getTextDirection (text : jsstring) : Direction :=
  if containsArabic text then rtl else ltr.

(** Modelled from the spec: [hasArabicFonts] of [./arabic-fonts], missing as
    above.  Spec 4.2: whether the compiled-in table holds a font; the empty
    table is a valid configuration. *)
Definition hasArabicFonts (table : list FontAsset) : bool :=
  match table with
  | [] => false
  | _ :: _ => true
  end.

(** Modelled from the spec: [getAvailableArabicFont] of [./arabic-fonts],
    missing as above.  Spec 4.2: the first available font, or none. *)
Definition getAvailableArabicFont (table : list FontAsset) : option FontAsset :=
  hd_error table.

End ArabicFonts.

Export ArabicFonts.

(* ===================================================================== *)
(** ** The document, the environment and the effects of the code *)
(* ===================================================================== *)

Module Pdf.

Inductive Align := Left | Center | Right.
Inductive FontStyle := Normal | Bold.
Inductive Orientation := portrait | landscape.
Inductive ColorTarget := forText | forFill | forDraw.

Definition Color := (N * N * N)%type.

(** The calls made on the jsPDF document.  [Rect] is [doc.rect(.., 'F')]
    (the source only fills) and [AddImage] is [doc.addImage(.., 'PNG', ..)]. *)
Inductive Op :=
| SetFontSize (size : Q)
| SetFont (family : jsstring) (style : FontStyle)
| SetTextColor (c : Color)
| SetFillColor (c : Color)
| SetDrawColor (c : Color)
| SetLineWidth (w : Q)
| Text (text : jsstring) (x y : Q) (align : option Align)
| Line (x1 y1 x2 y2 : Q)
| Rect (x y w h : Q)
| AddPage
| AddFileToVFS (fileName data : jsstring)
| AddFont (fileName family : jsstring) (style : FontStyle)
| AddImage (data : jsstring) (x y w h : Q)
| Save (fileName : jsstring).

Inductive exn :=
| FontError
| TextError
| VfsError
| ImageLoadError
| ImageError
| SaveError
| WrappedError (cause : exn).

(** What [doc.splitTextToSize] returns: the source tests [Array.isArray]. *)
Inductive Lines :=
| LinesArray (lines : list jsstring)
| LinesString (line : jsstring).

(** What the code takes from outside: jsPDF, the browser, the clock and the
    compiled-in font table.  The [..Throws] fields say on which arguments a
    call throws; the source guards these calls with [try]/[catch]. *)
Record Env := {
  pageWidth : Orientation -> Q;
  pageHeight : Orientation -> Q;
  splitTextToSize : jsstring -> Q -> Lines;
  setFontThrows : jsstring -> FontStyle -> bool;
  textThrows : jsstring -> Q -> Q -> option Align -> bool;
  addFontThrows : jsstring -> bool;
  addImageThrows : jsstring -> bool;
  saveThrows : jsstring -> bool;
  (** [convertImageToBase64]: the data URL, or none when the promise rejects *)
  loadImage : jsstring -> option jsstring;
  (** [toLocaleDateString('en-US') + ' ' + toLocaleTimeString('en-US')] of
      [new Date()] *)
  dateTimeStr : jsstring;
  toUpperCase : jsstring -> jsstring;
  ARABIC_FONTS : list FontAsset
}.

(** The state a generator closes over: the document under construction and
    its [let] variables. *)
Record St := {
  ops : list Op;
  currentY : Q;
  currentPageNumber : nat
}.

Inductive result (A : Type) :=
| Ok (a : A)
| Throw (e : exn).
Arguments Ok {A} a.
Arguments Throw {A} e.

(** A statement or expression of the source: it runs on the state, and
    returns or throws. *)
Definition M (A : Type) := St -> St * result A.

Definition ret {A} (a : A) : M A := fun s => (s, Ok a).

Definition bind {A B} (m : M A) (k : A -> M B) : M B :=
  fun s =>
    match m s with
    | (s', Ok a) => k a s'
    | (s', Throw e) => (s', Throw e)
    end.

Definition throw {A} (e : exn) : M A := fun s => (s, Throw e).

(** [try { m } catch (error) { h error }] *)
Definition tryCatch {A} (m : M A) (h : exn -> M A) : M A :=
  fun s =>
    match m s with
    | (s', Throw e) => h e s'
    | r => r
    end.

Declare Scope js_scope.
Delimit Scope js_scope with js.
Notation "x <- m ;; k" := (bind m (fun x => k))
  (at level 61, m at next level, right associativity) : js_scope.
Notation "m ;; k" := (bind m (fun _ => k))
  (at level 61, right associativity) : js_scope.
Open Scope js_scope.

Definition emit (o : Op) : M unit :=
  fun s => ({| ops := ops s ++ [o];
               currentY := currentY s;
               currentPageNumber := currentPageNumber s |}, Ok tt).

Definition getY : M Q := fun s => (s, Ok (currentY s)).

Definition setY (y : Q) : M unit :=
  fun s => ({| ops := ops s;
               currentY := y;
               currentPageNumber := currentPageNumber s |}, Ok tt).

Definition incrPageNumber : M unit :=
  fun s => ({| ops := ops s;
               currentY := currentY s;
               currentPageNumber := S (currentPageNumber s) |}, Ok tt).

(** [if (c) { m }] *)
Definition when (c : bool) (m : M unit) : M unit :=
  if c then m else ret tt.

(** [xs.forEach((x, index) => body)], with the [let] variable of the
    enclosing function that the body updates threaded as [acc]. *)
Fixpoint forEachFrom {A B} (body : B -> A -> nat -> M B)
         (index : nat) (xs : list A) (acc : B) : M B :=
  match xs with
  | [] => ret acc
  | x :: rest =>
      acc' <- body acc x index ;;
      forEachFrom body (S index) rest acc'
  end.

Definition forEach {A B} (xs : list A) (acc : B)
           (body : B -> A -> nat -> M B) : M B :=
  forEachFrom body 0 xs acc.

(** [a > b] *)
Definition Qgtb (a b : Q) : bool := negb (Qle_bool a b).

(** A number used as a condition: zero is falsy. *)
Definition truthyNum (v : option Q) : bool :=
  match v with
  | Some w => negb (Qeq_bool w 0)
  | None => false
  end.

Section Calls.
Variable E : Env.

(** [doc.setFont(family, style)] *)
Definition setFont (family : jsstring) (style : FontStyle) : M unit :=
  if setFontThrows E family style then throw FontError
  else emit (SetFont family style).

(** [doc.text(t, x, y, { align })] or [doc.text(t, x, y)]; [t] is
    [undefined] when it was read from an empty array, and jsPDF then
    throws. *)
Definition text (t : option jsstring) (x y : Q) (align : option Align)
  : M unit :=
  match t with
  | None => throw TextError
  | Some t' =>
      if textThrows E t' x y align then throw TextError
      else emit (Text t' x y align)
  end.

(** [doc.addFileToVFS(f, data); doc.addFont(f, family, 'normal')] *)
Definition addFont (f data family : jsstring) : M unit :=
  if addFontThrows E f then throw VfsError
  else (emit (AddFileToVFS f data) ;; emit (AddFont f family Normal)).

(** [doc.addImage(data, 'PNG', x, y, w, h)] *)
Definition addImage (data : jsstring) (x y w h : Q) : M unit :=
  if addImageThrows E data then throw ImageError
  else emit (AddImage data x y w h).

(** [await convertImageToBase64(path)] *)
Definition convertImageToBase64 (path : jsstring) : M jsstring :=
  match loadImage E path with
  | Some data => ret data
  | None => throw ImageLoadError
  end.

(** [doc.save(fileName)] *)
Definition save (fileName : jsstring) : M unit :=
  if saveThrows E fileName then throw SaveError
  else emit (Save fileName).

(** The [initializeArabicFonts] closure, the same in both generators (the
    console messages are not part of the document). *)
Definition initializeArabicFonts : M unit :=
  tryCatch
    (if hasArabicFonts (ARABIC_FONTS E) then
       match getAvailableArabicFont (ARABIC_FONTS E) with
       | Some arabicFont =>
           let fontFileName := fontName arabicFont ++ str "-Regular.ttf" in
           addFont fontFileName (base64 arabicFont) (fontName arabicFont)
       | None => ret tt
       end
     else ret tt)
    (fun _ => ret tt).

(** The block that both branches of [addText] repeat:
    [[
      let finalText = text;
      if (maxWidth) {
        const lines = doc.splitTextToSize(finalText, maxWidth);
        finalText = Array.isArray(lines) ? lines[0] : lines;
        if (Array.isArray(lines) && lines.length > 1) finalText += '...';
      }
    ]]
    [None] is [undefined], the first element of an empty array. *)
Definition finalText (t : jsstring) (maxWidth : option Q) : option jsstring :=
  match maxWidth with
  | Some w =>
      if negb (Qeq_bool w 0) then
        match splitTextToSize E t w with
        | LinesArray [] => None
        | LinesArray [l] => Some l
        | LinesArray (l :: _ :: _) => Some (l ++ str "...")
        | LinesString l => Some l
        end
      else Some t
  | None => Some t
  end.

End Calls.

(** The options bag of [addText]. *)
Record TextOptions := {
  align : option Align;
  maxWidth : option Q;
  fontSize : option Q;
  fontStyle : option FontStyle;
  color : option Color
}.

Definition noOptions : TextOptions :=
  {| align := None; maxWidth := None; fontSize := None;
     fontStyle := None; color := None |}.

Definition dflt {A} (v : option A) (d : A) : A :=
  match v with
  | Some a => a
  | None => d
  end.

(** [doc.getNumberOfPages()]: the first page and one per [addPage]. *)
Definition numberOfPages (l : list Op) : nat :=
  S (List.length (filter (fun o => match o with AddPage => true | _ => false end) l)).

End Pdf.

Export Pdf.

(* ===================================================================== *)
(** ** The orders report: [generateOrdersPDF] *)
(* ===================================================================== *)

Module Report.

Inductive Language := ar | en.

(** [interface PDFOptions] *)
Record PDFOptions := {
  title : jsstring;
  orders : list OrderWithStatus;
  language : option Language;
  showSummary : option bool;
  logoUrl : option jsstring
}.

Record Colors := {
  primary : Color;
  secondary : Color;
  textColor : Color;
  border : Color;
  headerBg : Color;
  alternateRow : Color
}.

Record Fonts := {
  titleSize : Q;
  headerSize : Q;
  body : Q;
  small : Q
}.

(** [interface PDFConfig]; [cfgPageWidth] and [cfgPageHeight] are its
    [pageWidth] and [pageHeight], [textColor] is [colors.text], [titleSize]
    and [headerSize] are [fonts.title] and [fonts.header]. *)
Record PDFConfig := {
  cfgPageWidth : Q;
  cfgPageHeight : Q;
  margin : Q;
  colors : Colors;
  fonts : Fonts
}.

(** [interface TableColumn]; [colAlign] is its [align]. *)
Record TableColumn := {
  header : jsstring;
  dataKey : DataKey;
  width : Q;
  colAlign : option Align
}.

(** [getEnglishText()]: the fixed texts of the report. *)
Record EnglishText := {
  txtTitle : jsstring;
  txtGeneratedOn : jsstring;
  txtNoOrders : jsstring
}.

Definition getEnglishText : EnglishText :=
  {| (* 'title': the eleven code units of the source's literal,
        U+0637 U+0644 U+0628 U+0627 U+062A U+0020 U+0627 U+0644 U+064A
        U+0648 U+0645 *)
     txtTitle := [1591; 1604; 1576; 1575; 1578; 32; 1575; 1604; 1610; 1608; 1605]%N;
     txtGeneratedOn := str "Generated on";
     txtNoOrders := str "No orders to display" |}.

(** The pure parts of [addText] (Arabic branch). *)

(** [[
      let adjustedAlign = align;
      if (textDirection === 'rtl') {
        if (align === 'left') adjustedAlign = 'right';
        else if (align === 'right') adjustedAlign = 'left';
      }
    ]] *)
Definition adjustedAlign (a : Align) (textDirection : Direction) : Align :=
  match textDirection with
  | rtl =>
      match a with
      | Left => Right
      | Right => Left
      | Center => Center
      end
  | ltr => a
  end.

(** [[
      let adjustedX = x;
      if (textDirection === 'rtl' && maxWidth) {
        if (adjustedAlign === 'right') adjustedX = x + maxWidth;
        else if (adjustedAlign === 'left') adjustedX = x + maxWidth;
      }
    ]] *)
Definition adjustedX (x : Q) (textDirection : Direction)
           (maxW : option Q) (adjAlign : Align) : Q :=
  match textDirection, maxW with
  | rtl, Some w =>
      if negb (Qeq_bool w 0) then
        match adjAlign with
        | Right => x + w
        | Left => x + w
        | Center => x
        end
      else x
  | _, _ => x
  end.

(** [cellData] of [drawTableRow], from the order to the text handed to
    [addText]. *)

(** The value chosen for the cell. *)
Definition cellValue (order : OrderWithStatus) (key : DataKey) : jsstring :=
  if isTotalPayment key && (match get order key with Some _ => true | None => false end)
  then dflt (get order key) []
  else if isReceiptNo key
  then orElse2 (receiptNo order) (orderId order) (str "N/A")
  else orElse (get order key) (str "N/A").

(** [if (cellData.length > 30) cellData = cellData.substring(0, 27) + '...'] *)
Definition truncateCell (cellData : jsstring) : jsstring :=
  if (30 <? List.length cellData)%nat
  then substring0 27 cellData ++ str "..."
  else cellData.

(** The class [[^\x20-\x7E\u0600-\u06FF]] matches what this does not. *)
Definition displayable (c : N) : bool :=
  inRange 32 126 c || inRange 1536 1791 c.

(** [cellData.replace(/[^\x20-\x7E\u0600-\u06FF]/g, ' ').trim()] *)
Definition cleanCell (cellData : jsstring) : jsstring :=
  trim (map (fun c => if displayable c then c else 32%N) cellData).

Definition cellData (order : OrderWithStatus) (key : DataKey) : jsstring :=
  cleanCell (truncateCell (cellValue order key)).

(** The columns of the table. *)
Definition columns : list TableColumn :=
  [ {| header := str "Receipt No"; dataKey := kReceiptNo; width := 28; colAlign := None |};
    {| header := str "Customer"; dataKey := kName; width := 32; colAlign := None |};
    {| header := str "Order Details"; dataKey := kOrderDetails; width := 45; colAlign := None |};
    {| header := str "Phone Number"; dataKey := kPhoneNumber; width := 30; colAlign := None |};
    {| header := str "Delivery Type"; dataKey := kDeliveryType; width := 30; colAlign := None |};
    {| header := str "Date"; dataKey := kDate; width := 28; colAlign := None |};
    {| header := str "Time"; dataKey := kTime; width := 25; colAlign := None |} ].

Definition rowHeight : Q := 8.
Definition headerHeight : Q := 10.

(** [columns.reduce((sum, col) => sum + col.width, 0)] *)
Definition totalWidth (cols : list TableColumn) : Q :=
  fold_left (fun sum col => sum + width col) cols 0.

Section Generator.
Variable E : Env.

Definition config : PDFConfig :=
  {| cfgPageWidth := pageWidth E landscape;
     cfgPageHeight := pageHeight E landscape;
     margin := 15;
     colors := {| primary := (37, 99, 235)%N;
                  secondary := (100, 116, 139)%N;
                  textColor := (30, 41, 59)%N;
                  border := (226, 232, 240)%N;
                  headerBg := (248, 250, 252)%N;
                  alternateRow := (249, 250, 251)%N |};
     fonts := {| titleSize := 20; headerSize := 14; body := 10; small := 8 |} |}.

(** [checkAndAddPage(requiredHeight)] *)
Definition checkAndAddPage (requiredHeight : Q) : M bool :=
  y <- getY ;;
  if Qgtb (y + requiredHeight) (cfgPageHeight config - margin config - 10)
  then
    emit AddPage ;;
    setY (margin config) ;;
    incrPageNumber ;;
    ret true
  else ret false.

(** [setColor(colorArray, type)] *)
Definition setColor (c : Color) (type : ColorTarget) : M unit :=
  match type with
  | forText => emit (SetTextColor c)
  | forFill => emit (SetFillColor c)
  | forDraw => emit (SetDrawColor c)
  end.

(** [addText(text, x, y, options)] of the report; a missing [align] is
    ['center'] here. *)
Definition addText (t : jsstring) (x y : Q) (options : TextOptions) : M Q :=
  let align := dflt (align options) Center in
  let maxWidth := maxWidth options in
  let fontSize := dflt (fontSize options) (body (fonts config)) in
  let fontStyle := dflt (fontStyle options) Normal in
  let color := dflt (color options) (textColor (colors config)) in
  emit (SetFontSize fontSize) ;;
  let isArabic := containsArabic t in
  let textDirection := getTextDirection t in
  tryCatch
    (if isArabic then
       tryCatch (setFont E (str "Amiri") fontStyle)
                (fun _ => setFont E (str "helvetica") fontStyle) ;;
       let adjAlign := adjustedAlign align textDirection in
       let adjX := adjustedX x textDirection maxWidth adjAlign in
       setColor color forText ;;
       let final := finalText E t maxWidth in
       tryCatch (text E final adjX y (Some adjAlign))
                (fun _ => text E final adjX y None)
     else
       setFont E (str "helvetica") fontStyle ;;
       setColor color forText ;;
       let final := finalText E t maxWidth in
       tryCatch (text E final x y (Some align))
                (fun _ => text E final x y None))
    (fun _ =>
       setFont E (str "helvetica") fontStyle ;;
       setColor color forText ;;
       text E (Some t) x y None) ;;
  ret (fontSize * (35 # 100)).

(** [addHeader()] *)
Definition addHeader : M unit :=
  let englishText := getEnglishText in
  y <- getY ;;
  addText (txtTitle englishText) (cfgPageWidth config / 2) y
    {| align := Some Center; maxWidth := None;
       fontSize := Some (titleSize (fonts config));
       fontStyle := Some Bold; color := Some (primary (colors config)) |} ;;
  setY (y + 15) ;;
  let generatedText := txtGeneratedOn englishText ++ str ": " ++ dateTimeStr E in
  y <- getY ;;
  addText generatedText (cfgPageWidth config / 2) y
    {| align := Some Center; maxWidth := None;
       fontSize := Some (small (fonts config));
       fontStyle := None; color := Some (secondary (colors config)) |} ;;
  setY (y + 10) ;;
  setColor (border (colors config)) forDraw ;;
  emit (SetLineWidth (5 # 10)) ;;
  y <- getY ;;
  emit (Line (margin config) y (cfgPageWidth config - margin config) y) ;;
  setY (y + 10).

Definition tableStartX : Q := margin config.

(** [drawTableHeader(startY)] *)
Definition drawTableHeader (startY : Q) : M Q :=
  setColor (headerBg (colors config)) forFill ;;
  emit (Rect tableStartX (startY - 2) (totalWidth columns) headerHeight) ;;
  setColor (border (colors config)) forDraw ;;
  emit (SetLineWidth (3 # 10)) ;;
  x <- forEach columns tableStartX (fun x col _ =>
         emit (Line x (startY - 2) x (startY + headerHeight - 2)) ;;
         addText (header col) (x + width col / 2) (startY + 4)
           {| align := Some Center; maxWidth := Some (width col - 4);
              fontSize := Some (body (fonts config));
              fontStyle := Some Bold;
              color := Some (textColor (colors config)) |} ;;
         ret (x + width col)) ;;
  emit (Line x (startY - 2) x (startY + headerHeight - 2)) ;;
  emit (Line tableStartX (startY - 2) x (startY - 2)) ;;
  emit (Line tableStartX (startY + headerHeight - 2) x (startY + headerHeight - 2)) ;;
  ret (startY + headerHeight).

(** [drawTableRow(order, startY, isAlternate)] *)
Definition drawTableRow (order : OrderWithStatus) (startY : Q)
           (isAlternate : bool) : M Q :=
  when isAlternate
    (setColor (alternateRow (colors config)) forFill ;;
     emit (Rect tableStartX (startY - 2) (totalWidth columns) rowHeight)) ;;
  setColor (border (colors config)) forDraw ;;
  emit (SetLineWidth (1 # 10)) ;;
  x <- forEach columns tableStartX (fun x col _ =>
         emit (Line x (startY - 2) x (startY + rowHeight - 2)) ;;
         let cell := cellData order (dataKey col) in
         let textX :=
           match colAlign col with
           | Some Center => x + width col / 2
           | Some Right => x + width col - 2
           | _ => x + 2
           end in
         addText cell textX (startY + 3)
           {| align := Some (dflt (colAlign col) Left);
              maxWidth := Some (width col - 4);
              fontSize := Some (body (fonts config) - 1);
              fontStyle := None;
              color := Some (textColor (colors config)) |} ;;
         ret (x + width col)) ;;
  emit (Line x (startY - 2) x (startY + rowHeight - 2)) ;;
  emit (Line tableStartX (startY + rowHeight - 2) x (startY + rowHeight - 2)) ;;
  ret (startY + rowHeight).

(** [addOrdersTable()] *)
Definition addOrdersTable (orders : list OrderWithStatus) : M unit :=
  match orders with
  | [] =>
      let englishText := getEnglishText in
      y <- getY ;;
      addText (txtNoOrders englishText) (cfgPageWidth config / 2) (y + 20)
        {| align := Some Center; maxWidth := None;
           fontSize := Some (headerSize (fonts config));
           fontStyle := None; color := Some (secondary (colors config)) |} ;;
      ret tt
  | _ :: _ =>
      tableY <- getY ;;
      added <- checkAndAddPage (headerHeight + rowHeight * 3) ;;
      tableY <- (if added then getY else ret tableY) ;;
      tableY <- drawTableHeader tableY ;;
      tableY <- forEach orders tableY (fun tableY order index =>
                  added <- checkAndAddPage (rowHeight + 5) ;;
                  tableY <- (if added
                             then (y <- getY ;; drawTableHeader y)
                             else ret tableY) ;;
                  drawTableRow order tableY (Nat.odd index)) ;;
      setY (tableY + 10)
  end.

(** The body of [generateOrdersPDF], on the fresh document.  [addSummary]
    and [addFooter] are defined in the source but their calls are commented
    out. *)
Definition ordersPDF (o : PDFOptions) : M unit :=
  initializeArabicFonts E ;;
  addHeader ;;
  addOrdersTable (orders o).

Definition initialState : St :=
  {| ops := []; currentY := margin config; currentPageNumber := 1 |}.

(** [generateOrdersPDF(options)]: the document returned, or the exception
    that escapes. *)
Definition generateOrdersPDF (o : PDFOptions) : result (list Op) :=
  match ordersPDF o initialState with
  | (s, Ok _) => Ok (ops s)
  | (_, Throw e) => Throw e
  end.

End Generator.

End Report.

(* ===================================================================== *)
(** ** The receipt: [generateOrderReceiptPDF] and [downloadOrderReceipt] *)
(* ===================================================================== *)

Module Receipt.

(** [name.replace(/[^a-zA-Z0-9\s]/g, '')] *)
Definition isAlphaNum (c : N) : bool :=
  inRange 97 122 c || inRange 65 90 c || inRange 48 57 c.

Definition stripSpecial (s : jsstring) : jsstring :=
  filter (fun c => isAlphaNum c || isWhiteSpace c) s.

(** [s.replace(/\s+/g, '-')]: each maximal run of white space becomes one
    hyphen. *)
Fixpoint hyphenateFrom (inRun : bool) (s : jsstring) : jsstring :=
  match s with
  | [] => []
  | c :: r =>
      if isWhiteSpace c
      then (if inRun then hyphenateFrom true r else 45%N :: hyphenateFrom true r)
      else c :: hyphenateFrom false r
  end.

Definition hyphenate (s : jsstring) : jsstring := hyphenateFrom false s.

Section Generator.
Variable E : Env.

Definition pageW : Q := pageWidth E portrait.
Definition pageH : Q := pageHeight E portrait.
Definition margin : Q := 15.
Definition leftColX : Q := margin.
Definition rightColX : Q := pageW / 2.

Definition blue : Color := (37, 99, 235)%N.

(** [addText(text, x, y, options)] of the receipt; a missing [align] is
    ['left'] here, and a failed [doc.text] goes straight to the outer
    [catch]. *)
Definition addText (t : jsstring) (x y : Q) (options : TextOptions) : M Q :=
  let align := dflt (align options) Left in
  let maxWidth := maxWidth options in
  let fontSize := dflt (fontSize options) 12 in
  let fontStyle := dflt (fontStyle options) Normal in
  let color := dflt (color options) (0, 0, 0)%N in
  emit (SetFontSize fontSize) ;;
  let isArabic := containsArabic t in
  let textDirection := getTextDirection t in
  tryCatch
    (if isArabic then
       tryCatch (setFont E (str "Amiri") fontStyle)
                (fun _ => setFont E (str "helvetica") fontStyle) ;;
       let adjAlign := Report.adjustedAlign align textDirection in
       emit (SetTextColor color) ;;
       let final := finalText E t maxWidth in
       text E final x y (Some adjAlign)
     else
       setFont E (str "helvetica") fontStyle ;;
       emit (SetTextColor color) ;;
       let final := finalText E t maxWidth in
       text E final x y (Some align))
    (fun _ =>
       setFont E (str "helvetica") fontStyle ;;
       emit (SetTextColor color) ;;
       text E (Some t) x y None) ;;
  ret (fontSize * (35 # 100)).

Definition heading : TextOptions :=
  {| align := None; maxWidth := None; fontSize := Some 14;
     fontStyle := Some Bold; color := Some blue |}.

(** The header image, or the text title when loading or placing it fails. *)
Definition headerImage : M unit :=
  tryCatch
    (base64Image <- convertImageToBase64 E (str "/assets/images/invoice header.png") ;;
     let imgWidth := pageW - 2 * margin in
     let imgHeight := 35 in
     let imgX := margin in
     imgY <- getY ;;
     addImage E base64Image imgX imgY imgWidth imgHeight ;;
     y <- getY ;;
     setY (y + (imgHeight + 15)))
    (fun _ =>
       y <- getY ;;
       addText (str "RECEIPT") (pageW / 2) y
         {| align := Some Center; maxWidth := None; fontSize := Some 20;
            fontStyle := Some Bold; color := None |} ;;
       setY (y + 15)).

(** Whether the [try] block of [headerImage] runs to its end. *)
Definition imagePlaced : bool :=
  match loadImage E (str "/assets/images/invoice header.png") with
  | Some data => negb (addImageThrows E data)
  | None => false
  end.

(** Receipt number and date, in two columns. *)
Definition receiptHeader (order : OrderWithStatus) : M unit :=
  emit (SetFillColor (248, 250, 252)%N) ;;
  y <- getY ;;
  emit (Rect margin (y - 5) (pageW - 2 * margin) 25) ;;
  addText (str "Receipt No: "
             ++ orElse2 (receiptNo order) (orderId order) (str "N/A"))
    leftColX y
    {| align := None; maxWidth := None; fontSize := Some 12;
       fontStyle := Some Bold; color := None |} ;;
  addText (str "Date: " ++ orElse (date order) (str "N/A")) rightColX y noOptions ;;
  setY (y + 8) ;;
  y <- getY ;;
  addText (str "Time: " ++ orElse (time order) (str "N/A")) rightColX y noOptions ;;
  setY (y + 15).

Definition customerInformation (order : OrderWithStatus) : M unit :=
  y <- getY ;;
  addText (str "Customer Information:") margin y heading ;;
  setY (y + 10) ;;
  y <- getY ;;
  addText (str "Name: " ++ orElse (name order) (str "N/A")) leftColX y noOptions ;;
  addText (str "Phone: " ++ orElse (phoneNumber order) (str "N/A")) rightColX y noOptions ;;
  setY (y + 8) ;;
  when (truthy (address order))
    (y <- getY ;;
     addText (str "Address: " ++ dflt (address order) []) leftColX y noOptions ;;
     setY (y + 8)) ;;
  when (truthy (location order))
    (y <- getY ;;
     addText (str "Location: " ++ dflt (location order) []) rightColX y noOptions ;;
     setY (y + 8)) ;;
  y <- getY ;;
  setY (y + 12).

Definition orderDetailsSection (order : OrderWithStatus) : M unit :=
  y <- getY ;;
  addText (str "Order Details:") margin y heading ;;
  setY (y + 10) ;;
  y <- getY ;;
  addText (orElse (orderDetails order) (str "N/A")) margin y
    {| align := None; maxWidth := Some (pageW - 2 * margin);
       fontSize := None; fontStyle := None; color := None |} ;;
  setY (y + 15).

Definition deliveryInformation (order : OrderWithStatus) : M unit :=
  y <- getY ;;
  addText (str "Delivery Information:") margin y heading ;;
  setY (y + 10) ;;
  y <- getY ;;
  addText (str "Type: " ++ orElse (deliveryType order) (str "N/A")) leftColX y noOptions ;;
  setY (y + 15).

(** [field && parseFloat(field) > 0] *)
Definition positiveAmount (field : option jsstring) : bool :=
  truthy field && gtZero (parseFloat (dflt field [])).

Definition paymentInformation (order : OrderWithStatus) : M unit :=
  y <- getY ;;
  addText (str "Payment Information:") margin y heading ;;
  setY (y + 10) ;;
  y <- getY ;;
  addText (str "Total Amount: OMR " ++ orElse (totalPayment order) (str "0.000"))
    leftColX y heading ;;
  when (truthy (paymentType order))
    (addText (str "Payment Type: " ++ toUpperCase E (dflt (paymentType order) []))
       rightColX y noOptions ;;
     ret tt) ;;
  setY (y + 8) ;;
  when (positiveAmount (advancePayment order))
    (y <- getY ;;
     addText (str "Advance Payment: OMR " ++ dflt (advancePayment order) [])
       leftColX y noOptions ;;
     setY (y + 8)) ;;
  when (positiveAmount (balancePayment order))
    (y <- getY ;;
     addText (str "Balance Payment: OMR " ++ dflt (balancePayment order) [])
       rightColX y noOptions ;;
     setY (y + 8)) ;;
  when (positiveAmount (discount order))
    (y <- getY ;;
     addText (str "Discount: OMR " ++ dflt (discount order) [])
       leftColX y noOptions ;;
     setY (y + 8)) ;;
  y <- getY ;;
  setY (y + 8).

Definition footer : M unit :=
  let footerY := pageH - margin - 20 in
  emit (SetDrawColor (200, 200, 200)%N) ;;
  emit (SetLineWidth (5 # 10)) ;;
  emit (Line margin (footerY - 15) (pageW - margin) (footerY - 15)) ;;
  addText (str "Thank you for your order!") (pageW / 2) (footerY - 5)
    {| align := Some Center; maxWidth := None; fontSize := Some 10;
       fontStyle := None; color := Some (100, 100, 100)%N |} ;;
  ret tt.

(** The body of [generateOrderReceiptPDF], section by section in the order
    of the source. *)
Definition receiptPDF (order : OrderWithStatus) : M unit :=
  initializeArabicFonts E ;;
  headerImage ;;
  receiptHeader order ;;
  customerInformation order ;;
  orderDetailsSection order ;;
  deliveryInformation order ;;
  paymentInformation order ;;
  footer.

Definition initialState : St :=
  {| ops := []; currentY := margin; currentPageNumber := 1 |}.

(** [generateOrderReceiptPDF(order)] *)
Definition generateOrderReceiptPDF (order : OrderWithStatus)
  : result (list Op) :=
  match receiptPDF order initialState with
  | (s, Ok _) => Ok (ops s)
  | (_, Throw e) => Throw e
  end.

(** The file name of [downloadOrderReceipt]. *)
Definition receiptFileName (order : OrderWithStatus) : jsstring :=
  let receiptNo := orElse2 (receiptNo order) (orderId order) (str "receipt") in
  let customerName := orElse (name order) (str "customer") in
  let sanitizedName := hyphenate (stripSpecial customerName) in
  str "receipt-" ++ receiptNo ++ str "-" ++ sanitizedName ++ str ".pdf".

(** [downloadOrderReceipt(order)]: whatever is thrown inside is thrown
    again wrapped. *)
Definition downloadOrderReceipt (order : OrderWithStatus)
  : result (list Op) :=
  match (receiptPDF order ;; save E (receiptFileName order)) initialState with
  | (s, Ok _) => Ok (ops s)
  | (_, Throw e) => Throw (WrappedError e)
  end.

End Generator.

End Receipt.

(* ===================================================================== *)
(** ** Saving the report: [downloadOrdersPDF] *)
(* ===================================================================== *)

Module Download.

(** What [/[^a-z0-9\s]/g] leaves in place. *)
Definition isLowerAlphaNum (c : N) : bool :=
  inRange 97 122 c || inRange 48 57 c.

(** [s.replace(/[^a-z0-9\s]/g, '')] *)
Definition stripTitle (s : jsstring) : jsstring :=
  filter (fun c => isLowerAlphaNum c || isWhiteSpace c) s.

Section Generator.
Variable E : Env.
(** [String.prototype.toLowerCase] of the engine. *)
Variable toLowerCase : jsstring -> jsstring.
(** [new Date().toISOString().split('T')[0]] *)
Variable timestamp : jsstring.

(** [title.toLowerCase().replace(/[^a-z0-9\s]/g, '').replace(/\s+/g, '-')] *)
Definition sanitizedTitle (title : jsstring) : jsstring :=
  Receipt.hyphenate (stripTitle (toLowerCase title)).

(** The file name of [downloadOrdersPDF]. *)
Definition reportFileName (title : jsstring) : jsstring :=
  sanitizedTitle title ++ str "-" ++ timestamp ++ str ".pdf".

(** [downloadOrdersPDF(options)]: the report is generated and saved;
    whatever is thrown inside is thrown again wrapped. *)
Definition downloadOrdersPDF (o : Report.PDFOptions) : result (list Op) :=
  match (Report.ordersPDF E o ;; save E (reportFileName (Report.title o)))
          (Report.initialState E) with
  | (s, Ok _) => Ok (ops s)
  | (_, Throw e) => Throw (WrappedError e)
  end.

End Generator.

End Download.

(* ===================================================================== *)
(** ** A concrete environment *)
(* ===================================================================== *)

Module Sample.

(** jsPDF's A4 sheet is 595.28pt by 841.89pt; with [unit: 'mm'] lengths are
    divided by [72 / 25.4]. *)
Definition mm (pt : Q) : Q := pt / (72 / (254 # 10)).

Definition a4Width (o : Orientation) : Q :=
  match o with
  | portrait => mm (59528 # 100)
  | landscape => mm (84189 # 100)
  end.

Definition a4Height (o : Orientation) : Q :=
  match o with
  | portrait => mm (84189 # 100)
  | landscape => mm (59528 # 100)
  end.

(** A fixed-pitch stand-in for jsPDF's metric line breaker: every code unit
    is 2mm wide and a line holds as many as fit, at least one. *)
Fixpoint chunks (fuel n : nat) (s : jsstring) : list jsstring :=
  match fuel with
  | O => [s]
  | S fuel' =>
      if (List.length s <=? n)%nat then [s]
      else firstn n s :: chunks fuel' n (skipn n s)
  end.

Definition fixedPitchSplit (s : jsstring) (w : Q) : Lines :=
  LinesArray (chunks (List.length s) (Nat.max 1 (Z.to_nat (Qfloor (w / 2)))) s).

Definition asciiUpper (s : jsstring) : jsstring :=
  map (fun c => if inRange 97 122 c then (c - 32)%N else c) s.

(** An environment in which nothing throws and the header image loads. *)
Definition env : Env :=
  {| pageWidth := a4Width;
     pageHeight := a4Height;
     splitTextToSize := fixedPitchSplit;
     setFontThrows := fun _ _ => false;
     textThrows := fun _ _ _ _ => false;
     addFontThrows := fun _ => false;
     addImageThrows := fun _ => false;
     saveThrows := fun _ => false;
     loadImage := fun _ => Some (str "data:image/png;base64,iVBORw0KGgo=");
     dateTimeStr := str "1/15/2024 10:30:00 AM";
     toUpperCase := asciiUpper;
     ARABIC_FONTS := [] |}.

(** The same, but the header image cannot be loaded. *)
Definition envNoImage : Env :=
  {| pageWidth := a4Width;
     pageHeight := a4Height;
     splitTextToSize := fixedPitchSplit;
     setFontThrows := fun _ _ => false;
     textThrows := fun _ _ _ _ => false;
     addFontThrows := fun _ => false;
     addImageThrows := fun _ => false;
     saveThrows := fun _ => false;
     loadImage := fun _ => None;
     dateTimeStr := str "1/15/2024 10:30:00 AM";
     toUpperCase := asciiUpper;
     ARABIC_FONTS := [] |}.

(** The same as [env], but jsPDF rejects the loaded image. *)
Definition envBadImage : Env :=
  {| pageWidth := a4Width;
     pageHeight := a4Height;
     splitTextToSize := fixedPitchSplit;
     setFontThrows := fun _ _ => false;
     textThrows := fun _ _ _ _ => false;
     addFontThrows := fun _ => false;
     addImageThrows := fun _ => true;
     saveThrows := fun _ => false;
     loadImage := fun _ => Some (str "data:image/png;base64,AAAA");
     dateTimeStr := str "1/15/2024 10:30:00 AM";
     toUpperCase := asciiUpper;
     ARABIC_FONTS := [] |}.

Definition order1 : OrderWithStatus :=
  {| receiptNo := Some (str "R-1001");
     orderId := Some (str "ord_77");
     name := Some (str "Ahmed Ali");
     orderDetails := Some (str "2 x Chicken Shawarma");
     phoneNumber := Some (str "+968 9000 0000");
     deliveryType := Some (str "Delivery");
     date := Some (str "2024-01-15");
     time := Some (str "10:30");
     status := Some (str "pending");
     totalPayment := Some (str "25.000");
     totalAmount := None;
     advancePayment := Some (str "12.500");
     balancePayment := Some (str "12.500");
     discount := Some (str "0.000");
     location := Some (str "Muscat");
     paymentType := Some (str "cash");
     cookStatus := Some (str "pending");
     address := None |}.

(** An order with every optional line of the receipt. *)
Definition fullOrder : OrderWithStatus :=
  {| receiptNo := Some (str "R-1002");
     orderId := Some (str "ord_78");
     name := Some (str "Sara Said");
     orderDetails := Some (str "1 x Mandi");
     phoneNumber := Some (str "+968 9000 0001");
     deliveryType := Some (str "Delivery");
     date := Some (str "2024-01-15");
     time := Some (str "12:00");
     status := Some (str "pending");
     totalPayment := Some (str "10.000");
     totalAmount := None;
     advancePayment := Some (str "4.000");
     balancePayment := Some (str "5.500");
     discount := Some (str "0.500");
     location := Some (str "Muscat");
     paymentType := Some (str "card");
     cookStatus := Some (str "pending");
     address := Some (str "Way 12") |}.

Definition options (os : list OrderWithStatus) (l : option Report.Language)
  : Report.PDFOptions :=
  {| Report.title := str "Today's Orders";
     Report.orders := os;
     Report.language := l;
     Report.showSummary := None;
     Report.logoUrl := None |}.

(** [order1] with order details of 200 letters. *)
Definition longOrder : OrderWithStatus :=
  {| receiptNo := Some (str "R-1001");
     orderId := Some (str "ord_77");
     name := Some (str "Ahmed Ali");
     orderDetails := Some (repeat 97%N 200);
     phoneNumber := Some (str "+968 9000 0000");
     deliveryType := Some (str "Delivery");
     date := Some (str "2024-01-15");
     time := Some (str "10:30");
     status := Some (str "pending");
     totalPayment := Some (str "25.000");
     totalAmount := None;
     advancePayment := Some (str "0.000");
     balancePayment := None;
     discount := None;
     location := None;
     paymentType := None;
     cookStatus := None;
     address := None |}.

(** An order whose customer name is 40 letters ["a"], nothing else set. *)
Definition order40 : OrderWithStatus :=
  {| receiptNo := None; orderId := None;
     name := Some (repeat 97%N 40);
     orderDetails := None; phoneNumber := None; deliveryType := None;
     date := None; time := None; status := None; totalPayment := None;
     totalAmount := None; advancePayment := None; balancePayment := None;
     discount := None; location := None; paymentType := None;
     cookStatus := None; address := None |}.

(** An order whose customer name has a letter outside ASCII and the Arabic
    block ([U+00E9]), and no receipt number. *)
Definition orderAccent : OrderWithStatus :=
  {| receiptNo := None; orderId := Some (str "ord_78");
     name := Some (str "Jos" ++ [233%N]);
     orderDetails := None; phoneNumber := None; deliveryType := None;
     date := None; time := None; status := None; totalPayment := None;
     totalAmount := None; advancePayment := None; balancePayment := None;
     discount := None; location := None; paymentType := None;
     cookStatus := None; address := None |}.

(** [env] at a clock whose [en-US] time has the narrow no-break space
    [U+202F] before the day period. *)
Definition envNarrowSpace : Env :=
  {| pageWidth := a4Width;
     pageHeight := a4Height;
     splitTextToSize := fixedPitchSplit;
     setFontThrows := fun _ _ => false;
     textThrows := fun _ _ _ _ => false;
     addFontThrows := fun _ => false;
     addImageThrows := fun _ => false;
     saveThrows := fun _ => false;
     loadImage := fun _ => Some (str "data:image/png;base64,iVBORw0KGgo=");
     dateTimeStr := str "1/15/2024 10:30:00" ++ [8239%N] ++ str "AM";
     toUpperCase := asciiUpper;
     ARABIC_FONTS := [] |}.

End Sample.

(** An environment in which everything that the code guards against goes
    wrong: a font is compiled in but cannot be registered, only helvetica
    can be selected, [doc.text] throws whenever it is given options,
    [splitTextToSize] returns an empty array, and the header image cannot
    be placed. *)
Module Harsh.

Definition env : Env :=
  {| pageWidth := Sample.a4Width;
     pageHeight := Sample.a4Height;
     splitTextToSize := fun _ _ => LinesArray [];
     setFontThrows := fun family _ => negb (JS.eqb family (str "helvetica"));
     textThrows := fun _ _ _ a => match a with Some _ => true | None => false end;
     addFontThrows := fun _ => true;
     addImageThrows := fun _ => true;
     saveThrows := fun _ => false;
     loadImage := fun _ => Some (str "data:image/png;base64,AAAA");
     dateTimeStr := str "1/15/2024 10:30:00 AM";
     toUpperCase := Sample.asciiUpper;
     ARABIC_FONTS := [ {| fontName := str "Amiri"; base64 := str "AAEAAAA" |} ] |}.

(** ASCII lower-casing, for titles. *)
Definition asciiLower (s : jsstring) : jsstring :=
  map (fun c => if inRange 65 90 c then (c + 32)%N else c) s.

End Harsh.

(* ===================================================================== *)
(** ** The vocabulary of the properties *)
(* ===================================================================== *)

(** The texts written to a document, in order. *)
Definition textsOf (l : list Op) : list jsstring :=
  flat_map (fun o => match o with Text t _ _ _ => [t] | _ => [] end) l.

(** The state after more calls on the document. *)
Definition emitAll (s : St) (l : list Op) : St :=
  {| ops := ops s ++ l;
     currentY := currentY s;
     currentPageNumber := currentPageNumber s |}.

(** [s'] is [s] after some calls that all satisfy [P], the cursor
    untouched. *)
Definition extends (P : Op -> Prop) (s s' : St) : Prop :=
  currentY s' = currentY s /\
  exists w, ops s' = ops s ++ w /\ Forall P w.

(** A statement that only draws: whatever it does, and whether it returns
    or throws, it appends calls satisfying [P] and leaves the cursor. *)
Definition draws {A} (P : Op -> Prop) (m : M A) : Prop :=
  forall s, extends P s (fst (m s)).

(** Calls that only set the font and colour of the text to come. *)
Definition styleOp (o : Op) : bool :=
  match o with
  | SetFontSize _ | SetFont _ _ | SetTextColor _ => true
  | _ => false
  end.

(** Calls other than writing a text and starting a page. *)
Definition plainOp (o : Op) : bool :=
  match o with
  | Text _ _ _ _ | AddPage => false
  | _ => true
  end.

(** The weakest precondition of [m]: [Q] holds of the value and state when
    [m] returns, [R] of the exception and state when it throws. *)
Definition wp {A} (m : M A) (Q : A -> St -> Prop) (R : exn -> St -> Prop)
           (s : St) : Prop :=
  match m s with
  | (s', Ok a) => Q a s'
  | (s', Throw e) => R e s'
  end.

(** Any call but [doc.addPage()]. *)
Definition notAddPage (o : Op) : Prop := o <> AddPage.

(** The bound that [checkAndAddPage] compares against. *)
Definition pageLimit (E : Env) : Q :=
  Report.cfgPageHeight (Report.config E) - Report.margin (Report.config E) - 10.

(** An environment where [doc.text] accepts every string, the built-in
    helvetica can always be selected, and [splitTextToSize] never returns
    an empty array. *)
Record Tame (E : Env) : Prop := {
  tame_text : forall t x y a, textThrows E t x y a = false;
  tame_helvetica : forall style, setFontThrows E (str "helvetica") style = false;
  tame_split : forall t w, splitTextToSize E t w <> LinesArray []
}.

(** The family in use after [try { setFont('Amiri') } catch
    { setFont('helvetica') }]. *)
Definition arabicFamily (E : Env) (style : FontStyle) : jsstring :=
  if setFontThrows E (str "Amiri") style then str "helvetica" else str "Amiri".

(** The family [addText] selects for a text. *)
Definition familyFor (E : Env) (t : jsstring) (style : FontStyle) : jsstring :=
  if containsArabic t then arabicFamily E style else str "helvetica".

(** The one text call of the report's [addText] on such a run. *)
Definition reportTextOp (t : jsstring) (x y : Q) (o : TextOptions)
           (ft : jsstring) : Op :=
  let a := dflt (align o) Center in
  if containsArabic t
  then
    let a' := Report.adjustedAlign a (getTextDirection t) in
    Text ft (Report.adjustedX x (getTextDirection t) (maxWidth o) a') y (Some a')
  else Text ft x y (Some a).

(** The one text call of the receipt's [addText] on such a run. *)
Definition receiptTextOp (t : jsstring) (x y : Q) (o : TextOptions)
           (ft : jsstring) : Op :=
  let a := dflt (align o) Left in
  if containsArabic t
  then Text ft x y (Some (Report.adjustedAlign a (getTextDirection t)))
  else Text ft x y (Some a).

(** Calls that register a font. *)
Definition fontOp (o : Op) : Prop :=
  match o with
  | AddFileToVFS _ _ | AddFont _ _ _ => True
  | _ => False
  end.

(** The calls of [addHeader] on the fresh document. *)
Definition headerBlock (E : Env) : list Op :=
  let W := pageWidth E landscape in
  let generatedText := str "Generated on" ++ str ": " ++ dateTimeStr E in
  [ SetFontSize 20;
    SetFont (arabicFamily E Bold) Bold;
    SetTextColor (37, 99, 235)%N;
    Text (Report.txtTitle Report.getEnglishText) (W / 2) 15 (Some Center);
    SetFontSize 8;
    SetFont (familyFor E generatedText Normal) Normal;
    SetTextColor (100, 116, 139)%N;
    reportTextOp generatedText (W / 2) (15 + 15)
      {| align := Some Center; maxWidth := None; fontSize := Some 8;
         fontStyle := None; color := Some (100, 116, 139)%N |}
      generatedText;
    SetDrawColor (226, 232, 240)%N;
    SetLineWidth (5 # 10);
    Line 15 (15 + 15 + 10) (W - 15) (15 + 15 + 10) ].

(** [m] returns normally from every state, and the texts among the calls
    it makes are [ts], in order. *)
Definition writesTexts {A} (m : M A) (ts : list jsstring) : Prop :=
  forall s, exists s' a w,
    m s = (s', Ok a) /\ ops s' = ops s ++ w /\ textsOf w = ts.

(** The text that [addText] writes when nothing throws: what [finalText]
    computes. *)
Definition shownText (E : Env) (t : jsstring) (maxW : option Q) : jsstring :=
  dflt (finalText E t maxW) t.

(* ===================================================================== *)
(** ** The lines of a receipt, as the specification words them *)
(* ===================================================================== *)

Module Spec.

(** The truth table of the direction-adjusted alignment:
    (left, rtl) -> right, (right, rtl) -> left, (center, any) -> center,
    (any, ltr) -> unchanged. *)
Definition adjustForDirection (a : Align) (d : Direction) : Align :=
  match a, d with
  | Left, rtl => Right
  | Right, rtl => Left
  | Center, _ => Center
  | _, ltr => a
  end.

(** A field that is absent (or empty) falls back to a default. *)
Definition orNA (v : option jsstring) : jsstring := orElse v (str "N/A").

(** An amount line is shown when the field is present and parses to a
    value above zero; the stored string follows the currency prefix as it
    is. *)
Definition amountLine (label : jsstring) (v : option jsstring)
  : list jsstring :=
  match v with
  | Some s =>
      if gtZero (parseFloat s) then [label ++ str ": OMR " ++ s] else []
  | None => []
  end.

(** A line shown only when its field is present and not empty. *)
Definition optionalLine (label : jsstring) (v : option jsstring)
  : list jsstring :=
  match v with
  | Some (c :: s) => [label ++ c :: s]
  | _ => []
  end.

(** Payment: the total always, the payment type when given, then the
    amount lines. *)
Definition paymentLines (E : Env) (order : OrderWithStatus) : list jsstring :=
  [ str "Payment Information:";
    str "Total Amount: OMR " ++ orElse (totalPayment order) (str "0.000") ]
  ++ match paymentType order with
     | Some (c :: s) => [str "Payment Type: " ++ toUpperCase E (c :: s)]
     | _ => []
     end
  ++ amountLine (str "Advance Payment") (advancePayment order)
  ++ amountLine (str "Balance Payment") (balancePayment order)
  ++ amountLine (str "Discount") (discount order).

(** Receipt number (falling back to the order id), date and time. *)
Definition receiptHeaderLines (order : OrderWithStatus) : list jsstring :=
  [ str "Receipt No: " ++ orElse2 (receiptNo order) (orderId order) (str "N/A");
    str "Date: " ++ orNA (date order);
    str "Time: " ++ orNA (time order) ].

(** Customer: name and phone always, address and location when given. *)
Definition customerLines (order : OrderWithStatus) : list jsstring :=
  [ str "Customer Information:";
    str "Name: " ++ orNA (name order);
    str "Phone: " ++ orNA (phoneNumber order) ]
  ++ optionalLine (str "Address: ") (address order)
  ++ optionalLine (str "Location: ") (location order).

Definition deliveryLines (order : OrderWithStatus) : list jsstring :=
  [ str "Delivery Information:";
    str "Type: " ++ orNA (deliveryType order) ].

Definition footerLines : list jsstring := [ str "Thank you for your order!" ].

End Spec.

(** The calls of the text title that stands in for the header image. *)
Definition fallbackTitle (E : Env) (y : Q) : list Op :=
  [ SetFontSize 20;
    SetFont (str "helvetica") Bold;
    SetTextColor (0, 0, 0)%N;
    Text (str "RECEIPT") (Receipt.pageW E / 2) y (Some Center) ].

(** Every line of the receipt, top to bottom. *)
Definition receiptLines (E : Env) (order : OrderWithStatus) : list jsstring :=
  (if Receipt.imagePlaced E then [] else [str "RECEIPT"])
  ++ Spec.receiptHeaderLines order
  ++ Spec.customerLines order
  ++ [ str "Order Details:";
       shownText E (Spec.orNA (orderDetails order))
                 (Some (Receipt.pageW E - 2 * Receipt.margin)) ]
  ++ Spec.deliveryLines order
  ++ Spec.paymentLines E order
  ++ Spec.footerLines.

(** Every exception that [m] lets escape satisfies [C]. *)
Definition raises {A} (C : exn -> Prop) (m : M A) : Prop :=
  forall s s' e, m s = (s', Throw e) -> C e.

(** An exception raised while drawing a text. *)
Definition drawingError (e : exn) : Prop := e = TextError \/ e = FontError.

(** [splitTextToSize] returns pieces of the text it was given. *)
Definition SplitSound (E : Env) : Prop :=
  forall t w,
    match splitTextToSize E t w with
    | LinesArray ls => Forall (fun l => incl l t) ls
    | LinesString l => incl l t
    end.

(** A call that draws a rectangle: the background of the table header and
    of the shaded rows. *)
Definition isRect (o : Op) : bool :=
  match o with
  | Rect _ _ _ _ => true
  | _ => false
  end.

(** A text written at or below the bottom edge of the sheet. *)
Definition belowPage (E : Env) (o : Op) : bool :=
  match o with
  | Text _ _ y _ => Qle_bool (pageHeight E landscape) y
  | _ => false
  end.

(** Whatever [m] does, the calls already made stay, in order, at the front
    of the document. *)
Definition grows {A} (m : M A) : Prop :=
  forall s, exists w, ops (fst (m s)) = ops s ++ w.

(** Any call at all. *)
Definition anyOp (o : Op) : Prop := True.

(** A text made of printable ASCII and Arabic-block code units only. *)
Definition cleanText (o : Op) : Prop :=
  forall t x y a,
    o = Text t x y a -> Forall (fun c => Report.displayable c = true) t.

(** An environment where the last resort of [addText] works: [doc.text]
    without options accepts every string, and helvetica can be selected. *)
Record Mild (E : Env) : Prop := {
  mild_text : forall t x y, textThrows E t x y None = false;
  mild_helvetica : forall style, setFontThrows E (str "helvetica") style = false
}.

(** What can be wrapped by a download: a failure to draw a text, or a
    failure of [doc.save]. *)
Definition downloadCause (e : exn) : Prop :=
  e = TextError \/ e = FontError \/ e = SaveError.

(** A statement that never throws. *)
Definition neverThrows {A} (m : M A) : Prop := raises (fun _ => False) m.

(** Whatever [m] does, it only adds calls that satisfy [P] (the cursor may
    move). *)
Definition only {A} (P : Op -> Prop) (m : M A) : Prop :=
  forall s, exists w, ops (fst (m s)) = ops s ++ w /\ Forall P w.

(** [m] returns normally from every state, and the calls it makes, seen
    through [f], are [xs]. *)
Definition yields {A X} (f : Op -> list X) (m : M A) (xs : list X) : Prop :=
  forall s, exists s' a w,
    m s = (s', Ok a) /\ ops s' = ops s ++ w /\ flat_map f w = xs.

(** A mark for each rectangle drawn. *)
Definition rectMark (o : Op) : list unit :=
  match o with
  | Rect _ _ _ _ => [tt]
  | _ => []
  end.

(** The text of a call, if it writes one: [textsOf] is [flat_map textOf]. *)
Definition textOf (o : Op) : list jsstring :=
  match o with
  | Text t _ _ _ => [t]
  | _ => []
  end.

(** What the rows of a table yield, from row number [index] at [startY]
    on, when one row yields [g order startY isAlternate]. *)
Fixpoint rowsFrom {X} (g : OrderWithStatus -> Q -> bool -> list X)
         (index : nat) (startY : Q) (orders : list OrderWithStatus) : list X :=
  match orders with
  | [] => []
  | order :: rest =>
      g order startY (Nat.odd index)
      ++ rowsFrom g (S index) (startY + Report.rowHeight) rest
  end.

(** Where a call of the receipt may write: between the top margin and
    218mm, or at the fixed height of the footer text. *)
Definition bodyText (E : Env) (o : Op) : Prop :=
  match o with
  | Text _ _ y _ =>
      (15 <= y /\ y <= 218)
      \/ y = Receipt.pageH E - Receipt.margin - 20 - 5
  | _ => True
  end.

(** A document of such calls, with the cursor between [lo] and [hi]. *)
Definition laid (E : Env) (lo hi : Q) (s : St) : Prop :=
  Forall (bodyText E) (ops s) /\ lo <= currentY s /\ currentY s <= hi.

(** [m] takes a document laid out with the cursor in [a, b] to one with the
    cursor in [c, d]; when it throws, the document is still laid out. *)
Definition lays (E : Env) (a b c d : Q) {A} (m : M A) : Prop :=
  forall s, laid E a b s ->
    wp m (fun _ s' => laid E c d s')
         (fun _ s' => Forall (bodyText E) (ops s')) s.

(** The value of [m] whenever it returns. *)
Definition returnsOnly {A} (m : M A) (a : A) : Prop :=
  forall s s' b, m s = (s', Ok b) -> b = a.

(** The height of a text, if the call writes one. *)
Definition textY (o : Op) : list Q :=
  match o with
  | Text _ _ y _ => [y]
  | _ => []
  end.

(** The heights at which a document has its texts, in order. *)
Definition textYs (l : list Op) : list Q := flat_map textY l.

(** The index of a row as a number. *)
Definition rowNumber (i : nat) : Q := inject_Z (Z.of_nat i).

(** Two hyphens in a row. *)
Fixpoint hasDoubleHyphen (s : jsstring) : bool :=
  match s with
  | a :: r =>
      match r with
      | b :: _ => ((a =? 45) && (b =? 45))%N || hasDoubleHyphen r
      | [] => false
      end
  | [] => false
  end.


(** The texts of one table row: for each column, what [finalText] makes of
    the cell text at the column's inner width. *)
Definition rowTexts (E : Env) (order : OrderWithStatus) : list jsstring :=
  map (fun col => shownText E (Report.cellData order (Report.dataKey col))
                            (Some (Report.width col - 4)))
      Report.columns.

(** The texts of the table header. *)
Definition headerTexts (E : Env) : list jsstring :=
  map (fun col => shownText E (Report.header col) (Some (Report.width col - 4)))
      Report.columns.

(* ===================================================================== *)
(** ** Reasoning about statements *)
(* ===================================================================== *)

Lemma textsOf_app l l' : textsOf (l ++ l') = textsOf l ++ textsOf l'.
Proof. unfold textsOf. apply flat_map_app. Qed.

Lemma extends_refl P s : extends P s s.
Proof.
  split; [reflexivity|]. exists []. rewrite app_nil_r. split; constructor.
Qed.

Lemma extends_trans P s1 s2 s3 :
  extends P s1 s2 -> extends P s2 s3 -> extends P s1 s3.
Proof.
  intros [Hy1 [w1 [Ho1 Hf1]]] [Hy2 [w2 [Ho2 Hf2]]]. split.
  - congruence.
  - exists (w1 ++ w2). split.
    + rewrite Ho2, Ho1. symmetry. apply app_assoc.
    + apply Forall_app. split; assumption.
Qed.

Section DrawRules.
Variable P : Op -> Prop.

Lemma draws_ret A (a : A) : draws P (ret a).
Proof. intro s. apply extends_refl. Qed.

Lemma draws_throw A e : draws P (@throw A e).
Proof. intro s. apply extends_refl. Qed.

Lemma draws_getY : draws P getY.
Proof. intro s. apply extends_refl. Qed.

Lemma draws_emit o : P o -> draws P (emit o).
Proof.
  intros Ho s. split; [reflexivity|]. exists [o]. split; [reflexivity|].
  constructor; [assumption|constructor].
Qed.

Lemma draws_bind A B (m : M A) (k : A -> M B) :
  draws P m -> (forall a, draws P (k a)) -> draws P (bind m k).
Proof.
  intros Hm Hk s. unfold bind. specialize (Hm s).
  destruct (m s) as [s' [a|e]]; simpl in *.
  - eapply extends_trans; [exact Hm|apply Hk].
  - exact Hm.
Qed.

Lemma draws_tryCatch A (m : M A) (h : exn -> M A) :
  draws P m -> (forall e, draws P (h e)) -> draws P (tryCatch m h).
Proof.
  intros Hm Hh s. unfold tryCatch. specialize (Hm s).
  destruct (m s) as [s' [a|e]]; simpl in *.
  - exact Hm.
  - eapply extends_trans; [exact Hm|apply Hh].
Qed.

Lemma draws_when c (m : M unit) : draws P m -> draws P (when c m).
Proof. intro Hm. destruct c; [exact Hm|apply draws_ret]. Qed.

Lemma draws_forEachFrom A B (body : B -> A -> nat -> M B) xs :
  (forall acc x i, draws P (body acc x i)) ->
  forall i acc, draws P (forEachFrom body i xs acc).
Proof.
  intro Hb. induction xs as [|x xs IH]; intros i acc; simpl.
  - apply draws_ret.
  - apply draws_bind; [apply Hb|]. intro acc'. apply IH.
Qed.

Lemma draws_forEach A B (body : B -> A -> nat -> M B) xs acc :
  (forall acc x i, draws P (body acc x i)) -> draws P (forEach xs acc body).
Proof. intro Hb. apply draws_forEachFrom. exact Hb. Qed.

Variable E : Env.

Lemma draws_setFont family style :
  P (SetFont family style) -> draws P (setFont E family style).
Proof.
  intro H. unfold setFont. destruct (setFontThrows E family style).
  - apply draws_throw.
  - apply draws_emit. exact H.
Qed.

Lemma draws_text t x y a :
  (forall t', t = Some t' -> P (Text t' x y a)) -> draws P (text E t x y a).
Proof.
  intro H. unfold text. destruct t as [t'|].
  - destruct (textThrows E t' x y a).
    + apply draws_throw.
    + apply draws_emit. apply H. reflexivity.
  - apply draws_throw.
Qed.

Lemma draws_setColor c type :
  P (match type with
     | forText => SetTextColor c
     | forFill => SetFillColor c
     | forDraw => SetDrawColor c
     end) ->
  draws P (Report.setColor c type).
Proof. intro H. destruct type; apply draws_emit; exact H. Qed.

End DrawRules.

(** One step of a proof that a statement only draws. *)
Ltac draw_step :=
  lazymatch goal with
  | |- draws _ (bind _ _) => apply draws_bind; [|intro]
  | |- draws _ (tryCatch _ _) => apply draws_tryCatch; [|intro]
  | |- draws _ (ret _) => apply draws_ret
  | |- draws _ (throw _) => apply draws_throw
  | |- draws _ getY => apply draws_getY
  | |- draws _ (emit _) => apply draws_emit
  | |- draws _ (when _ _) => apply draws_when
  | |- draws _ (forEach _ _ _) => apply draws_forEach; intros
  | |- draws _ (setFont _ _ _) => apply draws_setFont
  | |- draws _ (text _ _ _ _ _) => apply draws_text; intros
  | |- draws _ (Report.setColor _ _) => apply draws_setColor; simpl
  | |- draws _ (if ?c then _ else _) => destruct c
  end.

(** What [addText] draws: style settings, and a text that is either the
    one [finalText] computed or, on the fall-back path, the one it was
    given. *)
Lemma draws_report_addText (P : Op -> Prop) E t x y o :
  (forall op, styleOp op = true -> P op) ->
  (forall t' x' a, finalText E t (maxWidth o) = Some t' \/ t' = t ->
                   P (Text t' x' y a)) ->
  draws P (Report.addText E t x y o).
Proof.
  intros Hs Ht. unfold Report.addText.
  repeat draw_step;
    try (apply Hs; reflexivity);
    try (apply Ht; left; assumption);
    try (apply Ht; right; congruence).
Qed.

Lemma draws_receipt_addText (P : Op -> Prop) E t x y o :
  (forall op, styleOp op = true -> P op) ->
  (forall t' a, finalText E t (maxWidth o) = Some t' \/ t' = t ->
                P (Text t' x y a)) ->
  draws P (Receipt.addText E t x y o).
Proof.
  intros Hs Ht. unfold Receipt.addText.
  repeat draw_step;
    try (apply Hs; reflexivity);
    try (apply Ht; left; assumption);
    try (apply Ht; right; congruence).
Qed.

Lemma styleOp_plainOp o : styleOp o = true -> plainOp o = true.
Proof. destruct o; simpl; congruence. Qed.

Lemma draws_drawTableHeader (P : Op -> Prop) E startY :
  (forall op, plainOp op = true -> P op) ->
  (forall t x y a, P (Text t x y a)) ->
  draws P (Report.drawTableHeader E startY).
Proof.
  intros Hp Ht. unfold Report.drawTableHeader.
  repeat draw_step; try (apply Hp; reflexivity).
  apply draws_report_addText.
  - intros op Hop. apply Hp, styleOp_plainOp, Hop.
  - intros. apply Ht.
Qed.

(** A row only draws plain calls and texts that come from the cell text of
    one of its columns. *)
Lemma draws_drawTableRow (P : Op -> Prop) E order startY isAlternate :
  (forall op, plainOp op = true -> P op) ->
  (forall key w t x y a,
      finalText E (Report.cellData order key) (Some w) = Some t
      \/ t = Report.cellData order key ->
      P (Text t x y a)) ->
  draws P (Report.drawTableRow E order startY isAlternate).
Proof.
  intros Hp Ht. unfold Report.drawTableRow.
  repeat draw_step; try (apply Hp; reflexivity).
  apply draws_report_addText.
  - intros op Hop. apply Hp, styleOp_plainOp, Hop.
  - simpl. intros t' x' a' H. eapply Ht. exact H.
Qed.

(** *** Weakest preconditions, for the statements that move the cursor *)

Lemma wp_ret A (a : A) Q R s : Q a s -> wp (ret a) Q R s.
Proof. intro H. exact H. Qed.

Lemma wp_bind A B (m : M A) (k : A -> M B) Q R s :
  wp m (fun a s' => wp (k a) Q R s') R s -> wp (bind m k) Q R s.
Proof.
  unfold wp, bind. destruct (m s) as [s' [a|e]]; intro H; exact H.
Qed.

Lemma wp_tryCatch A (m : M A) (h : exn -> M A) Q R s :
  wp m Q (fun e s' => wp (h e) Q R s') s -> wp (tryCatch m h) Q R s.
Proof.
  unfold wp, tryCatch. destruct (m s) as [s' [a|e]]; intro H; exact H.
Qed.

Lemma wp_mono A (m : M A) (Q Q' : A -> St -> Prop) (R R' : exn -> St -> Prop) s :
  wp m Q R s ->
  (forall a s', Q a s' -> Q' a s') ->
  (forall e s', R e s' -> R' e s') ->
  wp m Q' R' s.
Proof.
  unfold wp. destruct (m s) as [s' [a|e]]; intros H HQ HR; auto.
Qed.

Lemma wp_draws A P (m : M A) (Q : A -> St -> Prop) (R : exn -> St -> Prop) s :
  draws P m ->
  (forall a s', extends P s s' -> Q a s') ->
  (forall e s', extends P s s' -> R e s') ->
  wp m Q R s.
Proof.
  intros Hd HQ HR. unfold wp. specialize (Hd s).
  destruct (m s) as [s' [a|e]]; simpl in Hd; auto.
Qed.

Lemma wp_fst A (m : M A) (I : St -> Prop) s :
  wp m (fun _ => I) (fun _ => I) s -> I (fst (m s)).
Proof. unfold wp. destruct (m s) as [s' [a|e]]; intro H; exact H. Qed.

(** *** Pages *)

Lemma numberOfPages_app l w :
  Forall notAddPage w -> numberOfPages (l ++ w) = numberOfPages l.
Proof.
  intro H. unfold numberOfPages. f_equal. rewrite filter_app, length_app.
  induction H as [|o w Ho _ IH]; simpl.
  - apply Nat.add_0_r.
  - destruct o; simpl; try exact IH. exfalso. apply Ho. reflexivity.
Qed.

Lemma extends_pages s s' :
  extends notAddPage s s' -> numberOfPages (ops s') = numberOfPages (ops s).
Proof.
  intros [_ [w [Ho Hw]]]. rewrite Ho. apply numberOfPages_app. exact Hw.
Qed.

Lemma plainOp_notAddPage op : plainOp op = true -> notAddPage op.
Proof. intros H Heq. subst op. discriminate. Qed.

Lemma text_notAddPage t x y a : notAddPage (Text t x y a).
Proof. discriminate. Qed.

(** *** The report never starts a second page *)

Section ReportPages.
Variable E : Env.

Lemma checkAndAddPage_fits h s :
  Qgtb (currentY s + h) (pageLimit E) = false ->
  Report.checkAndAddPage E h s = (s, Ok false).
Proof.
  intro H. unfold Report.checkAndAddPage, bind, getY. fold (pageLimit E).
  rewrite H. reflexivity.
Qed.

Lemma Qgtb_false_le a b c : a <= b -> c <= a -> Qgtb c b = false.
Proof.
  intros Hab Hca. unfold Qgtb.
  assert (Hle : Qle_bool c b = true) by (apply Qle_bool_iff; lra).
  rewrite Hle. reflexivity.
Qed.

Lemma draws_initializeArabicFonts : draws notAddPage (initializeArabicFonts E).
Proof.
  unfold initializeArabicFonts.
  apply draws_tryCatch; [|intros _; apply draws_ret].
  destruct (hasArabicFonts (ARABIC_FONTS E)); [|apply draws_ret].
  destruct (getAvailableArabicFont (ARABIC_FONTS E)); [|apply draws_ret].
  unfold addFont. repeat draw_step; discriminate.
Qed.

Lemma draws_addText_pages t x y o : draws notAddPage (Report.addText E t x y o).
Proof.
  apply draws_report_addText.
  - intros op H. apply plainOp_notAddPage, styleOp_plainOp, H.
  - intros. apply text_notAddPage.
Qed.

Lemma draws_header_pages y : draws notAddPage (Report.drawTableHeader E y).
Proof.
  apply draws_drawTableHeader.
  - apply plainOp_notAddPage.
  - intros. apply text_notAddPage.
Qed.

Lemma draws_row_pages order y alt :
  draws notAddPage (Report.drawTableRow E order y alt).
Proof.
  apply draws_drawTableRow.
  - apply plainOp_notAddPage.
  - intros. apply text_notAddPage.
Qed.

(** The rows: [checkAndAddPage] reads [currentY], which no row moves, so a
    check that passes once passes for every row. *)
Lemma rows_extend orders : forall index tableY s,
  Qgtb (currentY s + (Report.rowHeight + 5)) (pageLimit E) = false ->
  extends notAddPage s
    (fst (forEachFrom
            (fun tableY order index =>
               added <- Report.checkAndAddPage E (Report.rowHeight + 5) ;;
               tableY <- (if added
                          then (y <- getY ;; Report.drawTableHeader E y)
                          else ret tableY) ;;
               Report.drawTableRow E order tableY (Nat.odd index))
            index orders tableY s)).
Proof.
  induction orders as [|order rest IH]; intros index tableY s Hfit.
  - apply extends_refl.
  - simpl. unfold bind at 1. unfold bind at 1.
    rewrite (checkAndAddPage_fits _ _ Hfit). unfold bind at 1. simpl.
    pose proof (draws_row_pages order tableY (Nat.odd index) s) as Hrow.
    destruct (Report.drawTableRow E order tableY (Nat.odd index) s)
      as [s1 [y1|e]]; simpl in Hrow |- *.
    + eapply extends_trans; [exact Hrow|]. apply IH.
      destruct Hrow as [Hy _]. rewrite Hy. exact Hfit.
    + exact Hrow.
Qed.

End ReportPages.

Section ReportPages2.
Variable E : Env.

Lemma addOrdersTable_pages orders s :
  Qgtb (currentY s + (Report.headerHeight + Report.rowHeight * 3)) (pageLimit E) = false ->
  Qgtb (currentY s + (Report.rowHeight + 5)) (pageLimit E) = false ->
  numberOfPages (ops (fst (Report.addOrdersTable E orders s)))
  = numberOfPages (ops s).
Proof.
  intros Hfit1 Hfit2. destruct orders as [|order rest].
  - unfold Report.addOrdersTable.
    apply extends_pages.
    assert (Hd : draws notAddPage
              (y <- getY ;;
               Report.addText E (Report.txtNoOrders Report.getEnglishText)
                 (Report.cfgPageWidth (Report.config E) / 2) (y + 20)
                 {| align := Some Center; maxWidth := None;
                    fontSize := Some (Report.headerSize (Report.fonts (Report.config E)));
                    fontStyle := None;
                    color := Some (Report.secondary (Report.colors (Report.config E))) |} ;;
               ret tt)).
    { repeat draw_step. apply draws_addText_pages. }
    apply Hd.
  - apply (wp_fst (Report.addOrdersTable E (order :: rest))
                  (fun s' => numberOfPages (ops s') = numberOfPages (ops s))).
    unfold Report.addOrdersTable.
    apply wp_bind. unfold wp at 1. simpl.
    apply wp_bind. unfold wp at 1.
    rewrite (checkAndAddPage_fits _ _ _ Hfit1).
    apply wp_bind. unfold wp at 1. simpl.
    apply wp_bind.
    apply wp_draws with (P := notAddPage).
    + apply draws_header_pages.
    + intros y1 s1 Hext.
      apply wp_bind. unfold forEach.
      pose proof (@rows_extend E (order :: rest) 0%nat y1 s1) as Hrows.
      destruct Hext as [Hy Hext].
      rewrite Hy in Hrows. specialize (Hrows Hfit2).
      apply extends_pages in Hrows.
      assert (Hp1 : numberOfPages (ops s1) = numberOfPages (ops s)).
      { apply extends_pages. split; [exact Hy|exact Hext]. }
      unfold wp at 1.
      destruct (forEachFrom _ 0 (order :: rest) y1 s1) as [s2 [y2|e]];
        simpl in Hrows.
      * unfold wp. simpl. congruence.
      * congruence.
    + intros e s1 Hext. apply extends_pages. exact Hext.
Qed.

End ReportPages2.

Section ReportPages3.
Variable E : Env.

Lemma wp_draws_pages A (m : M A) (Q : A -> St -> Prop) (R : exn -> St -> Prop) s :
  draws notAddPage m ->
  (forall a s', currentY s' = currentY s ->
                numberOfPages (ops s') = numberOfPages (ops s) -> Q a s') ->
  (forall e s', numberOfPages (ops s') = numberOfPages (ops s) -> R e s') ->
  wp m Q R s.
Proof.
  intros Hd HQ HR. apply wp_draws with (P := notAddPage); [exact Hd| |].
  - intros a s' Hext. apply HQ; [apply Hext|apply extends_pages, Hext].
  - intros e s' Hext. apply HR. apply extends_pages, Hext.
Qed.

Lemma addHeader_wp s :
  wp (Report.addHeader E)
     (fun _ s' => currentY s' = currentY s + 15 + 10 + 10
                  /\ numberOfPages (ops s') = numberOfPages (ops s))
     (fun _ s' => numberOfPages (ops s') = numberOfPages (ops s)) s.
Proof.
  unfold Report.addHeader.
  apply wp_bind. unfold wp at 1, getY.
  apply wp_bind. apply wp_draws_pages; [apply draws_addText_pages| |auto].
  intros _ s1 Hy1 Hp1.
  apply wp_bind. unfold wp at 1, setY.
  apply wp_bind. unfold wp at 1, getY. cbn [currentY].
  apply wp_bind. apply wp_draws_pages; [apply draws_addText_pages| |].
  2:{ intros e s2 Hp2. cbn [ops] in Hp2. congruence. }
  intros _ s2 Hy2 Hp2. cbn [ops currentY] in Hy2, Hp2.
  apply wp_bind. unfold wp at 1, setY.
  apply wp_bind. apply wp_draws_pages.
  { apply draws_setColor. discriminate. }
  2:{ intros e s3 Hp3. cbn [ops] in Hp3. congruence. }
  intros _ s3 Hy3 Hp3. cbn [ops currentY] in Hy3, Hp3.
  apply wp_bind. apply wp_draws_pages.
  { apply draws_emit. discriminate. }
  2:{ intros e s4 Hp4. congruence. }
  intros _ s4 Hy4 Hp4.
  apply wp_bind. unfold wp at 1, getY.
  apply wp_bind. apply wp_draws_pages.
  { apply draws_emit. discriminate. }
  2:{ intros e s5 Hp5. congruence. }
  intros _ s5 Hy5 Hp5.
  unfold wp, setY. cbn [ops currentY]. split; congruence.
Qed.

(** Whatever the orders, and whether the run ends normally or not, the
    document has one page as soon as a fresh page has room for the table
    header and three rows below the report header. *)
Lemma ordersPDF_one_page o :
  109 <= pageHeight E landscape ->
  numberOfPages (ops (fst (Report.ordersPDF E o (Report.initialState E)))) = 1%nat.
Proof.
  intro HH.
  apply (wp_fst (Report.ordersPDF E o) (fun s' => numberOfPages (ops s') = 1%nat)).
  unfold Report.ordersPDF.
  apply wp_bind. apply wp_draws_pages;
    [apply draws_initializeArabicFonts| |intros e s1 Hp; exact Hp].
  intros _ s1 Hy1 Hp1.
  apply wp_bind. eapply wp_mono; [apply addHeader_wp| |].
  2:{ intros e s2 Hp2. cbn beta in Hp2. rewrite Hp2, Hp1. reflexivity. }
  intros _ s2 [Hy2 Hp2].
  pose proof (@addOrdersTable_pages E (Report.orders o) s2) as Ht.
  rewrite Hy2, Hy1 in Ht. cbn [Report.initialState currentY] in Ht.
  assert (Hlim : 84 <= pageLimit E).
  { unfold pageLimit. cbn. lra. }
  unfold wp.
  destruct (Report.addOrdersTable E (Report.orders o) s2) as [s3 [u|e]];
    simpl in Ht; rewrite Ht; try (rewrite Hp2, Hp1; reflexivity).
  all: apply Qgtb_false_le with (a := 84); try exact Hlim;
    unfold Report.headerHeight, Report.rowHeight; lra.
Qed.

End ReportPages3.

(* ===================================================================== *)
(** ** Runs in which jsPDF accepts every text *)
(* ===================================================================== *)

Lemma emitAll_emitAll s l l' : emitAll (emitAll s l) l' = emitAll s (l ++ l').
Proof. unfold emitAll. simpl. rewrite app_assoc. reflexivity. Qed.

Lemma emit_run o s : emit o s = (emitAll s [o], Ok tt).
Proof. reflexivity. Qed.

Section TameRuns.
Variable E : Env.
Hypothesis HE : Tame E.

Lemma finalText_defined t mw : exists ft, finalText E t mw = Some ft.
Proof.
  unfold finalText. destruct mw as [w|]; [|eauto].
  destruct (negb (Qeq_bool w 0)); [|eauto].
  pose proof (tame_split HE t w) as Hne.
  destruct (splitTextToSize E t w) as [[|l [|l' ls]]|l]; eauto.
  congruence.
Qed.

Lemma text_run t x y a s :
  text E (Some t) x y a s = (emitAll s [Text t x y a], Ok tt).
Proof. unfold text. rewrite (tame_text HE). reflexivity. Qed.

Lemma setFont_helvetica_run style s :
  setFont E (str "helvetica") style s
  = (emitAll s [SetFont (str "helvetica") style], Ok tt).
Proof. unfold setFont. rewrite (tame_helvetica HE). reflexivity. Qed.

Lemma setFont_arabic_run style s :
  tryCatch (setFont E (str "Amiri") style)
           (fun _ => setFont E (str "helvetica") style) s
  = (emitAll s [SetFont (arabicFamily E style) style], Ok tt).
Proof.
  unfold tryCatch, arabicFamily, setFont at 1.
  destruct (setFontThrows E (str "Amiri") style) eqn:Hthrows.
  - unfold throw. apply setFont_helvetica_run.
  - reflexivity.
Qed.

Lemma report_addText_run t x y o ft s :
  finalText E t (maxWidth o) = Some ft ->
  Report.addText E t x y o s
  = (emitAll s
       [ SetFontSize (dflt (fontSize o) (Report.body (Report.fonts (Report.config E))));
         SetFont (familyFor E t (dflt (fontStyle o) Normal)) (dflt (fontStyle o) Normal);
         SetTextColor (dflt (color o) (Report.textColor (Report.colors (Report.config E))));
         reportTextOp t x y o ft ],
     Ok (dflt (fontSize o) (Report.body (Report.fonts (Report.config E))) * (35 # 100))).
Proof.
  intro Hft. unfold Report.addText, reportTextOp, familyFor.
  unfold bind at 1. rewrite emit_run. unfold bind at 1.
  destruct (containsArabic t).
  - unfold tryCatch at 1. unfold bind at 1. rewrite setFont_arabic_run.
    unfold bind at 1. unfold Report.setColor. rewrite emit_run.
    rewrite Hft. unfold tryCatch at 1. rewrite text_run.
    unfold ret. rewrite !emitAll_emitAll. reflexivity.
  - unfold tryCatch at 1. unfold bind at 1. rewrite setFont_helvetica_run.
    unfold bind at 1. unfold Report.setColor. rewrite emit_run.
    rewrite Hft. unfold tryCatch at 1. rewrite text_run.
    unfold ret. rewrite !emitAll_emitAll. reflexivity.
Qed.

Lemma receipt_addText_run t x y o ft s :
  finalText E t (maxWidth o) = Some ft ->
  Receipt.addText E t x y o s
  = (emitAll s
       [ SetFontSize (dflt (fontSize o) 12);
         SetFont (familyFor E t (dflt (fontStyle o) Normal)) (dflt (fontStyle o) Normal);
         SetTextColor (dflt (color o) (0, 0, 0)%N);
         receiptTextOp t x y o ft ],
     Ok (dflt (fontSize o) 12 * (35 # 100))).
Proof.
  intro Hft. unfold Receipt.addText, receiptTextOp, familyFor.
  unfold bind at 1. rewrite emit_run. unfold bind at 1.
  destruct (containsArabic t).
  - unfold tryCatch at 1. unfold bind at 1. rewrite setFont_arabic_run.
    unfold bind at 1. rewrite emit_run.
    rewrite Hft. rewrite text_run.
    unfold ret. rewrite !emitAll_emitAll. reflexivity.
  - unfold tryCatch at 1. unfold bind at 1. rewrite setFont_helvetica_run.
    unfold bind at 1. rewrite emit_run.
    rewrite Hft. rewrite text_run.
    unfold ret. rewrite !emitAll_emitAll. reflexivity.
Qed.

(** Without [maxWidth] the text is written as given. *)
Lemma report_addText_plain t x y o s :
  maxWidth o = None ->
  Report.addText E t x y o s
  = (emitAll s
       [ SetFontSize (dflt (fontSize o) (Report.body (Report.fonts (Report.config E))));
         SetFont (familyFor E t (dflt (fontStyle o) Normal)) (dflt (fontStyle o) Normal);
         SetTextColor (dflt (color o) (Report.textColor (Report.colors (Report.config E))));
         reportTextOp t x y o t ],
     Ok (dflt (fontSize o) (Report.body (Report.fonts (Report.config E))) * (35 # 100))).
Proof.
  intro Hmw. apply report_addText_run. rewrite Hmw. reflexivity.
Qed.

Lemma receipt_addText_plain t x y o s :
  maxWidth o = None ->
  Receipt.addText E t x y o s
  = (emitAll s
       [ SetFontSize (dflt (fontSize o) 12);
         SetFont (familyFor E t (dflt (fontStyle o) Normal)) (dflt (fontStyle o) Normal);
         SetTextColor (dflt (color o) (0, 0, 0)%N);
         receiptTextOp t x y o t ],
     Ok (dflt (fontSize o) 12 * (35 # 100))).
Proof.
  intro Hmw. apply receipt_addText_run. rewrite Hmw. reflexivity.
Qed.

End TameRuns.

(** [initializeArabicFonts] always returns: it registers the first font of
    the table, or does nothing. *)
Lemma initializeArabicFonts_run E s :
  exists w, Forall fontOp w /\ initializeArabicFonts E s = (emitAll s w, Ok tt).
Proof.
  assert (Hnil : (s, Ok tt) = (emitAll s [], Ok tt)).
  { unfold emitAll. rewrite app_nil_r. destruct s; reflexivity. }
  unfold initializeArabicFonts, tryCatch.
  destruct (hasArabicFonts (ARABIC_FONTS E)).
  - destruct (getAvailableArabicFont (ARABIC_FONTS E)) as [f|].
    + unfold addFont. destruct (addFontThrows E _).
      * exists []. split; [constructor|exact Hnil].
      * eexists. split.
        2:{ unfold bind. rewrite !emit_run, emitAll_emitAll. reflexivity. }
        repeat constructor.
    + exists []. split; [constructor|exact Hnil].
  - exists []. split; [constructor|exact Hnil].
Qed.

Section EmptyReport.
Variable E : Env.
Hypothesis HE : Tame E.

Lemma addHeader_run l :
  Report.addHeader E (emitAll (Report.initialState E) l)
  = ({| ops := l ++ headerBlock E;
        currentY := 15 + 15 + 10 + 10;
        currentPageNumber := 1 |}, Ok tt).
Proof.
  unfold Report.addHeader.
  unfold bind at 1. unfold getY at 1. cbn [emitAll currentY Report.initialState].
  unfold bind at 1. rewrite (report_addText_plain HE); [|reflexivity].
  unfold bind at 1. unfold setY at 1.
  unfold bind at 1. unfold getY at 1. cbn [emitAll currentY ops currentPageNumber].
  unfold bind at 1. rewrite (report_addText_plain HE); [|reflexivity].
  unfold bind at 1. unfold setY at 1.
  unfold bind at 1. unfold Report.setColor. rewrite emit_run.
  unfold bind at 1. rewrite emit_run.
  unfold bind at 1. unfold getY at 1.
  unfold bind at 1. rewrite emit_run.
  unfold setY. cbn [emitAll currentY ops currentPageNumber].
  rewrite <- !app_assoc. reflexivity.
Qed.

End EmptyReport.

(** *** Statements that return, and the texts they write *)

Lemma wt_ret A (a : A) : writesTexts (ret a) [].
Proof.
  intro s. exists s, a, []. rewrite app_nil_r. repeat split.
Qed.

Lemma wt_getY : writesTexts getY [].
Proof.
  intro s. exists s, (currentY s), []. rewrite app_nil_r. repeat split.
Qed.

Lemma wt_setY y : writesTexts (setY y) [].
Proof.
  intro s. eexists _, tt, []. split; [reflexivity|].
  simpl. rewrite app_nil_r. split; reflexivity.
Qed.

Lemma wt_emit o : textsOf [o] = [] -> writesTexts (emit o) [].
Proof.
  intros Ho s. eexists _, tt, [o]. split; [reflexivity|].
  split; [reflexivity|exact Ho].
Qed.

Lemma wt_bind A B (m : M A) (k : A -> M B) ts1 ts2 :
  writesTexts m ts1 -> (forall a, writesTexts (k a) ts2) ->
  writesTexts (bind m k) (ts1 ++ ts2).
Proof.
  intros Hm Hk s. destruct (Hm s) as (s1 & a & w1 & Hrun1 & Hops1 & Ht1).
  destruct (Hk a s1) as (s2 & b & w2 & Hrun2 & Hops2 & Ht2).
  exists s2, b, (w1 ++ w2). unfold bind. rewrite Hrun1. split; [exact Hrun2|].
  split.
  - rewrite Hops2, Hops1. symmetry. apply app_assoc.
  - rewrite textsOf_app. congruence.
Qed.

Lemma wt_when c (m : M unit) ts :
  writesTexts m ts -> writesTexts (when c m) (if c then ts else []).
Proof. intro Hm. destruct c; [exact Hm|apply wt_ret]. Qed.

Lemma wt_conv A (m : M A) ts ts' :
  writesTexts m ts -> ts = ts' -> writesTexts m ts'.
Proof. intros H Heq. subst ts'. exact H. Qed.

Lemma wt_forEachFrom A B (body : B -> A -> nat -> M B) (f : A -> list jsstring) xs :
  (forall acc x i, writesTexts (body acc x i) (f x)) ->
  forall i acc, writesTexts (forEachFrom body i xs acc) (flat_map f xs).
Proof.
  intro Hb. induction xs as [|x xs IH]; intros i acc; simpl.
  - apply wt_ret.
  - apply wt_bind; [apply Hb|]. intro acc'. apply IH.
Qed.

Section TameTexts.
Variable E : Env.
Hypothesis HE : Tame E.

Lemma textsOf_reportTextOp t x y o ft : textsOf [reportTextOp t x y o ft] = [ft].
Proof. unfold reportTextOp. destruct (containsArabic t); reflexivity. Qed.

Lemma textsOf_receiptTextOp t x y o ft : textsOf [receiptTextOp t x y o ft] = [ft].
Proof. unfold receiptTextOp. destruct (containsArabic t); reflexivity. Qed.

Lemma wt_report_addText t x y o :
  writesTexts (Report.addText E t x y o) [shownText E t (maxWidth o)].
Proof.
  intro s. destruct (finalText_defined HE t (maxWidth o)) as [ft Hft].
  unfold shownText. rewrite Hft. simpl.
  rewrite (report_addText_run HE _ _ _ _ _ Hft).
  eexists _, _, _. split; [reflexivity|]. split; [reflexivity|].
  change (textsOf [?a; ?b; ?c; ?d]) with (textsOf [d]).
  apply textsOf_reportTextOp.
Qed.

Lemma wt_receipt_addText t x y o :
  writesTexts (Receipt.addText E t x y o) [shownText E t (maxWidth o)].
Proof.
  intro s. destruct (finalText_defined HE t (maxWidth o)) as [ft Hft].
  unfold shownText. rewrite Hft. simpl.
  rewrite (receipt_addText_run HE _ _ _ _ _ Hft).
  eexists _, _, _. split; [reflexivity|]. split; [reflexivity|].
  change (textsOf [?a; ?b; ?c; ?d]) with (textsOf [d]).
  apply textsOf_receiptTextOp.
Qed.

End TameTexts.

(** One step of a proof of [writesTexts]. *)
Ltac wt_step HE :=
  lazymatch goal with
  | |- writesTexts (bind _ _) _ => eapply wt_bind; [|intro]
  | |- writesTexts (ret _) _ => apply wt_ret
  | |- writesTexts getY _ => apply wt_getY
  | |- writesTexts (setY _) _ => apply wt_setY
  | |- writesTexts (emit _) _ => apply wt_emit; reflexivity
  | |- writesTexts (when _ _) _ => eapply wt_when
  | |- writesTexts (Receipt.addText _ _ _ _ _) _ => apply (wt_receipt_addText HE)
  | |- writesTexts (Report.addText _ _ _ _ _) _ => apply (wt_report_addText HE)
  | |- writesTexts (Report.setColor _ _) _ => unfold Report.setColor
  end.

Ltac wt_auto HE := eapply wt_conv; [repeat wt_step HE|].

Lemma positiveAmount_line label v :
  (if Receipt.positiveAmount v then [label ++ str ": OMR " ++ dflt v []] else [])
  = Spec.amountLine label v.
Proof.
  unfold Receipt.positiveAmount, Spec.amountLine.
  destruct v as [[|c s]|]; reflexivity.
Qed.

Section ReceiptSections.
Variable E : Env.
Hypothesis HE : Tame E.

Lemma headerImage_fallback s :
  Receipt.imagePlaced E = false ->
  Receipt.headerImage E s
  = ({| ops := ops s ++ fallbackTitle E (currentY s);
        currentY := currentY s + 15;
        currentPageNumber := currentPageNumber s |}, Ok tt).
Proof.
  unfold Receipt.imagePlaced, Receipt.headerImage, convertImageToBase64.
  intro Hfail.
  assert (Hcatch :
    (y <- getY ;;
     Receipt.addText E (str "RECEIPT") (Receipt.pageW E / 2) y
       {| align := Some Center; maxWidth := None; fontSize := Some 20;
          fontStyle := Some Bold; color := None |} ;;
     setY (y + 15)) s
    = ({| ops := ops s ++ fallbackTitle E (currentY s);
          currentY := currentY s + 15;
          currentPageNumber := currentPageNumber s |}, Ok tt)).
  { unfold bind at 1. unfold getY at 1.
    unfold bind at 1. rewrite (receipt_addText_plain HE); [|reflexivity].
    reflexivity. }
  destruct (loadImage E _) as [data|].
  - unfold tryCatch, bind at 1. unfold ret at 1.
    unfold bind at 1. unfold getY at 1. unfold bind at 1. unfold addImage.
    destruct (addImageThrows E data); [|discriminate].
    unfold throw. exact Hcatch.
  - unfold tryCatch, bind at 1. unfold throw at 1. exact Hcatch.
Qed.

Lemma headerImage_placed s :
  Receipt.imagePlaced E = true ->
  exists data,
    loadImage E (str "/assets/images/invoice header.png") = Some data /\
    Receipt.headerImage E s
    = ({| ops := ops s ++ [AddImage data 15 (currentY s) (Receipt.pageW E - 2 * 15) 35];
          currentY := currentY s + (35 + 15);
          currentPageNumber := currentPageNumber s |}, Ok tt).
Proof.
  unfold Receipt.imagePlaced, Receipt.headerImage, convertImageToBase64.
  intro Hok. destruct (loadImage E _) as [data|]; [|discriminate].
  exists data. split; [reflexivity|].
  unfold tryCatch, bind at 1. unfold ret at 1.
  unfold bind at 1. unfold getY at 1. unfold bind at 1. unfold addImage.
  destruct (addImageThrows E data); [discriminate|]. reflexivity.
Qed.

Lemma wt_headerImage :
  writesTexts (Receipt.headerImage E)
              (if Receipt.imagePlaced E then [] else [str "RECEIPT"]).
Proof.
  intro s. destruct (Receipt.imagePlaced E) eqn:Himg.
  - destruct (headerImage_placed s Himg) as (data & _ & Hrun).
    rewrite Hrun. eexists _, _, _. split; [reflexivity|].
    split; reflexivity.
  - rewrite (headerImage_fallback s Himg).
    eexists _, _, _. split; [reflexivity|]. split; reflexivity.
Qed.

Lemma wt_receiptHeader order :
  writesTexts (Receipt.receiptHeader E order) (Spec.receiptHeaderLines order).
Proof. unfold Receipt.receiptHeader. wt_auto HE. reflexivity. Qed.

Lemma wt_customerInformation order :
  writesTexts (Receipt.customerInformation E order) (Spec.customerLines order).
Proof.
  unfold Receipt.customerInformation. wt_auto HE.
  unfold Spec.customerLines, Spec.optionalLine, shownText. simpl.
  destruct (address order) as [[|c s]|]; destruct (location order) as [[|c' s']|];
    reflexivity.
Qed.

Lemma wt_orderDetailsSection order :
  writesTexts (Receipt.orderDetailsSection E order)
    [ str "Order Details:";
      shownText E (Spec.orNA (orderDetails order))
                (Some (Receipt.pageW E - 2 * Receipt.margin)) ].
Proof. unfold Receipt.orderDetailsSection. wt_auto HE. reflexivity. Qed.

Lemma wt_deliveryInformation order :
  writesTexts (Receipt.deliveryInformation E order) (Spec.deliveryLines order).
Proof. unfold Receipt.deliveryInformation. wt_auto HE. reflexivity. Qed.

Lemma wt_footer : writesTexts (Receipt.footer E) Spec.footerLines.
Proof. unfold Receipt.footer. wt_auto HE. reflexivity. Qed.

Lemma wt_initializeArabicFonts : writesTexts (initializeArabicFonts E) [].
Proof.
  intro s. destruct (initializeArabicFonts_run E s) as (w & Hw & Hrun).
  rewrite Hrun. eexists _, _, w. split; [reflexivity|]. split; [reflexivity|].
  clear Hrun. induction Hw as [|o w Ho _ IH]; [reflexivity|].
  destruct o; try contradiction; exact IH.
Qed.

Lemma wt_paymentInformation order :
  writesTexts (Receipt.paymentInformation E order) (Spec.paymentLines E order).
Proof.
  unfold Receipt.paymentInformation. wt_auto HE.
  unfold shownText, Spec.paymentLines. simpl.
  rewrite <- (positiveAmount_line (str "Advance Payment")).
  rewrite <- (positiveAmount_line (str "Balance Payment")).
  rewrite <- (positiveAmount_line (str "Discount")).
  destruct (paymentType order) as [[|c s]|]; simpl;
  destruct (Receipt.positiveAmount (advancePayment order));
  destruct (Receipt.positiveAmount (balancePayment order));
  destruct (Receipt.positiveAmount (discount order)); reflexivity.
Qed.

End ReceiptSections.

Section ReceiptDocument.
Variable E : Env.
Hypothesis HE : Tame E.

Lemma wt_receiptPDF order :
  writesTexts (Receipt.receiptPDF E order) (receiptLines E order).
Proof.
  unfold Receipt.receiptPDF, receiptLines.
  eapply wt_conv.
  - eapply wt_bind; [apply (wt_initializeArabicFonts E)|intros _].
    eapply wt_bind; [apply (wt_headerImage HE)|intros _].
    eapply wt_bind; [apply (wt_receiptHeader HE)|intros _].
    eapply wt_bind; [apply (wt_customerInformation HE)|intros _].
    eapply wt_bind; [apply (wt_orderDetailsSection HE)|intros _].
    eapply wt_bind; [apply (wt_deliveryInformation HE)|intros _].
    eapply wt_bind; [apply (wt_paymentInformation HE)|intros _].
    apply (wt_footer HE).
  - reflexivity.
Qed.

(** On a tame environment the receipt is always produced, and its lines
    are [receiptLines]. *)
Lemma generateOrderReceiptPDF_lines order :
  exists doc,
    Receipt.generateOrderReceiptPDF E order = Ok doc /\
    textsOf doc = receiptLines E order.
Proof.
  destruct (wt_receiptPDF order (Receipt.initialState)) as (s' & a & w & Hrun & Hops & Ht).
  exists (ops s'). unfold Receipt.generateOrderReceiptPDF. rewrite Hrun.
  split; [reflexivity|]. rewrite Hops. exact Ht.
Qed.

End ReceiptDocument.

(** *** Which exceptions escape *)

Section RaiseRules.
Variable C : exn -> Prop.

Lemma raises_ret A (a : A) : raises C (ret a).
Proof. intros s s' e H. discriminate. Qed.

Lemma raises_getY : raises C getY.
Proof. intros s s' e H. discriminate. Qed.

Lemma raises_setY y : raises C (setY y).
Proof. intros s s' e H. discriminate. Qed.

Lemma raises_emit o : raises C (emit o).
Proof. intros s s' e H. discriminate. Qed.

Lemma raises_throw A e : C e -> raises C (@throw A e).
Proof. intros He s s' e' H. inversion H. subst. exact He. Qed.

Lemma raises_bind A B (m : M A) (k : A -> M B) :
  raises C m -> (forall a, raises C (k a)) -> raises C (bind m k).
Proof.
  intros Hm Hk s s' e. unfold bind. specialize (Hm s).
  destruct (m s) as [s1 [a|e1]]; intro H.
  - eapply Hk. exact H.
  - inversion H. subst. eapply Hm. reflexivity.
Qed.

(** What the [try] block throws is caught: only the handler counts. *)
Lemma raises_tryCatch A (m : M A) (h : exn -> M A) :
  (forall e, raises C (h e)) -> raises C (tryCatch m h).
Proof.
  intros Hh s s' e. unfold tryCatch.
  destruct (m s) as [s1 [a|e1]]; intro H.
  - discriminate.
  - eapply Hh. exact H.
Qed.

Lemma raises_when c (m : M unit) : raises C m -> raises C (when c m).
Proof. intro Hm. destruct c; [exact Hm|apply raises_ret]. Qed.

Variable E : Env.

Lemma raises_setFont family style :
  C FontError -> raises C (setFont E family style).
Proof.
  intro H. unfold setFont. destruct (setFontThrows E family style).
  - apply raises_throw, H.
  - apply raises_emit.
Qed.

Lemma raises_text t x y a : C TextError -> raises C (text E t x y a).
Proof.
  intro H. unfold text. destruct t as [t'|]; [|apply raises_throw, H].
  destruct (textThrows E t' x y a); [apply raises_throw, H|apply raises_emit].
Qed.

End RaiseRules.

Ltac raise_step :=
  lazymatch goal with
  | |- raises _ (bind _ _) => apply raises_bind; [|intro]
  | |- raises _ (tryCatch _ _) => apply raises_tryCatch; intro
  | |- raises _ (ret _) => apply raises_ret
  | |- raises _ getY => apply raises_getY
  | |- raises _ (setY _) => apply raises_setY
  | |- raises _ (emit _) => apply raises_emit
  | |- raises _ (when _ _) => apply raises_when
  | |- raises _ (setFont _ _ _) => apply raises_setFont
  | |- raises _ (text _ _ _ _ _) => apply raises_text
  | |- raises _ (if ?c then _ else _) => destruct c
  end.

Lemma raises_receipt_addText E t x y o :
  raises drawingError (Receipt.addText E t x y o).
Proof.
  unfold Receipt.addText.
  repeat raise_step; solve [left; reflexivity | right; reflexivity].
Qed.

Ltac raise_receipt :=
  repeat first [ apply raises_receipt_addText | raise_step ].

(** Whatever the environment, only a failure to draw a text can escape
    from the receipt: the image failures are caught. *)
Lemma raises_receiptPDF E order :
  raises drawingError (Receipt.receiptPDF E order).
Proof.
  unfold Receipt.receiptPDF, Receipt.headerImage, Receipt.receiptHeader,
    Receipt.customerInformation, Receipt.orderDetailsSection,
    Receipt.deliveryInformation, Receipt.paymentInformation, Receipt.footer,
    initializeArabicFonts.
  raise_receipt.
Qed.

(* ===================================================================== *)
(** ** Table cells *)
(* ===================================================================== *)

Lemma Forall_trimStart (P : N -> Prop) s : Forall P s -> Forall P (trimStart s).
Proof.
  induction 1 as [|c r Hc Hr IH]; simpl; [constructor|].
  destruct (isWhiteSpace c); [exact IH|constructor; assumption].
Qed.

Lemma Forall_trim (P : N -> Prop) s : Forall P s -> Forall P (trim s).
Proof.
  intro H. unfold trim, trimEnd.
  apply Forall_rev, Forall_trimStart, Forall_rev, Forall_trimStart, H.
Qed.

(** After cleaning, a cell only holds printable ASCII and Arabic-block code
    units. *)
Lemma cleanCell_displayable s :
  Forall (fun c => Report.displayable c = true) (Report.cleanCell s).
Proof.
  unfold Report.cleanCell. apply Forall_trim.
  induction s as [|c r IH]; simpl; constructor; [|exact IH].
  destruct (Report.displayable c) eqn:Hc; [exact Hc|reflexivity].
Qed.

(** [trim] leaves a string alone when neither end is white space. *)
Lemma trimStart_id c r : isWhiteSpace c = false -> trimStart (c :: r) = c :: r.
Proof. intro H. simpl. rewrite H. reflexivity. Qed.

Lemma trim_id c r d :
  isWhiteSpace c = false -> isWhiteSpace d = false ->
  trim (c :: r ++ [d]) = c :: r ++ [d].
Proof.
  intros Hc Hd. unfold trim, trimEnd. rewrite trimStart_id by exact Hc.
  change (c :: r ++ [d]) with ((c :: r) ++ [d]).
  rewrite rev_app_distr. simpl rev at 1. simpl app at 1.
  rewrite Hd.
  change (d :: rev r ++ [c]) with ([d] ++ rev (c :: r)).
  rewrite rev_app_distr, rev_involutive. reflexivity.
Qed.

Lemma map_displayable_id s :
  Forall (fun c => Report.displayable c = true) s ->
  map (fun c => if Report.displayable c then c else 32%N) s = s.
Proof.
  induction 1 as [|c r Hc _ IH]; simpl; [reflexivity|].
  rewrite Hc, IH. reflexivity.
Qed.

Lemma finalText_displayable E t mw ft :
  SplitSound E ->
  Forall (fun c => Report.displayable c = true) t ->
  finalText E t mw = Some ft ->
  Forall (fun c => Report.displayable c = true) ft.
Proof.
  intros Hsound Ht. unfold finalText.
  destruct mw as [w|]; [|intro H; inversion H; subst; exact Ht].
  destruct (negb (Qeq_bool w 0)); [|intro H; inversion H; subst; exact Ht].
  specialize (Hsound t w).
  assert (Hincl : forall l, incl l t ->
            Forall (fun c => Report.displayable c = true) l).
  { intros l Hl. apply Forall_forall. intros c Hc.
    rewrite Forall_forall in Ht. apply Ht, Hl, Hc. }
  destruct (splitTextToSize E t w) as [[|l [|l' ls]]|l];
    intro H; inversion H; subst.
  - apply Hincl. inversion Hsound. assumption.
  - apply Forall_app. split.
    + apply Hincl. inversion Hsound. assumption.
    + repeat constructor.
  - apply Hincl, Hsound.
Qed.

(** The texts of one table row on a tame environment: for each column, what
    [finalText] makes of the cell text at the column's inner width. *)
Lemma wt_drawTableRow E (HE : Tame E) order startY isAlternate :
  writesTexts (Report.drawTableRow E order startY isAlternate)
    (map (fun col => shownText E (Report.cellData order (Report.dataKey col))
                               (Some (Report.width col - 4)))
         Report.columns).
Proof.
  unfold Report.drawTableRow. eapply wt_conv.
  - repeat wt_step HE.
    unfold forEach.
    apply wt_forEachFrom with
      (f := fun col => [shownText E (Report.cellData order (Report.dataKey col))
                                  (Some (Report.width col - 4))]).
    intros acc col i. eapply wt_conv; [repeat wt_step HE|]. reflexivity.
  - destruct isAlternate; reflexivity.
Qed.

(* ===================================================================== *)
(** ** The sample environment is tame *)
(* ===================================================================== *)

Lemma chunks_not_nil fuel n s : Sample.chunks fuel n s <> [].
Proof.
  destruct fuel; simpl; [discriminate|].
  destruct (List.length s <=? n)%nat; discriminate.
Qed.

Lemma incl_firstn (n : nat) (s : jsstring) : incl (firstn n s) s.
Proof.
  intros c Hc. rewrite <- (firstn_skipn n s). apply in_or_app. left. exact Hc.
Qed.

Lemma incl_skipn (n : nat) (s : jsstring) : incl (skipn n s) s.
Proof.
  intros c Hc. rewrite <- (firstn_skipn n s). apply in_or_app. right. exact Hc.
Qed.

Lemma chunks_incl fuel n : forall s,
  Forall (fun l => incl l s) (Sample.chunks fuel n s).
Proof.
  induction fuel as [|fuel IH]; intro s; simpl.
  - repeat constructor. apply incl_refl.
  - destruct (List.length s <=? n)%nat.
    + repeat constructor. apply incl_refl.
    + constructor.
      * apply incl_firstn.
      * eapply Forall_impl; [|apply IH].
        intros l Hl c Hc. eapply incl_skipn. apply Hl, Hc.
Qed.

Lemma sample_tame : Tame Sample.env.
Proof.
  split; try reflexivity.
  intros t w. simpl. unfold Sample.fixedPitchSplit. intro H.
  inversion H as [Hnil]. eapply chunks_not_nil. exact Hnil.
Qed.

Lemma sample_noImage_tame : Tame Sample.envNoImage.
Proof.
  split; try reflexivity.
  intros t w. simpl. unfold Sample.fixedPitchSplit. intro H.
  inversion H as [Hnil]. eapply chunks_not_nil. exact Hnil.
Qed.

Lemma sample_badImage_tame : Tame Sample.envBadImage.
Proof.
  split; try reflexivity.
  intros t w. simpl. unfold Sample.fixedPitchSplit. intro H.
  inversion H as [Hnil]. eapply chunks_not_nil. exact Hnil.
Qed.

Lemma sample_split_sound : SplitSound Sample.env.
Proof. intros t w. simpl. apply chunks_incl. Qed.

(* ===================================================================== *)
(** ** The properties of the renderer *)
(* ===================================================================== *)

Lemma In_eqb (x : jsstring) l : In x l <-> existsb (JS.eqb x) l = true.
Proof.
  rewrite existsb_exists. unfold JS.eqb. split.
  - intro H. exists x. split; [exact H|].
    destruct (list_eq_dec N.eq_dec x x); [reflexivity|contradiction].
  - intros [y [Hy Heq]].
    destruct (list_eq_dec N.eq_dec x y); [subst; exact Hy|discriminate].
Qed.

Lemma not_In_eqb (x : jsstring) l : existsb (JS.eqb x) l = false -> ~ In x l.
Proof. intros H Hin. apply In_eqb in Hin. congruence. Qed.

(** C1, as the specification states it, fails: with order details of 200
    letters the receipt holds the first 90 followed by three full stops,
    and the full text is nowhere in the document. *)
Lemma C1_long_details_are_cut :
  exists doc,
    Receipt.generateOrderReceiptPDF Sample.env Sample.longOrder = Ok doc /\
    ~ In (repeat 97%N 200) (textsOf doc) /\
    In (repeat 97%N 90 ++ str "...") (textsOf doc).
Proof.
  eexists. split; [vm_compute; reflexivity|]. split.
  - apply not_In_eqb. vm_compute. reflexivity.
  - apply In_eqb. vm_compute. reflexivity.
Qed.

(** C1 (amended): receipt generation hands the order-details text (or
    ["N/A"]) to [addText] with the page width less the margins as
    [maxWidth]; the line written under the "Order Details:" heading is the
    only line when [splitTextToSize] returns one, and the first line
    followed by ["..."] when it returns several. *)
Theorem C1_receipt_details_first_line E order :
  Tame E ->
  ~ (Receipt.pageW E - 2 * Receipt.margin == 0) ->
  exists doc line,
    Receipt.generateOrderReceiptPDF E order = Ok doc /\
    textsOf doc
    = (if Receipt.imagePlaced E then [] else [str "RECEIPT"])
      ++ Spec.receiptHeaderLines order
      ++ Spec.customerLines order
      ++ [str "Order Details:"; line]
      ++ Spec.deliveryLines order
      ++ Spec.paymentLines E order
      ++ Spec.footerLines /\
    match splitTextToSize E (orElse (orderDetails order) (str "N/A"))
                          (Receipt.pageW E - 2 * Receipt.margin) with
    | LinesArray [] => False
    | LinesArray [only] => line = only
    | LinesArray (first :: _ :: _) => line = first ++ str "..."
    | LinesString l => line = l
    end.
Proof.
  intros HE Hw.
  destruct (generateOrderReceiptPDF_lines HE order) as (doc & Hdoc & Hlines).
  exists doc. eexists. split; [exact Hdoc|]. split; [exact Hlines|].
  unfold shownText, finalText, Spec.orNA.
  assert (Hnz : Qeq_bool (Receipt.pageW E - 2 * Receipt.margin) 0 = false).
  { destruct (Qeq_bool _ 0) eqn:Hq; [|reflexivity].
    apply Qeq_bool_iff in Hq. contradiction. }
  rewrite Hnz. simpl negb. cbv iota.
  pose proof (tame_split HE (orElse (orderDetails order) (str "N/A"))
                (Receipt.pageW E - 2 * Receipt.margin)) as Hne.
  destruct (splitTextToSize E _ _) as [[|l [|l' ls]]|l]; try reflexivity.
  apply Hne. reflexivity.
Qed.

(** With 200 letters of order details on the A4 sheet. *)
Lemma C1_receipt_details_first_line_witness :
  exists doc line,
    Receipt.generateOrderReceiptPDF Sample.env Sample.longOrder = Ok doc /\
    textsOf doc
    = (if Receipt.imagePlaced Sample.env then [] else [str "RECEIPT"])
      ++ Spec.receiptHeaderLines Sample.longOrder
      ++ Spec.customerLines Sample.longOrder
      ++ [str "Order Details:"; line]
      ++ Spec.deliveryLines Sample.longOrder
      ++ Spec.paymentLines Sample.env Sample.longOrder
      ++ Spec.footerLines /\
    match splitTextToSize Sample.env
            (orElse (orderDetails Sample.longOrder) (str "N/A"))
            (Receipt.pageW Sample.env - 2 * Receipt.margin) with
    | LinesArray [] => False
    | LinesArray [only] => line = only
    | LinesArray (first :: _ :: _) => line = first ++ str "..."
    | LinesString l => line = l
    end.
Proof.
  apply (@C1_receipt_details_first_line Sample.env Sample.longOrder sample_tame).
  vm_compute. discriminate.
Defined.

Lemma fontOps_plain w :
  Forall fontOp w ->
  textsOf w = [] /\ forallb (fun o => negb (isRect o)) w = true
  /\ numberOfPages w = 1%nat.
Proof.
  induction 1 as [|o w Ho _ (IH1 & IH2 & IH3)]; [repeat split|].
  destruct o; try contradiction; repeat split; assumption.
Qed.

(** C2: for the empty record list the document is the font registration
    (if a font is compiled in), the report's header block, and then one
    text, "No orders to display", centered at mid page width.  Its texts
    are the title, the timestamp line and that message; it has no
    rectangle (every table header starts with one) and a single page. *)
Theorem C2_empty_report E title language showSummary logoUrl :
  Tame E ->
  exists doc fontOps,
    Report.generateOrdersPDF E
      {| Report.title := title; Report.orders := [];
         Report.language := language; Report.showSummary := showSummary;
         Report.logoUrl := logoUrl |} = Ok doc /\
    Forall fontOp fontOps /\
    doc = fontOps ++ headerBlock E
          ++ [ SetFontSize 14;
               SetFont (str "helvetica") Normal;
               SetTextColor (100, 116, 139)%N;
               Text (str "No orders to display")
                    (pageWidth E landscape / 2) (15 + 15 + 10 + 10 + 20)
                    (Some Center) ] /\
    textsOf doc
    = [ Report.txtTitle Report.getEnglishText;
        str "Generated on: " ++ dateTimeStr E;
        str "No orders to display" ] /\
    forallb (fun o => negb (isRect o)) doc = true /\
    numberOfPages doc = 1%nat.
Proof.
  intro HE.
  destruct (initializeArabicFonts_run E (Report.initialState E))
    as (w & Hw & Hrun).
  destruct (fontOps_plain Hw) as (Hw1 & Hw2 & Hw3).
  eexists. exists w.
  split.
  { unfold Report.generateOrdersPDF, Report.ordersPDF. cbn [Report.orders].
    unfold bind at 1. rewrite Hrun.
    unfold bind at 1. rewrite (addHeader_run HE).
    unfold Report.addOrdersTable.
    unfold bind at 1. unfold getY at 1. cbn [currentY].
    unfold bind at 1. rewrite (report_addText_plain HE); [|reflexivity].
    unfold ret. cbn [emitAll ops]. reflexivity. }
  split; [exact Hw|].
  split.
  { cbn [Report.initialState ops]. rewrite <- app_assoc. reflexivity. }
  split.
  { cbn [Report.initialState ops]. rewrite !textsOf_app.
    rewrite Hw1. unfold headerBlock, reportTextOp.
    destruct (containsArabic _); reflexivity. }
  split.
  { cbn [Report.initialState ops]. rewrite !forallb_app.
    rewrite Hw2. unfold headerBlock, reportTextOp.
    destruct (containsArabic _); reflexivity. }
  cbn [Report.initialState ops].
  rewrite numberOfPages_app; [rewrite numberOfPages_app; [exact Hw3|]|].
  - unfold headerBlock, reportTextOp.
    destruct (containsArabic _); repeat constructor; discriminate.
  - repeat constructor; discriminate.
Qed.

(** The empty report, Arabic requested. *)
Lemma C2_empty_report_witness :
  exists doc fontOps,
    Report.generateOrdersPDF Sample.env (Sample.options [] (Some Report.ar))
    = Ok doc /\
    Forall fontOp fontOps /\
    doc = fontOps ++ headerBlock Sample.env
          ++ [ SetFontSize 14;
               SetFont (str "helvetica") Normal;
               SetTextColor (100, 116, 139)%N;
               Text (str "No orders to display")
                    (pageWidth Sample.env landscape / 2) (15 + 15 + 10 + 10 + 20)
                    (Some Center) ] /\
    textsOf doc
    = [ Report.txtTitle Report.getEnglishText;
        str "Generated on: " ++ dateTimeStr Sample.env;
        str "No orders to display" ] /\
    forallb (fun o => negb (isRect o)) doc = true /\
    numberOfPages doc = 1%nat.
Proof.
  exact (@C2_empty_report Sample.env (str "Today's Orders") (Some Report.ar)
           None None sample_tame).
Defined.

(** C3 fails on the code: the row loop asks [checkAndAddPage] whether the
    next row fits, but [checkAndAddPage] reads [currentY], which stays where
    the report header left it while the rows advance [tableY].  So on any
    page at least 109mm high the check never fires: whatever the number of
    records, and whether the run returns or not, the document has exactly
    one page. *)
Theorem C3_report_never_paginates E o :
  109 <= pageHeight E landscape ->
  numberOfPages (ops (fst (Report.ordersPDF E o (Report.initialState E)))) = 1%nat
  /\ (forall doc, Report.generateOrdersPDF E o = Ok doc ->
                  numberOfPages doc = 1%nat).
Proof.
  intro HH. pose proof (@ordersPDF_one_page E o HH) as Hone.
  split; [exact Hone|].
  intros doc. unfold Report.generateOrdersPDF.
  destruct (Report.ordersPDF E o (Report.initialState E)) as [s [u|e]];
    intro Hdoc; inversion Hdoc; subst. exact Hone.
Qed.

(** A hundred orders on the A4 sheet. *)
Lemma C3_report_never_paginates_witness :
  numberOfPages
    (ops (fst (Report.ordersPDF Sample.env
                 (Sample.options (repeat Sample.order1 100) None)
                 (Report.initialState Sample.env)))) = 1%nat
  /\ (forall doc,
        Report.generateOrdersPDF Sample.env
          (Sample.options (repeat Sample.order1 100) None) = Ok doc ->
        numberOfPages doc = 1%nat).
Proof.
  apply (@C3_report_never_paginates Sample.env
           (Sample.options (repeat Sample.order1 100) None)).
  unfold Qle. simpl. lia.
Defined.

(** The report of 100 orders on A4: it is produced, on one page, and the
    cells of 81 of the 100 rows (567 texts) are written below the sheet. *)
Example hundred_orders_run_off_the_page :
  exists doc,
    Report.generateOrdersPDF Sample.env
      (Sample.options (repeat Sample.order1 100) None) = Ok doc /\
    numberOfPages doc = 1%nat /\
    List.length (filter (belowPage Sample.env) doc) = 567%nat.
Proof.
  eexists. split; [vm_compute; reflexivity|].
  split; vm_compute; reflexivity.
Qed.

Lemma length_trimStart s : (List.length (trimStart s) <= List.length s)%nat.
Proof.
  induction s as [|c r IH]; simpl; [lia|].
  destruct (isWhiteSpace c); simpl; lia.
Qed.

Lemma length_cleanCell s : (List.length (Report.cleanCell s) <= List.length s)%nat.
Proof.
  unfold Report.cleanCell, trim, trimEnd.
  rewrite length_rev.
  eapply Nat.le_trans; [apply length_trimStart|]. rewrite length_rev.
  eapply Nat.le_trans; [apply length_trimStart|]. rewrite length_map. lia.
Qed.

(** C4, as the specification states it, fails.  Forty letters ["a"] reach
    the text renderer as 27 letters and three full stops (thirty code
    units), not 27 letters and the one-character ellipsis U+2026 (which the
    cleaning step would turn into a space anyway); a value whose first 27
    code units are spaces reaches it as ["..."] alone; and what is drawn is
    cut once more at the column width: with the fixed-pitch line breaker the
    28mm of the customer column hold 14 letters. *)
Lemma C4_forty_letters_three_full_stops :
  Report.cellData Sample.order40 kName = repeat 97%N 27 ++ str "..." /\
  Report.cellData Sample.order40 kName <> repeat 97%N 27 ++ [8230%N] /\
  Report.cleanCell (Report.truncateCell (repeat 32%N 31)) = str "..." /\
  Report.cleanCell (repeat 97%N 27 ++ [8230%N]) = repeat 97%N 27 /\
  shownText Sample.env (Report.cellData Sample.order40 kName) (Some (32 - 4))
  = repeat 97%N 14 ++ str "...".
Proof.
  split; [vm_compute; reflexivity|].
  split; [intro H; vm_compute in H; discriminate H|].
  repeat split; vm_compute; reflexivity.
Qed.

(** C4 (amended): a cell value longer than 30 code units is cut to its first
    27 code units followed by three full stops; the cleaning step (every
    code unit outside U+0020-U+007E and U+0600-U+06FF becomes a space, then
    [trim]) is applied to that, and the result, at most 30 code units long,
    is what the text renderer receives.  When the first 27 code units are
    all displayable and the value does not start with white space the
    renderer receives exactly those 27 followed by ["..."]; what it then
    draws in a row is its own [finalText] at the column's inner width. *)
Theorem C4_long_cell_truncated order key :
  (30 < List.length (Report.cellValue order key))%nat ->
  Report.cellData order key
  = Report.cleanCell (firstn 27 (Report.cellValue order key) ++ str "...")
  /\ (List.length (Report.cellData order key) <= 30)%nat
  /\ (Forall (fun c => Report.displayable c = true)
             (firstn 27 (Report.cellValue order key)) ->
      isWhiteSpace (hd 32%N (Report.cellValue order key)) = false ->
      Report.cellData order key
      = firstn 27 (Report.cellValue order key) ++ str "...")
  /\ (forall E startY isAlternate, Tame E ->
        writesTexts (Report.drawTableRow E order startY isAlternate)
          (map (fun col =>
                  shownText E (Report.cellData order (Report.dataKey col))
                            (Some (Report.width col - 4)))
               Report.columns)).
Proof.
  intro Hlen.
  assert (Hcell : Report.cellData order key
                  = Report.cleanCell
                      (firstn 27 (Report.cellValue order key) ++ str "...")).
  { unfold Report.cellData, Report.truncateCell, substring0.
    apply Nat.ltb_lt in Hlen. rewrite Hlen. reflexivity. }
  split; [exact Hcell|]. split; [|split].
  - rewrite Hcell. eapply Nat.le_trans; [apply length_cleanCell|].
    rewrite length_app, length_firstn.
    change (List.length (str "...")) with 3%nat. lia.
  - intros Hdisp Hhd. rewrite Hcell. unfold Report.cleanCell.
    rewrite map_displayable_id.
    2:{ apply Forall_app. split; [exact Hdisp|repeat constructor]. }
    destruct (Report.cellValue order key) as [|c r] eqn:Hv;
      [simpl in Hlen; lia|].
    simpl in Hhd. change (firstn 27 (c :: r)) with (c :: firstn 26 r).
    replace ((c :: firstn 26 r) ++ str "...")
      with (c :: (firstn 26 r ++ [46; 46]%N) ++ [46%N])
      by (rewrite <- app_assoc; reflexivity).
    apply trim_id; [exact Hhd|reflexivity].
  - intros E startY isAlternate HE. apply wt_drawTableRow. exact HE.
Qed.

(** Forty letters ["a"] reach the renderer as 27 and three full stops. *)
Lemma C4_long_cell_truncated_witness :
  Report.cellData Sample.order40 kName = repeat 97%N 27 ++ str "...".
Proof.
  assert (Hlen : (30 < List.length (Report.cellValue Sample.order40 kName))%nat)
    by (vm_compute; lia).
  destruct (@C4_long_cell_truncated Sample.order40 kName Hlen)
    as (_ & _ & Hexact & _).
  rewrite Hexact; [reflexivity| |reflexivity].
  apply Forall_forall. intros c Hc. simpl in Hc.
  repeat (destruct Hc as [Hc|Hc]; [subst c; reflexivity|]). contradiction.
Defined.

Lemma adjustedAlign_table a d :
  Report.adjustedAlign a d = Spec.adjustForDirection a d.
Proof. destruct a, d; reflexivity. Qed.

(** C5: a text is right-to-left exactly when it is classified Arabic, and
    the alignment that [addText] passes to [doc.text] (in the report, where
    a missing alignment is center, and in the receipt, where it is left) is
    the requested one adjusted by the truth table
    (left, rtl) -> right, (right, rtl) -> left, (center, any) -> center,
    (any, ltr) -> unchanged. *)
Theorem C5_alignment_adjusted_for_direction E t x y o s :
  Tame E ->
  (getTextDirection t = rtl <-> containsArabic t = true) /\
  (exists pre ft x',
      Forall (fun op => styleOp op = true) pre /\
      fst (Report.addText E t x y o s)
      = emitAll s
          (pre ++ [Text ft x' y
                     (Some (Spec.adjustForDirection (dflt (align o) Center)
                                                    (getTextDirection t)))])) /\
  (exists pre ft,
      Forall (fun op => styleOp op = true) pre /\
      fst (Receipt.addText E t x y o s)
      = emitAll s
          (pre ++ [Text ft x y
                     (Some (Spec.adjustForDirection (dflt (align o) Left)
                                                    (getTextDirection t)))])) /\
  Spec.adjustForDirection Left rtl = Right /\
  Spec.adjustForDirection Right rtl = Left /\
  Spec.adjustForDirection Center rtl = Center /\
  (forall a, Spec.adjustForDirection a ltr = a).
Proof.
  intro HE.
  destruct (finalText_defined HE t (maxWidth o)) as [ft Hft].
  split; [|split; [|split]].
  - unfold getTextDirection. destruct (containsArabic t); split; congruence.
  - rewrite (report_addText_run HE _ _ _ _ _ Hft). cbn [fst].
    unfold reportTextOp, getTextDirection.
    destruct (containsArabic t).
    + eexists [_; _; _], ft, _. split.
      2:{ rewrite adjustedAlign_table. reflexivity. }
      repeat constructor.
    + eexists [_; _; _], ft, x. split.
      2:{ destruct (dflt (align o) Center); reflexivity. }
      repeat constructor.
  - rewrite (receipt_addText_run HE _ _ _ _ _ Hft). cbn [fst].
    unfold receiptTextOp, getTextDirection.
    destruct (containsArabic t).
    + eexists [_; _; _], ft. split.
      2:{ rewrite adjustedAlign_table. reflexivity. }
      repeat constructor.
    + eexists [_; _; _], ft. split.
      2:{ destruct (dflt (align o) Left); reflexivity. }
      repeat constructor.
  - repeat split. intro a. destruct a; reflexivity.
Qed.

(** The report title, requested left, is passed right-aligned. *)
Lemma C5_alignment_adjusted_for_direction_witness :
  exists pre ft x',
    Forall (fun op => styleOp op = true) pre /\
    fst (Report.addText Sample.env (Report.txtTitle Report.getEnglishText)
           20 30
           {| align := Some Left; maxWidth := Some 40; fontSize := None;
              fontStyle := None; color := None |}
           (Report.initialState Sample.env))
    = emitAll (Report.initialState Sample.env)
        (pre ++ [Text ft x' 30 (Some Right)]).
Proof.
  destruct (@C5_alignment_adjusted_for_direction Sample.env
              (Report.txtTitle Report.getEnglishText) 20 30
              {| align := Some Left; maxWidth := Some 40; fontSize := None;
                 fontStyle := None; color := None |}
              (Report.initialState Sample.env) sample_tame)
    as (_ & Hreport & _).
  exact Hreport.
Defined.

(** C6: the lines of the payment section, which come last before the
    footer, are the heading, the total line (always), the payment type when
    there is one, and for each of advance payment, balance payment and
    discount a line exactly when the field is present and [parseFloat] of it
    is above zero; that line is the label, ["OMR "] and the stored string
    as it is.  ["0.000"] gives no line, ["12.500"] gives "OMR 12.500". *)
Theorem C6_payment_lines E order :
  Tame E ->
  (exists doc,
      Receipt.generateOrderReceiptPDF E order = Ok doc /\
      textsOf doc
      = ((if Receipt.imagePlaced E then [] else [str "RECEIPT"])
         ++ Spec.receiptHeaderLines order
         ++ Spec.customerLines order
         ++ [ str "Order Details:";
              shownText E (Spec.orNA (orderDetails order))
                        (Some (Receipt.pageW E - 2 * Receipt.margin)) ]
         ++ Spec.deliveryLines order)
        ++ ([ str "Payment Information:";
              str "Total Amount: OMR "
                  ++ orElse (totalPayment order) (str "0.000") ]
            ++ match paymentType order with
               | Some (c :: s) => [str "Payment Type: " ++ toUpperCase E (c :: s)]
               | _ => []
               end
            ++ Spec.amountLine (str "Advance Payment") (advancePayment order)
            ++ Spec.amountLine (str "Balance Payment") (balancePayment order)
            ++ Spec.amountLine (str "Discount") (discount order))
        ++ [str "Thank you for your order!"]) /\
  (forall label v,
      (exists s, v = Some s /\ gtZero (parseFloat s) = true
                 /\ Spec.amountLine label v = [label ++ str ": OMR " ++ s])
      \/ ((forall s, v = Some s -> gtZero (parseFloat s) = false)
          /\ Spec.amountLine label v = [])) /\
  Spec.amountLine (str "Advance Payment") (Some (str "0.000")) = [] /\
  Spec.amountLine (str "Advance Payment") (Some (str "12.500"))
  = [str "Advance Payment: OMR 12.500"].
Proof.
  intro HE. split; [|split; [|split; reflexivity]].
  - destruct (generateOrderReceiptPDF_lines HE order) as (doc & Hdoc & Hlines).
    exists doc. split; [exact Hdoc|]. rewrite Hlines.
    unfold receiptLines, Spec.paymentLines, Spec.footerLines.
    rewrite <- !app_assoc. reflexivity.
  - intros label v. unfold Spec.amountLine. destruct v as [s|].
    + destruct (gtZero (parseFloat s)) eqn:Hpos.
      * left. exists s. repeat split. exact Hpos.
      * right. split; [|reflexivity]. intros s' Hs'. congruence.
    + right. split; [|reflexivity]. intros s' Hs'. discriminate.
Qed.

(** [Sample.order1] has advance and balance "12.500" and discount "0.000":
    two amount lines, no discount line. *)
Lemma C6_payment_lines_witness :
  exists doc,
    Receipt.generateOrderReceiptPDF Sample.env Sample.order1 = Ok doc /\
    exists before,
      textsOf doc
      = before
        ++ [ str "Payment Information:";
             str "Total Amount: OMR 25.000";
             str "Payment Type: CASH";
             str "Advance Payment: OMR 12.500";
             str "Balance Payment: OMR 12.500";
             str "Thank you for your order!" ].
Proof.
  destruct (@C6_payment_lines Sample.env Sample.order1 sample_tame)
    as ((doc & Hdoc & Hlines) & _).
  exists doc. split; [exact Hdoc|].
  eexists. rewrite Hlines. reflexivity.
Defined.

(** *** The document only grows *)

Lemma grows_draws A P (m : M A) : draws P m -> grows m.
Proof. intros Hd s. destruct (Hd s) as [_ [w [Hw _]]]. exists w. exact Hw. Qed.

Lemma grows_ret A (a : A) : grows (ret a).
Proof. intro s. exists []. symmetry. apply app_nil_r. Qed.

Lemma grows_setY y : grows (setY y).
Proof. intro s. exists []. symmetry. apply app_nil_r. Qed.

Lemma grows_incrPageNumber : grows incrPageNumber.
Proof. intro s. exists []. symmetry. apply app_nil_r. Qed.

Lemma grows_bind A B (m : M A) (k : A -> M B) :
  grows m -> (forall a, grows (k a)) -> grows (bind m k).
Proof.
  intros Hm Hk s. unfold bind. destruct (Hm s) as [w1 Hw1].
  destruct (m s) as [s1 [a|e]]; simpl in *.
  - destruct (Hk a s1) as [w2 Hw2]. exists (w1 ++ w2).
    rewrite Hw2, Hw1. symmetry. apply app_assoc.
  - exists w1. exact Hw1.
Qed.

Lemma grows_forEachFrom A B (body : B -> A -> nat -> M B) xs :
  (forall acc x i, grows (body acc x i)) ->
  forall i acc, grows (forEachFrom body i xs acc).
Proof.
  intro Hb. induction xs as [|x xs IH]; intros i acc; simpl.
  - apply grows_ret.
  - apply grows_bind; [apply Hb|]. intro acc'. apply IH.
Qed.

Ltac grow_step :=
  lazymatch goal with
  | |- grows (bind _ _) => apply grows_bind; [|intro]
  | |- grows (ret _) => apply grows_ret
  | |- grows (setY _) => apply grows_setY
  | |- grows incrPageNumber => apply grows_incrPageNumber
  | |- grows getY => apply (grows_draws (P := anyOp)), draws_getY
  | |- grows (emit _) => apply (grows_draws (P := anyOp)), draws_emit; exact I
  | |- grows (forEach _ _ _) => apply grows_forEachFrom; intros
  | |- grows (Report.drawTableHeader _ _) =>
      apply (grows_draws (P := anyOp)), draws_drawTableHeader;
      intros; exact I
  | |- grows (Report.drawTableRow _ _ _ _) =>
      apply (grows_draws (P := anyOp)), draws_drawTableRow;
      intros; exact I
  | |- grows (Report.addText _ _ _ _ _) =>
      apply (grows_draws (P := anyOp)), draws_report_addText;
      intros; exact I
  | |- grows (if ?c then _ else _) => destruct c
  | |- grows (match ?l with [] => _ | _ :: _ => _ end) => destruct l
  end.

Lemma grows_addOrdersTable E orders : grows (Report.addOrdersTable E orders).
Proof.
  unfold Report.addOrdersTable, Report.checkAndAddPage. repeat grow_step.
Qed.

(** On a tame environment every report starts with the font registration
    and the header block, whatever the options. *)
Lemma report_starts_with_header E (HE : Tame E) o :
  exists fontOps rest,
    Forall fontOp fontOps /\
    ops (fst (Report.ordersPDF E o (Report.initialState E)))
    = fontOps ++ headerBlock E ++ rest.
Proof.
  destruct (initializeArabicFonts_run E (Report.initialState E))
    as (w & Hw & Hrun).
  unfold Report.ordersPDF.
  unfold bind at 1. rewrite Hrun.
  unfold bind at 1. rewrite (addHeader_run HE).
  destruct (grows_addOrdersTable E (Report.orders o)
              {| ops := w ++ headerBlock E;
                 currentY := 15 + 15 + 10 + 10;
                 currentPageNumber := 1 |}) as [rest Hrest].
  exists w, rest. split; [exact Hw|].
  rewrite Hrest. cbn [ops]. symmetry. apply app_assoc.
Qed.

(** C7 fails on the code in its second half.  The requested language is
    ignored, so the calls issued are the same for every language; and on a
    tame environment every report starts with the same header block.  But
    the title of that block, the ['title'] entry of [getEnglishText], is an
    Arabic string: every code unit of it is in the Arabic block or a space,
    it is classified Arabic and right-to-left, and it is the first text of
    the document also when English is requested. *)
Theorem C7_language_ignored_but_title_is_arabic :
  (forall E title orders language1 language2 showSummary logoUrl,
      Report.generateOrdersPDF E
        {| Report.title := title; Report.orders := orders;
           Report.language := language1;
           Report.showSummary := showSummary; Report.logoUrl := logoUrl |}
      = Report.generateOrdersPDF E
          {| Report.title := title; Report.orders := orders;
             Report.language := language2;
             Report.showSummary := showSummary; Report.logoUrl := logoUrl |}) /\
  (forall E o, Tame E ->
      exists fontOps rest,
        Forall fontOp fontOps /\
        ops (fst (Report.ordersPDF E o (Report.initialState E)))
        = fontOps ++ headerBlock E ++ rest) /\
  (forall E,
      nth 3 (headerBlock E) AddPage
      = Text (Report.txtTitle Report.getEnglishText)
             (pageWidth E landscape / 2) 15 (Some Center)) /\
  Forall (fun c => inRange 1536 1791 c = true \/ c = 32%N)
         (Report.txtTitle Report.getEnglishText) /\
  containsArabic (Report.txtTitle Report.getEnglishText) = true /\
  getTextDirection (Report.txtTitle Report.getEnglishText) = rtl /\
  (exists doc,
      Report.generateOrdersPDF Sample.env
        (Sample.options [] (Some Report.en)) = Ok doc /\
      hd_error (textsOf doc) = Some (Report.txtTitle Report.getEnglishText)).
Proof.
  split; [reflexivity|]. split.
  { intros E o HE. apply report_starts_with_header. exact HE. }
  split; [reflexivity|]. split.
  { unfold Report.getEnglishText. cbn [Report.txtTitle].
    repeat constructor; solve [left; reflexivity | right; reflexivity]. }
  split; [reflexivity|]. split; [reflexivity|].
  eexists. split; vm_compute; reflexivity.
Qed.

(** C8, as the specification states it, fails: [addText] writes what it is
    given.  A customer name with the letter U+00E9 is in the receipt as it
    is, and so is the timestamp line of the report when the clock's time has
    the narrow no-break space U+202F; neither code unit is printable ASCII
    or Arabic. *)
Lemma C8_renderer_writes_text_as_given :
  (exists doc,
      Receipt.generateOrderReceiptPDF Sample.env Sample.orderAccent = Ok doc /\
      In (str "Name: Jos" ++ [233%N]) (textsOf doc)) /\
  Report.displayable 233 = false /\
  (exists doc,
      Report.generateOrdersPDF Sample.envNarrowSpace (Sample.options [] None)
      = Ok doc /\
      In (str "Generated on: 1/15/2024 10:30:00" ++ [8239%N] ++ str "AM")
         (textsOf doc)) /\
  Report.displayable 8239 = false.
Proof.
  split.
  { eexists. split; [vm_compute; reflexivity|].
    apply In_eqb. vm_compute. reflexivity. }
  split; [reflexivity|]. split; [|reflexivity].
  eexists. split; [vm_compute; reflexivity|].
  apply In_eqb. vm_compute. reflexivity.
Qed.

(** C8 (amended): the sanitization is done by the table layer of the
    report, not by the text renderer.  Every cell text handed to [addText]
    has had each code unit outside U+0020-U+007E and U+0600-U+06FF replaced
    by a space and was then trimmed, so it holds displayable code units
    only; and, [splitTextToSize] returning pieces of its input, so does
    every text that a table row writes, on every path of [addText]. *)
Theorem C8_table_cells_are_cleaned E order startY isAlternate s :
  SplitSound E ->
  (forall key,
      Report.cellData order key
      = trim (map (fun c => if Report.displayable c then c else 32%N)
                  (Report.truncateCell (Report.cellValue order key)))
      /\ Forall (fun c => Report.displayable c = true)
                (Report.cellData order key)) /\
  exists w,
    ops (fst (Report.drawTableRow E order startY isAlternate s)) = ops s ++ w /\
    Forall cleanText w.
Proof.
  intro Hsound. split.
  - intro key. split; [reflexivity|apply cleanCell_displayable].
  - assert (Hd : draws cleanText
                   (Report.drawTableRow E order startY isAlternate)).
    { apply draws_drawTableRow.
      - intros op Hop t x y a Heq. subst op. discriminate.
      - intros key w t x y a Hfrom t' x' y' a' Heq.
        inversion Heq; subst. destruct Hfrom as [Hft|Hraw].
        + eapply finalText_displayable; [exact Hsound| |exact Hft].
          apply cleanCell_displayable.
        + subst. apply cleanCell_displayable. }
    destruct (Hd s) as [_ [w [Hw Hclean]]]. exists w. split; assumption.
Qed.

(** The customer name with U+00E9 is cleaned to "Jos" before it reaches the
    renderer. *)
Lemma C8_table_cells_are_cleaned_witness :
  Report.cellData Sample.orderAccent kName = str "Jos" /\
  exists w,
    ops (fst (Report.drawTableRow Sample.env Sample.orderAccent 60 false
                (Report.initialState Sample.env)))
    = ops (Report.initialState Sample.env) ++ w /\
    Forall cleanText w.
Proof.
  split; [vm_compute; reflexivity|].
  exact (proj2 (@C8_table_cells_are_cleaned Sample.env Sample.orderAccent 60
                  false (Report.initialState Sample.env) sample_split_sound)).
Defined.

Lemma wt_receipt_body E (HE : Tame E) order :
  writesTexts
    (Receipt.receiptHeader E order ;;
     Receipt.customerInformation E order ;;
     Receipt.orderDetailsSection E order ;;
     Receipt.deliveryInformation E order ;;
     Receipt.paymentInformation E order ;;
     Receipt.footer E)
    (Spec.receiptHeaderLines order
     ++ Spec.customerLines order
     ++ [ str "Order Details:";
          shownText E (Spec.orNA (orderDetails order))
                    (Some (Receipt.pageW E - 2 * Receipt.margin)) ]
     ++ Spec.deliveryLines order
     ++ Spec.paymentLines E order
     ++ Spec.footerLines).
Proof.
  eapply wt_bind; [apply (wt_receiptHeader HE)|intros _].
  eapply wt_bind; [apply (wt_customerInformation HE)|intros _].
  eapply wt_bind; [apply (wt_orderDetailsSection HE)|intros _].
  eapply wt_bind; [apply (wt_deliveryInformation HE)|intros _].
  eapply wt_bind; [apply (wt_paymentInformation HE)|intros _].
  apply (wt_footer HE).
Qed.

(** C9: when the header image cannot be loaded, or jsPDF rejects it, no
    exception of the image step leaves [generateOrderReceiptPDF]: in any
    environment the only exceptions that can escape are those of drawing a
    text; and where texts can be drawn the receipt is produced and starts,
    after the font registration, with the title "RECEIPT" in bold
    helvetica, centered at mid page width. *)
Theorem C9_image_failure_falls_back E order :
  (loadImage E (str "/assets/images/invoice header.png") = None
   \/ exists data,
        loadImage E (str "/assets/images/invoice header.png") = Some data
        /\ addImageThrows E data = true) ->
  (forall e, Receipt.generateOrderReceiptPDF E order = Throw e ->
             e = TextError \/ e = FontError) /\
  (Tame E ->
   exists doc fontOps rest,
     Receipt.generateOrderReceiptPDF E order = Ok doc /\
     Forall fontOp fontOps /\
     doc = fontOps
           ++ [ SetFontSize 20;
                SetFont (str "helvetica") Bold;
                SetTextColor (0, 0, 0)%N;
                Text (str "RECEIPT") (pageWidth E portrait / 2) 15 (Some Center) ]
           ++ rest /\
     hd_error (textsOf doc) = Some (str "RECEIPT")).
Proof.
  intro Hfail.
  assert (Himg : Receipt.imagePlaced E = false).
  { unfold Receipt.imagePlaced.
    destruct Hfail as [Hnone|(data & Hsome & Hthrows)].
    - rewrite Hnone. reflexivity.
    - rewrite Hsome, Hthrows. reflexivity. }
  split.
  - intros e. unfold Receipt.generateOrderReceiptPDF.
    destruct (Receipt.receiptPDF E order Receipt.initialState)
      as [s' [u|e']] eqn:Hrun; intro H; inversion H; subst.
    exact (raises_receiptPDF E order _ Hrun).
  - intro HE.
    destruct (initializeArabicFonts_run E Receipt.initialState)
      as (w & Hw & Hinit).
    destruct (fontOps_plain Hw) as (Hw1 & _ & _).
    pose (s1 := {| ops := w ++ fallbackTitle E 15;
                   currentY := 15 + 15;
                   currentPageNumber := 1 |}).
    destruct (wt_receipt_body HE order s1)
      as (s2 & u & rest & Hbody & Hops & _).
    exists (ops s2), w, rest.
    assert (Hrun : Receipt.receiptPDF E order Receipt.initialState = (s2, Ok u)).
    { unfold Receipt.receiptPDF.
      unfold bind at 1. rewrite Hinit.
      unfold bind at 1. rewrite (headerImage_fallback HE _ Himg).
      exact Hbody. }
    unfold Receipt.generateOrderReceiptPDF. rewrite Hrun.
    split; [reflexivity|]. split; [exact Hw|].
    rewrite Hops. subst s1. cbn [ops]. split.
    + rewrite <- app_assoc. reflexivity.
    + rewrite !textsOf_app, Hw1. reflexivity.
Qed.

(** The receipt of [Sample.order1] when the image cannot be loaded. *)
Lemma C9_image_failure_falls_back_witness :
  exists doc fontOps rest,
    Receipt.generateOrderReceiptPDF Sample.envNoImage Sample.order1 = Ok doc /\
    Forall fontOp fontOps /\
    doc = fontOps
          ++ [ SetFontSize 20;
               SetFont (str "helvetica") Bold;
               SetTextColor (0, 0, 0)%N;
               Text (str "RECEIPT") (pageWidth Sample.envNoImage portrait / 2)
                    15 (Some Center) ]
          ++ rest /\
    hd_error (textsOf doc) = Some (str "RECEIPT").
Proof.
  apply (@C9_image_failure_falls_back Sample.envNoImage Sample.order1).
  - left. reflexivity.
  - exact sample_noImage_tame.
Defined.

(** The same when the image loads but [doc.addImage] throws. *)
Example rejected_image_falls_back :
  exists doc,
    Receipt.generateOrderReceiptPDF Sample.envBadImage Sample.order1 = Ok doc /\
    hd_error (textsOf doc) = Some (str "RECEIPT") /\
    forallb (fun o => match o with AddImage _ _ _ _ _ => false | _ => true end)
            doc = true.
Proof.
  eexists. split; [vm_compute; reflexivity|].
  split; vm_compute; reflexivity.
Qed.





(* ===================================================================== *)
(** ** Further properties of the code *)
(* ===================================================================== *)

(** *** Graceful degradation *)

Lemma raises_forEachFrom C A B (body : B -> A -> nat -> M B) xs :
  (forall acc x i, raises C (body acc x i)) ->
  forall i acc, raises C (forEachFrom body i xs acc).
Proof.
  intro Hb. induction xs as [|x xs IH]; intros i acc; simpl.
  - apply raises_ret.
  - apply raises_bind; [apply Hb|]. intro acc'. apply IH.
Qed.

Lemma raises_setColor C c type : raises C (Report.setColor c type).
Proof. destruct type; apply raises_emit. Qed.

Lemma raises_incrPageNumber C : raises C incrPageNumber.
Proof. intros s s' e H. discriminate. Qed.

Section MildRuns.
Variable E : Env.
Hypothesis HM : Mild E.

Lemma calm_helvetica style : neverThrows (setFont E (str "helvetica") style).
Proof.
  unfold neverThrows, setFont. rewrite (mild_helvetica HM). apply raises_emit.
Qed.

Lemma calm_plain_text t x y : neverThrows (text E (Some t) x y None).
Proof.
  unfold neverThrows, text. rewrite (mild_text HM). apply raises_emit.
Qed.

(** The outer [catch] of [addText] cannot fail, so [addText] cannot. *)
Lemma calm_report_addText t x y o : neverThrows (Report.addText E t x y o).
Proof.
  unfold neverThrows, Report.addText.
  apply raises_bind; [apply raises_emit|intros _].
  apply raises_bind; [|intros _; apply raises_ret].
  apply raises_tryCatch. intros _.
  apply raises_bind; [apply calm_helvetica|intros _].
  apply raises_bind; [apply raises_setColor|intros _].
  apply calm_plain_text.
Qed.

Lemma calm_receipt_addText t x y o : neverThrows (Receipt.addText E t x y o).
Proof.
  unfold neverThrows, Receipt.addText.
  apply raises_bind; [apply raises_emit|intros _].
  apply raises_bind; [|intros _; apply raises_ret].
  apply raises_tryCatch. intros _.
  apply raises_bind; [apply calm_helvetica|intros _].
  apply raises_bind; [apply raises_emit|intros _].
  apply calm_plain_text.
Qed.

End MildRuns.

(** One step of a proof that a statement never throws, on a mild
    environment. *)
Ltac calm_step HM :=
  lazymatch goal with
  | |- raises _ (bind _ _) => apply raises_bind; [|intro]
  | |- raises _ (tryCatch _ _) => apply raises_tryCatch; intro
  | |- raises _ (ret _) => apply raises_ret
  | |- raises _ getY => apply raises_getY
  | |- raises _ (setY _) => apply raises_setY
  | |- raises _ incrPageNumber => apply raises_incrPageNumber
  | |- raises _ (emit _) => apply raises_emit
  | |- raises _ (when _ _) => apply raises_when
  | |- raises _ (forEach _ _ _) => apply raises_forEachFrom; intros
  | |- raises _ (Report.setColor _ _) => apply raises_setColor
  | |- raises _ (Report.addText _ _ _ _ _) => apply (calm_report_addText HM)
  | |- raises _ (Receipt.addText _ _ _ _ _) => apply (calm_receipt_addText HM)
  | |- raises _ (if ?c then _ else _) => destruct c
  | |- raises _ (match ?l with [] => _ | _ :: _ => _ end) => destruct l
  end.

Lemma calm_ordersPDF E (HM : Mild E) o : neverThrows (Report.ordersPDF E o).
Proof.
  unfold neverThrows, Report.ordersPDF, initializeArabicFonts,
    Report.addHeader, Report.addOrdersTable, Report.checkAndAddPage,
    Report.drawTableHeader, Report.drawTableRow.
  repeat calm_step HM.
Qed.

Lemma calm_receiptPDF E (HM : Mild E) order :
  neverThrows (Receipt.receiptPDF E order).
Proof.
  unfold neverThrows, Receipt.receiptPDF, initializeArabicFonts,
    Receipt.headerImage, Receipt.receiptHeader, Receipt.customerInformation,
    Receipt.orderDetailsSection, Receipt.deliveryInformation,
    Receipt.paymentInformation, Receipt.footer.
  repeat calm_step HM.
Qed.

Lemma neverThrows_returns A (m : M A) s :
  neverThrows m -> exists s' a, m s = (s', Ok a).
Proof.
  intro Hm. destruct (m s) as [s' [a|e]] eqn:Hrun.
  - exists s', a. reflexivity.
  - exfalso. exact (Hm _ _ _ Hrun).
Qed.

(** X1: the report is always produced when the last resort of [addText]
    works (helvetica can be selected and [doc.text] without options accepts
    the text): no failure to register or select the Arabic font, no failure
    of an aligned [doc.text] and no odd answer of [splitTextToSize] stops
    [generateOrdersPDF], whatever the orders. *)
Theorem X1_report_degrades_gracefully E o :
  Mild E -> exists doc, Report.generateOrdersPDF E o = Ok doc.
Proof.
  intro HM.
  destruct (neverThrows_returns (Report.initialState E) (calm_ordersPDF HM o))
    as (s' & a & Hrun).
  exists (ops s'). unfold Report.generateOrdersPDF. rewrite Hrun. reflexivity.
Qed.

Lemma harsh_mild : Mild Harsh.env.
Proof. split; reflexivity. Qed.

(** In the harsh environment the two orders are still reported, each text
    written by the last resort: unaligned and uncut. *)
Lemma X1_report_degrades_gracefully_witness :
  exists doc,
    Report.generateOrdersPDF Harsh.env
      (Sample.options [Sample.order1; Sample.longOrder] None) = Ok doc.
Proof.
  exact (@X1_report_degrades_gracefully Harsh.env
           (Sample.options [Sample.order1; Sample.longOrder] None) harsh_mild).
Defined.

(** X2: likewise the receipt is always produced when the last resort of
    [addText] works, also when the header image cannot be loaded or placed
    and the font cannot be registered. *)
Theorem X2_receipt_degrades_gracefully E order :
  Mild E -> exists doc, Receipt.generateOrderReceiptPDF E order = Ok doc.
Proof.
  intro HM.
  destruct (neverThrows_returns Receipt.initialState (calm_receiptPDF HM order))
    as (s' & a & Hrun).
  exists (ops s'). unfold Receipt.generateOrderReceiptPDF. rewrite Hrun.
  reflexivity.
Qed.

Lemma X2_receipt_degrades_gracefully_witness :
  exists doc, Receipt.generateOrderReceiptPDF Harsh.env Sample.longOrder = Ok doc.
Proof.
  exact (@X2_receipt_degrades_gracefully Harsh.env Sample.longOrder harsh_mild).
Defined.

(** In the harsh environment the 200 letters of order details are written
    in full: the last resort of [addText] writes the text it was given, not
    the cut one. *)
Example harsh_receipt_has_full_details :
  exists doc,
    Receipt.generateOrderReceiptPDF Harsh.env Sample.longOrder = Ok doc /\
    In (repeat 97%N 200) (textsOf doc).
Proof.
  eexists. split; [vm_compute; reflexivity|].
  apply In_eqb. vm_compute. reflexivity.
Qed.

(** *** One call of [addText], one text at most *)

Ltac split_oracles :=
  repeat match goal with
         | |- context [if ?c then _ else _] => destruct c
         end.

(** X3: in any environment a call of [addText] (report or receipt) writes
    at most one text, whichever of its three attempts succeeds, and that
    text is the one [finalText] computed or, from the last resort, the text
    it was given: a retry never writes a text twice and no call writes
    several lines. *)
Theorem X3_addText_writes_at_most_one_text E t x y o s :
  (exists w,
      ops (fst (Report.addText E t x y o s)) = ops s ++ w /\
      (textsOf w = [] \/ textsOf w = [t]
       \/ finalText E t (maxWidth o) = Some (hd t (textsOf w))
          /\ List.length (textsOf w) = 1%nat)) /\
  (exists w,
      ops (fst (Receipt.addText E t x y o s)) = ops s ++ w /\
      (textsOf w = [] \/ textsOf w = [t]
       \/ finalText E t (maxWidth o) = Some (hd t (textsOf w))
          /\ List.length (textsOf w) = 1%nat)).
Proof.
  split.
  - unfold Report.addText, bind, tryCatch, setFont, text, Report.setColor,
      emit, throw, ret.
    destruct (containsArabic t);
      destruct (finalText E t (maxWidth o)) as [ft|];
      split_oracles; cbn [fst ops];
      eexists; (split; [rewrite <- ?app_assoc; reflexivity|]);
      cbn; auto.
  - unfold Receipt.addText, bind, tryCatch, setFont, text, emit, throw, ret.
    destruct (containsArabic t);
      destruct (finalText E t (maxWidth o)) as [ft|];
      split_oracles; cbn [fst ops];
      eexists; (split; [rewrite <- ?app_assoc; reflexivity|]);
      cbn; auto.
Qed.

(** *** The text of a table cell *)

Lemma trimStart_app_keep l c r :
  isWhiteSpace c = false -> trimStart (l ++ c :: r) = trimStart l ++ c :: r.
Proof.
  intro Hc. induction l as [|a l IH]; simpl.
  - rewrite Hc. reflexivity.
  - destruct (isWhiteSpace a); [exact IH|reflexivity].
Qed.

Lemma trimStart_head s :
  match trimStart s with
  | c :: _ => isWhiteSpace c = false
  | [] => True
  end.
Proof.
  induction s as [|a s IH]; simpl; [exact I|].
  destruct (isWhiteSpace a) eqn:Ha; [exact IH|exact Ha].
Qed.

Lemma trimStart_idem s : trimStart (trimStart s) = trimStart s.
Proof.
  pose proof (trimStart_head s) as H.
  destruct (trimStart s) as [|c r]; [reflexivity|].
  simpl. rewrite H. reflexivity.
Qed.

Lemma trimEnd_cons c r :
  isWhiteSpace c = false -> trimEnd (c :: r) = c :: trimEnd r.
Proof.
  intro Hc. unfold trimEnd. simpl rev at 2.
  rewrite (trimStart_app_keep (rev r) c [] Hc).
  rewrite rev_app_distr. reflexivity.
Qed.

Lemma trimEnd_idem s : trimEnd (trimEnd s) = trimEnd s.
Proof.
  unfold trimEnd. rewrite rev_involutive, trimStart_idem. reflexivity.
Qed.



Lemma trim_idem s : trim (trim s) = trim s.
Proof.
  unfold trim. pose proof (trimStart_head s) as H.
  destruct (trimStart s) as [|c r]; [reflexivity|].
  rewrite (trimEnd_cons c r H).
  rewrite trimStart_id by exact H.
  rewrite <- (trimEnd_cons c r H). apply trimEnd_idem.
Qed.

Lemma cleanCell_idem s : Report.cleanCell (Report.cleanCell s) = Report.cleanCell s.
Proof.
  unfold Report.cleanCell at 1.
  rewrite map_displayable_id by apply cleanCell_displayable.
  unfold Report.cleanCell. apply trim_idem.
Qed.

Lemma length_cellData order key :
  (List.length (Report.cellData order key) <= 30)%nat.
Proof.
  unfold Report.cellData.
  eapply Nat.le_trans; [apply length_cleanCell|].
  unfold Report.truncateCell, substring0.
  destruct (30 <? List.length (Report.cellValue order key))%nat eqn:Hlong.
  - rewrite length_app, length_firstn.
    change (List.length (str "...")) with 3%nat. lia.
  - apply Nat.ltb_ge in Hlong. exact Hlong.
Qed.


(** X5: the preparation of a cell text is idempotent: cutting and cleaning
    a text that was already prepared gives it back unchanged, so a cell text
    can go through the table (or the pipeline be applied to it) again
    without further loss. *)
Theorem X5_cell_preparation_is_idempotent order key :
  Report.cleanCell (Report.truncateCell (Report.cellData order key))
  = Report.cellData order key.
Proof.
  assert (Hshort : Report.truncateCell (Report.cellData order key)
                   = Report.cellData order key).
  { unfold Report.truncateCell.
    pose proof (length_cellData order key) as Hlen.
    destruct (30 <? List.length (Report.cellData order key))%nat eqn:Hlong;
      [|reflexivity].
    apply Nat.ltb_lt in Hlong. lia. }
  rewrite Hshort. unfold Report.cellData. apply cleanCell_idem.
Qed.

(** *** The whole table *)

Section YieldRules.
Variable X : Type.
Variable f : Op -> list X.

Lemma y_ret A (a : A) : yields f (ret a) [].
Proof.
  intro s. exists s, a, []. rewrite app_nil_r. repeat split.
Qed.

Lemma y_getY : yields f getY [].
Proof.
  intro s. exists s, (currentY s), []. rewrite app_nil_r. repeat split.
Qed.

Lemma y_setY y : yields f (setY y) [].
Proof.
  intro s. eexists _, tt, []. split; [reflexivity|].
  simpl. rewrite app_nil_r. split; reflexivity.
Qed.

Lemma y_emit o : yields f (emit o) (f o).
Proof.
  intro s. eexists _, tt, [o]. split; [reflexivity|].
  split; [reflexivity|]. simpl. apply app_nil_r.
Qed.

Lemma y_emit_as o xs : f o = xs -> yields f (emit o) xs.
Proof. intro H. subst xs. apply y_emit. Qed.

Lemma y_bind A B (m : M A) (k : A -> M B) xs1 xs2 :
  yields f m xs1 -> (forall a, yields f (k a) xs2) ->
  yields f (bind m k) (xs1 ++ xs2).
Proof.
  intros Hm Hk s. destruct (Hm s) as (s1 & a & w1 & Hrun1 & Hops1 & Ht1).
  destruct (Hk a s1) as (s2 & b & w2 & Hrun2 & Hops2 & Ht2).
  exists s2, b, (w1 ++ w2). unfold bind. rewrite Hrun1. split; [exact Hrun2|].
  split.
  - rewrite Hops2, Hops1. symmetry. apply app_assoc.
  - rewrite flat_map_app. congruence.
Qed.

Lemma y_when c (m : M unit) xs :
  yields f m xs -> yields f (when c m) (if c then xs else []).
Proof. intro Hm. destruct c; [exact Hm|apply y_ret]. Qed.

Lemma y_conv A (m : M A) xs xs' : yields f m xs -> xs = xs' -> yields f m xs'.
Proof. intros H Heq. subst xs'. exact H. Qed.

Lemma y_forEachFrom A B (body : B -> A -> nat -> M B) (g : A -> list X) xs :
  (forall acc x i, yields f (body acc x i) (g x)) ->
  forall i acc, yields f (forEachFrom body i xs acc) (flat_map g xs).
Proof.
  intro Hb. induction xs as [|x xs IH]; intros i acc; simpl.
  - apply y_ret.
  - apply y_bind; [apply Hb|]. intro acc'. apply IH.
Qed.

End YieldRules.

Lemma y_rect_addText E (HE : Tame E) t x y o :
  yields rectMark (Report.addText E t x y o) [].
Proof.
  intro s. destruct (finalText_defined HE t (maxWidth o)) as [ft Hft].
  rewrite (report_addText_run HE _ _ _ _ _ Hft).
  eexists _, _, _. split; [reflexivity|]. split; [reflexivity|].
  unfold reportTextOp. destruct (containsArabic t); reflexivity.
Qed.

Ltac y_rect_step HE :=
  lazymatch goal with
  | |- yields _ (bind _ _) _ => eapply y_bind; [|intro]
  | |- yields _ (ret _) _ => apply y_ret
  | |- yields _ getY _ => apply y_getY
  | |- yields _ (setY _) _ => apply y_setY
  | |- yields _ (emit _) _ => eapply y_emit_as; cbn; reflexivity
  | |- yields _ (when _ _) _ => eapply y_when
  | |- yields _ (Report.addText _ _ _ _ _) _ => apply (y_rect_addText HE)
  | |- yields _ (Report.setColor _ _) _ => unfold Report.setColor
  end.

Lemma y_rect_drawTableRow E (HE : Tame E) order startY isAlternate :
  yields rectMark (Report.drawTableRow E order startY isAlternate)
         (if isAlternate then [tt] else []).
Proof.
  unfold Report.drawTableRow. eapply y_conv.
  - repeat y_rect_step HE. unfold forEach.
    apply y_forEachFrom with (g := fun _ : Report.TableColumn => @nil unit).
    intros acc col i. eapply y_conv; [repeat y_rect_step HE|]. reflexivity.
  - destruct isAlternate; reflexivity.
Qed.

Lemma y_rect_drawTableHeader E (HE : Tame E) startY :
  yields rectMark (Report.drawTableHeader E startY) [tt].
Proof.
  unfold Report.drawTableHeader. eapply y_conv.
  - repeat y_rect_step HE. unfold forEach.
    apply y_forEachFrom with (g := fun _ : Report.TableColumn => @nil unit).
    intros acc col i. eapply y_conv; [repeat y_rect_step HE|]. reflexivity.
  - reflexivity.
Qed.

Lemma wt_drawTableHeader E (HE : Tame E) startY :
  writesTexts (Report.drawTableHeader E startY) (headerTexts E).
Proof.
  unfold Report.drawTableHeader. eapply wt_conv.
  - repeat wt_step HE. unfold forEach.
    apply wt_forEachFrom with
      (f := fun col => [shownText E (Report.header col)
                                  (Some (Report.width col - 4))]).
    intros acc col i. eapply wt_conv; [repeat wt_step HE|]. reflexivity.
  - reflexivity.
Qed.

Lemma yields_keeps_cursor X (f : Op -> list X) A P (m : M A) xs s :
  yields f m xs -> draws P m ->
  exists s' a w,
    m s = (s', Ok a) /\ ops s' = ops s ++ w /\ flat_map f w = xs
    /\ currentY s' = currentY s.
Proof.
  intros Hy Hd. destruct (Hy s) as (s' & a & w & Hrun & Hops & Hf).
  exists s', a, w. repeat split; try assumption.
  destruct (Hd s) as [Hcur _]. rewrite Hrun in Hcur. exact Hcur.
Qed.

Lemma ro_ret A (a : A) : returnsOnly (ret a) a.
Proof. intros s s' b H. inversion H. reflexivity. Qed.

Lemma ro_bind A B (m : M A) (k : A -> M B) b :
  (forall a, returnsOnly (k a) b) -> returnsOnly (bind m k) b.
Proof.
  intros Hk s s' b' H. unfold bind in H.
  destruct (m s) as [s1 [a|e]]; [|discriminate]. exact (Hk a s1 s' b' H).
Qed.

Lemma drawTableRow_returns E order startY isAlternate :
  returnsOnly (Report.drawTableRow E order startY isAlternate)
              (startY + Report.rowHeight).
Proof.
  unfold Report.drawTableRow. repeat (apply ro_bind; intro). apply ro_ret.
Qed.

Lemma drawTableHeader_returns E startY :
  returnsOnly (Report.drawTableHeader E startY) (startY + Report.headerHeight).
Proof.
  unfold Report.drawTableHeader. repeat (apply ro_bind; intro). apply ro_ret.
Qed.

Section TableRun.
Variable E : Env.
Variable X : Type.
Variable f : Op -> list X.
Variable g : OrderWithStatus -> Q -> bool -> list X.
Variable h : Q -> list X.
Hypothesis Hrow :
  forall order y alt,
    yields f (Report.drawTableRow E order y alt) (g order y alt).
Hypothesis Hhead : forall y, yields f (Report.drawTableHeader E y) (h y).

Lemma rows_run orders : forall index tableY s,
  Qgtb (currentY s + (Report.rowHeight + 5)) (pageLimit E) = false ->
  exists s' y w,
    forEachFrom
      (fun tableY order index =>
         added <- Report.checkAndAddPage E (Report.rowHeight + 5) ;;
         tableY <- (if added
                    then (y <- getY ;; Report.drawTableHeader E y)
                    else ret tableY) ;;
         Report.drawTableRow E order tableY (Nat.odd index))
      index orders tableY s = (s', Ok y)
    /\ ops s' = ops s ++ w
    /\ flat_map f w = rowsFrom g index tableY orders
    /\ currentY s' = currentY s.
Proof.
  induction orders as [|order rest IH]; intros index tableY s Hfit.
  - exists s, tableY, []. rewrite app_nil_r. repeat split.
  - simpl forEachFrom. unfold bind at 1. unfold bind at 1.
    rewrite (checkAndAddPage_fits _ _ _ Hfit). unfold bind at 1.
    unfold ret at 1.
    destruct (yields_keeps_cursor s (Hrow order tableY (Nat.odd index))
                (draws_row_pages E order tableY (Nat.odd index)))
      as (s1 & y1 & w1 & Hrun1 & Hops1 & Hf1 & Hcur1).
    rewrite Hrun1.
    rewrite <- Hcur1 in Hfit.
    pose proof (@drawTableRow_returns _ _ _ _ _ _ _ Hrun1) as Hy1. subst y1.
    destruct (IH (S index) (tableY + Report.rowHeight) s1 Hfit) as (s2 & y2 & w2 & Hrun2 & Hops2 & Hf2 & Hcur2).
    exists s2, y2, (w1 ++ w2). split; [exact Hrun2|]. split; [|split].
    + rewrite Hops2, Hops1. symmetry. apply app_assoc.
    + rewrite flat_map_app, Hf1, Hf2. reflexivity.
    + congruence.
Qed.

Lemma table_run order rest s :
  Qgtb (currentY s + (Report.headerHeight + Report.rowHeight * 3)) (pageLimit E) = false ->
  Qgtb (currentY s + (Report.rowHeight + 5)) (pageLimit E) = false ->
  exists s' w,
    Report.addOrdersTable E (order :: rest) s = (s', Ok tt)
    /\ ops s' = ops s ++ w
    /\ flat_map f w
       = h (currentY s)
         ++ rowsFrom g 0 (currentY s + Report.headerHeight) (order :: rest).
Proof.
  intros Hfit1 Hfit2. unfold Report.addOrdersTable.
  unfold bind at 1. unfold getY at 1.
  unfold bind at 1. rewrite (checkAndAddPage_fits _ _ _ Hfit1).
  unfold bind at 1. unfold ret at 1.
  unfold bind at 1.
  destruct (yields_keeps_cursor s (Hhead (currentY s))
              (draws_header_pages E (currentY s)))
    as (s1 & y1 & w1 & Hrun1 & Hops1 & Hf1 & Hcur1).
  rewrite Hrun1. unfold bind at 1. unfold forEach.
  rewrite <- Hcur1 in Hfit2.
  pose proof (@drawTableHeader_returns _ _ _ _ _ Hrun1) as Hy1. subst y1.
  destruct (rows_run (order :: rest) 0 (currentY s + Report.headerHeight)
              s1 Hfit2)
    as (s2 & y2 & w2 & Hrun2 & Hops2 & Hf2 & Hcur2).
  rewrite Hrun2. unfold setY.
  eexists _, (w1 ++ w2). split; [reflexivity|]. cbn [ops]. split.
  - rewrite Hops2, Hops1. symmetry. apply app_assoc.
  - rewrite flat_map_app, Hf1, Hf2. reflexivity.
Qed.

Hypothesis HE : Tame E.
Hypothesis Htall : 109 <= pageHeight E landscape.

Lemma report_run o order rest :
  Report.orders o = order :: rest ->
  exists doc fontOps w,
    Report.generateOrdersPDF E o = Ok doc
    /\ Forall fontOp fontOps
    /\ doc = fontOps ++ headerBlock E ++ w
    /\ flat_map f w
       = h (15 + 15 + 10 + 10)
         ++ rowsFrom g 0 (15 + 15 + 10 + 10 + Report.headerHeight)
              (order :: rest).
Proof.
  intro Horders.
  destruct (initializeArabicFonts_run E (Report.initialState E))
    as (w0 & Hw0 & Hinit).
  assert (Hlim : 84 <= pageLimit E).
  { unfold pageLimit. cbn. lra. }
  destruct (@table_run order rest
              {| ops := w0 ++ headerBlock E;
                 currentY := 15 + 15 + 10 + 10;
                 currentPageNumber := 1 |})
    as (s' & w & Hrun & Hops & Hf).
  { apply Qgtb_false_le with (a := 84); [exact Hlim|].
    unfold Report.headerHeight, Report.rowHeight. cbn [currentY]. lra. }
  { apply Qgtb_false_le with (a := 84); [exact Hlim|].
    unfold Report.rowHeight. cbn [currentY]. lra. }
  exists (ops s'), w0, w.
  unfold Report.generateOrdersPDF, Report.ordersPDF.
  unfold bind at 1. rewrite Hinit.
  unfold bind at 1. rewrite (addHeader_run HE).
  rewrite Horders, Hrun.
  split; [reflexivity|]. split; [exact Hw0|]. split; [|exact Hf].
  rewrite Hops. cbn [ops]. symmetry. apply app_assoc.
Qed.

End TableRun.

Lemma rowsFrom_texts E orders : forall index y,
  rowsFrom (fun order (_ : Q) (_ : bool) => rowTexts E order) index y orders
  = flat_map (rowTexts E) orders.
Proof.
  induction orders as [|order rest IH]; intros index y; simpl;
    [reflexivity|]. rewrite IH. reflexivity.
Qed.

Lemma textsOf_headerBlock E :
  textsOf (headerBlock E)
  = [ Report.txtTitle Report.getEnglishText;
      str "Generated on: " ++ dateTimeStr E ].
Proof.
  unfold headerBlock, reportTextOp. destruct (containsArabic _); reflexivity.
Qed.

(** X6: where texts can be drawn and the sheet is at least 109mm high, the
    report of a non-empty list of orders is produced and its texts are the
    title and the timestamp line, then the seven column headers once, then
    for each order, in the order given, its seven cells in column order: no
    order is dropped, repeated or moved, and the document holds 9 + 7N
    texts. *)
Theorem X6_report_lists_every_order_in_order E o :
  Tame E ->
  109 <= pageHeight E landscape ->
  Report.orders o <> [] ->
  exists doc,
    Report.generateOrdersPDF E o = Ok doc /\
    textsOf doc
    = [ Report.txtTitle Report.getEnglishText;
        str "Generated on: " ++ dateTimeStr E ]
      ++ headerTexts E
      ++ flat_map (rowTexts E) (Report.orders o) /\
    List.length (textsOf doc) = (9 + 7 * List.length (Report.orders o))%nat.
Proof.
  intros HE Htall Hne.
  destruct (Report.orders o) as [|order rest] eqn:Horders; [congruence|].
  destruct (@report_run E _ textOf (fun order _ _ => rowTexts E order)
              (fun _ => headerTexts E)
              (fun order y alt => wt_drawTableRow HE order y alt)
              (fun y => wt_drawTableHeader HE y)
              HE Htall o order rest Horders)
    as (doc & w0 & w & Hdoc & Hw0 & Heq & Hf).
  exists doc. split; [exact Hdoc|].
  assert (Htexts : textsOf doc
                   = [ Report.txtTitle Report.getEnglishText;
                       str "Generated on: " ++ dateTimeStr E ]
                     ++ headerTexts E ++ flat_map (rowTexts E) (order :: rest)).
  { rewrite Heq, !textsOf_app. destruct (fontOps_plain Hw0) as (Hw1 & _).
    rewrite Hw1, textsOf_headerBlock.
    change (textsOf w) with (flat_map textOf w).
    rewrite Hf, rowsFrom_texts. reflexivity. }
  split; [exact Htexts|]. rewrite Htexts.
  rewrite !length_app. change (List.length (headerTexts E)) with 7%nat.
  assert (Hrows : forall l, List.length (flat_map (rowTexts E) l)
                            = (7 * List.length l)%nat).
  { induction l as [|a l IH]; [reflexivity|].
    change (flat_map (rowTexts E) (a :: l))
      with (rowTexts E a ++ flat_map (rowTexts E) l).
    rewrite length_app, IH.
    change (List.length (rowTexts E a)) with 7%nat. simpl List.length. lia. }
  rewrite Hrows. simpl List.length. lia.
Qed.

(** Three orders on the A4 sheet: 30 texts. *)
Lemma X6_report_lists_every_order_in_order_witness :
  exists doc,
    Report.generateOrdersPDF Sample.env
      (Sample.options [Sample.order1; Sample.order40; Sample.orderAccent] None)
    = Ok doc /\
    List.length (textsOf doc) = 30%nat.
Proof.
  destruct (@X6_report_lists_every_order_in_order Sample.env
              (Sample.options
                 [Sample.order1; Sample.order40; Sample.orderAccent] None)
              sample_tame)
    as (doc & Hdoc & _ & Hlen).
  - unfold Qle. simpl. lia.
  - discriminate.
  - exists doc. split; [exact Hdoc|exact Hlen].
Defined.

Lemma length_rowsFrom_marks orders : forall index y,
  List.length (rowsFrom (fun (_ : OrderWithStatus) (_ : Q) (alt : bool) =>
                           if alt then [tt] else []) index y orders)
  = Nat.div2 (List.length orders + Nat.b2n (Nat.odd index)).
Proof.
  induction orders as [|order rest IH]; intros index y.
  - simpl. destruct (Nat.odd index); reflexivity.
  - simpl rowsFrom. rewrite length_app, IH, Nat.odd_succ, <- Nat.negb_odd.
    destruct (Nat.odd index); simpl.
    + rewrite Nat.add_0_r, Nat.add_1_r. reflexivity.
    + rewrite Nat.add_0_r, Nat.add_1_r. reflexivity.
Qed.

Lemma length_rectMarks l :
  List.length (flat_map rectMark l) = List.length (filter isRect l).
Proof.
  induction l as [|o l IH]; [reflexivity|].
  destruct o; simpl; try exact IH. rewrite IH. reflexivity.
Qed.

(** X7: rows are shaded by the parity of their index and by nothing else:
    where texts can be drawn and the sheet is at least 109mm high, the
    report of N >= 1 orders has exactly 1 + N/2 filled rectangles, the
    background of the table header and that of each second row. *)
Theorem X7_every_second_row_is_shaded E o :
  Tame E ->
  109 <= pageHeight E landscape ->
  Report.orders o <> [] ->
  exists doc,
    Report.generateOrdersPDF E o = Ok doc /\
    List.length (filter isRect doc)
    = S (Nat.div2 (List.length (Report.orders o))).
Proof.
  intros HE Htall Hne.
  destruct (Report.orders o) as [|order rest] eqn:Horders; [congruence|].
  destruct (@report_run E _ rectMark
              (fun _ _ alt => if alt then [tt] else []) (fun _ => [tt])
              (fun order y alt => y_rect_drawTableRow HE order y alt)
              (fun y => y_rect_drawTableHeader HE y)
              HE Htall o order rest Horders)
    as (doc & w0 & w & Hdoc & Hw0 & Heq & Hf).
  exists doc. split; [exact Hdoc|].
  rewrite <- length_rectMarks, Heq, !flat_map_app, !length_app, Hf.
  rewrite length_app, length_rowsFrom_marks.
  assert (H0 : List.length (flat_map rectMark w0) = 0%nat).
  { clear - Hw0. induction Hw0 as [|op l Hop _ IH]; [reflexivity|].
    destruct op; try contradiction; exact IH. }
  assert (H1 : List.length (flat_map rectMark (headerBlock E)) = 0%nat).
  { unfold headerBlock, reportTextOp. destruct (containsArabic _); reflexivity. }
  rewrite H0, H1. simpl Nat.b2n. rewrite Nat.add_0_r. reflexivity.
Qed.

(** Five orders: the header and rows 1 and 3. *)
Lemma X7_every_second_row_is_shaded_witness :
  exists doc,
    Report.generateOrdersPDF Sample.env
      (Sample.options (repeat Sample.order1 5) None) = Ok doc /\
    List.length (filter isRect doc) = 3%nat.
Proof.
  destruct (@X7_every_second_row_is_shaded Sample.env
              (Sample.options (repeat Sample.order1 5) None) sample_tame)
    as (doc & Hdoc & Hcount).
  - unfold Qle. simpl. lia.
  - discriminate.
  - exists doc. split; [exact Hdoc|exact Hcount].
Defined.

(** *** Arabic cells *)



(** *** File names *)


(** 45 is neither a letter, a digit nor white space. *)
Lemma alnum_not_hyphen c :
  Receipt.isAlphaNum c || isWhiteSpace c = true -> (c =? 45)%N = false.
Proof.
  intros Hc. destruct (c =? 45)%N eqn:Heq; [|reflexivity].
  apply N.eqb_eq in Heq. subst c. discriminate.
Qed.

Lemma double_hyphen_skip_first a r :
  (a =? 45)%N = false -> hasDoubleHyphen (a :: r) = hasDoubleHyphen r.
Proof.
  intro Ha. destruct r as [|b l]; [reflexivity|].
  change (hasDoubleHyphen (a :: b :: l))
    with (((a =? 45) && (b =? 45))%N || hasDoubleHyphen (b :: l)).
  rewrite Ha. reflexivity.
Qed.

Lemma double_hyphen_skip_second a r :
  match r with
  | b :: _ => (b =? 45)%N = false
  | [] => True
  end ->
  hasDoubleHyphen (a :: r) = hasDoubleHyphen r.
Proof.
  destruct r as [|b l]; intro Hb; [reflexivity|].
  change (hasDoubleHyphen (a :: b :: l))
    with (((a =? 45) && (b =? 45))%N || hasDoubleHyphen (b :: l)).
  rewrite Hb, andb_false_r. reflexivity.
Qed.

Lemma hyphenateFrom_no_double s :
  Forall (fun c => Receipt.isAlphaNum c || isWhiteSpace c = true) s ->
  hasDoubleHyphen (Receipt.hyphenateFrom false s) = false
  /\ hasDoubleHyphen (Receipt.hyphenateFrom true s) = false
  /\ match Receipt.hyphenateFrom true s with
     | a :: _ => (a =? 45)%N = false
     | [] => True
     end.
Proof.
  induction 1 as [|c r Hc Hr (IH1 & IH2 & IH3)]; [repeat split|].
  pose proof (alnum_not_hyphen c Hc) as Hne.
  simpl Receipt.hyphenateFrom. destruct (isWhiteSpace c) eqn:Hws.
  - split; [|split; assumption].
    rewrite double_hyphen_skip_second by exact IH3. exact IH2.
  - rewrite double_hyphen_skip_first by exact Hne.
    split; [exact IH1|]. split; [exact IH1|exact Hne].
Qed.

Lemma hyphenate_blank s :
  Forall (fun c => isWhiteSpace c = true) s ->
  Receipt.hyphenateFrom true s = []
  /\ Receipt.hyphenateFrom false s = match s with [] => [] | _ :: _ => [45%N] end.
Proof.
  induction 1 as [|c r Hc Hr (IH1 & IH2)]; [split; reflexivity|].
  simpl. rewrite Hc, IH1. split; reflexivity.
Qed.



Section ReportFileName.
Variable toLowerCase : jsstring -> jsstring.
Variable timestamp : jsstring.

Lemma stripTitle_units s :
  Forall (fun c => Download.isLowerAlphaNum c || isWhiteSpace c = true)
         (Download.stripTitle s).
Proof.
  unfold Download.stripTitle. apply Forall_forall. intros c Hc.
  apply filter_In in Hc. apply Hc.
Qed.

Lemma lower_is_alnum c :
  Download.isLowerAlphaNum c || isWhiteSpace c = true ->
  Receipt.isAlphaNum c || isWhiteSpace c = true.
Proof.
  unfold Download.isLowerAlphaNum, Receipt.isAlphaNum.
  destruct (inRange 97 122 c), (inRange 48 57 c), (inRange 65 90 c),
    (isWhiteSpace c); simpl; congruence.
Qed.

(** A lower-case letter or digit of ASCII, or a hyphen. *)
Lemma sanitizedTitle_lower title :
  Forall (fun c => Download.isLowerAlphaNum c || (c =? 45)%N = true)
         (Download.sanitizedTitle toLowerCase title).
Proof.
  unfold Download.sanitizedTitle, Receipt.hyphenate.
  generalize false.
  induction (stripTitle_units (toLowerCase title)) as [|c r Hc Hr IH];
    intro inRun; simpl; [constructor|].
  destruct (isWhiteSpace c) eqn:Hws.
  - destruct inRun; [apply IH|]. constructor; [|apply IH].
    apply orb_true_r.
  - constructor; [|apply IH].
    rewrite orb_false_r in Hc. rewrite Hc. reflexivity.
Qed.

End ReportFileName.

(** X10: the file name of a report is the sanitized title, a hyphen, the
    date and ".pdf"; the sanitized title holds only lower-case ASCII
    letters, digits and hyphens, never two hyphens in a row; and a title
    whose lower-cased form has no ASCII letter or digit (an Arabic title,
    say) leaves nothing of itself but at most one hyphen. *)
Theorem X10_report_file_name_is_sanitized toLowerCase timestamp title :
  Download.reportFileName toLowerCase timestamp title
  = Download.sanitizedTitle toLowerCase title
    ++ str "-" ++ timestamp ++ str ".pdf" /\
  Forall (fun c => Download.isLowerAlphaNum c || (c =? 45)%N = true)
         (Download.sanitizedTitle toLowerCase title) /\
  hasDoubleHyphen (Download.sanitizedTitle toLowerCase title) = false /\
  (forallb (fun c => negb (Download.isLowerAlphaNum c)) (toLowerCase title) = true ->
   Download.sanitizedTitle toLowerCase title = []
   \/ Download.sanitizedTitle toLowerCase title = str "-").
Proof.
  split; [reflexivity|]. split; [apply sanitizedTitle_lower|]. split.
  - unfold Download.sanitizedTitle, Receipt.hyphenate.
    apply hyphenateFrom_no_double.
    eapply Forall_impl; [|apply stripTitle_units].
    intros c Hc. apply lower_is_alnum, Hc.
  - intro Hnone. unfold Download.sanitizedTitle, Receipt.hyphenate.
    assert (Hblank : Forall (fun c => isWhiteSpace c = true)
                       (Download.stripTitle (toLowerCase title))).
    { unfold Download.stripTitle. apply Forall_forall. intros c Hc.
      apply filter_In in Hc. destruct Hc as [Hin Hkeep].
      rewrite forallb_forall in Hnone. specialize (Hnone c Hin).
      destruct (Download.isLowerAlphaNum c); [discriminate|exact Hkeep]. }
    destruct (hyphenate_blank Hblank) as [_ Hrun]. rewrite Hrun.
    destruct (Download.stripTitle (toLowerCase title)); [left|right]; reflexivity.
Qed.

(** "Today's Orders!" on 2024-01-15, and the Arabic title of the
    dashboard, whose two words leave one hyphen. *)
Example report_file_names :
  Download.reportFileName Harsh.asciiLower (str "2024-01-15")
    (str "Today's Orders!")
  = str "todays-orders-2024-01-15.pdf" /\
  Download.reportFileName Harsh.asciiLower (str "2024-01-15")
    (Report.txtTitle Report.getEnglishText)
  = str "--2024-01-15.pdf".
Proof. split; vm_compute; reflexivity. Qed.

(** *** Downloads *)

Lemma raises_report_addText E t x y o :
  raises drawingError (Report.addText E t x y o).
Proof.
  unfold Report.addText.
  repeat first [ apply raises_setColor | raise_step ];
    solve [left; reflexivity | right; reflexivity].
Qed.

Lemma raises_ordersPDF E o : raises drawingError (Report.ordersPDF E o).
Proof.
  unfold Report.ordersPDF, initializeArabicFonts, Report.addHeader,
    Report.addOrdersTable, Report.checkAndAddPage, Report.drawTableHeader,
    Report.drawTableRow.
  repeat first
    [ apply raises_report_addText
    | apply raises_setColor
    | apply raises_incrPageNumber
    | apply raises_forEachFrom; intros
    | raise_step
    | match goal with
      | |- raises _ (match ?l with [] => _ | _ :: _ => _ end) => destruct l
      end ].
Qed.

Lemma raises_save E fileName : raises downloadCause (save E fileName).
Proof.
  unfold save. destruct (saveThrows E fileName).
  - apply raises_throw. right. right. reflexivity.
  - apply raises_emit.
Qed.

Lemma raises_weaken A (C C' : exn -> Prop) (m : M A) :
  (forall e, C e -> C' e) -> raises C m -> raises C' m.
Proof. intros HCC Hm s s' e H. apply HCC. eapply Hm. exact H. Qed.

Lemma drawing_is_download_cause e : drawingError e -> downloadCause e.
Proof. intros [H|H]; [left|right; left]; exact H. Qed.

(** X11: [downloadOrderReceipt] never lets a raw exception out: whatever it
    throws is the wrapped error, and what is wrapped is a failure to draw a
    text or to save, never a failure of the header image or of the font
    registration.  Where the last resort of [addText] works and [doc.save]
    accepts the name, it returns normally, and what it did is what
    [generateOrderReceiptPDF] does followed by one [doc.save] under the
    receipt's file name. *)
Theorem X11_receipt_download E order :
  (forall e, Receipt.downloadOrderReceipt E order = Throw e ->
             exists cause, e = WrappedError cause /\ downloadCause cause) /\
  (Mild E -> saveThrows E (Receipt.receiptFileName order) = false ->
   exists doc,
     Receipt.generateOrderReceiptPDF E order = Ok doc /\
     Receipt.downloadOrderReceipt E order
     = Ok (doc ++ [Save (Receipt.receiptFileName order)])).
Proof.
  split.
  - intro e. unfold Receipt.downloadOrderReceipt.
    destruct ((Receipt.receiptPDF E order ;;
               save E (Receipt.receiptFileName order)) Receipt.initialState)
      as [s' [u|cause]] eqn:Hrun; intro H; inversion H; subst.
    exists cause. split; [reflexivity|].
    revert Hrun. apply raises_bind.
    + eapply raises_weaken; [apply drawing_is_download_cause|].
      apply raises_receiptPDF.
    + intros _. apply raises_save.
  - intros HM Hsave.
    destruct (neverThrows_returns Receipt.initialState (calm_receiptPDF HM order))
      as (s' & a & Hrun).
    exists (ops s').
    unfold Receipt.generateOrderReceiptPDF, Receipt.downloadOrderReceipt.
    unfold bind. rewrite Hrun. unfold save. rewrite Hsave.
    split; reflexivity.
Qed.

(** X12: [downloadOrdersPDF] likewise: whatever it throws is the wrapped
    error of a failure to draw a text or to save; and where the last resort
    of [addText] works and [doc.save] accepts the name, it returns
    normally, having done what [generateOrdersPDF] does followed by one
    [doc.save] under the report's file name. *)
Theorem X12_report_download E toLowerCase timestamp o :
  (forall e, Download.downloadOrdersPDF E toLowerCase timestamp o = Throw e ->
             exists cause, e = WrappedError cause /\ downloadCause cause) /\
  (Mild E ->
   saveThrows E (Download.reportFileName toLowerCase timestamp (Report.title o))
   = false ->
   exists doc,
     Report.generateOrdersPDF E o = Ok doc /\
     Download.downloadOrdersPDF E toLowerCase timestamp o
     = Ok (doc ++ [Save (Download.reportFileName toLowerCase timestamp
                           (Report.title o))])).
Proof.
  split.
  - intro e. unfold Download.downloadOrdersPDF.
    destruct ((Report.ordersPDF E o ;;
               save E (Download.reportFileName toLowerCase timestamp
                         (Report.title o))) (Report.initialState E))
      as [s' [u|cause]] eqn:Hrun; intro H; inversion H; subst.
    exists cause. split; [reflexivity|].
    revert Hrun. apply raises_bind.
    + eapply raises_weaken; [apply drawing_is_download_cause|].
      apply raises_ordersPDF.
    + intros _. apply raises_save.
  - intros HM Hsave.
    destruct (neverThrows_returns (Report.initialState E) (calm_ordersPDF HM o))
      as (s' & a & Hrun).
    exists (ops s').
    unfold Report.generateOrdersPDF, Download.downloadOrdersPDF.
    unfold bind. rewrite Hrun. unfold save. rewrite Hsave.
    split; reflexivity.
Qed.

(** *** Which amounts are shown *)

Lemma trimStart_blank_prefix ws c r :
  Forall (fun b => isWhiteSpace b = true) ws -> isWhiteSpace c = false ->
  trimStart (ws ++ c :: r) = c :: r.
Proof.
  intros Hws Hc. induction Hws as [|b l Hb _ IH]; simpl.
  - rewrite Hc. reflexivity.
  - rewrite Hb. exact IH.
Qed.

Lemma negative_literal_not_positive s : gtZero (unsignedLiteral true s) = false.
Proof.
  unfold unsignedLiteral.
  destruct (startsWith (str "Infinity") s); [reflexivity|].
  destruct (takeDigits s) as [ip r1].
  destruct r1 as [|c r2].
  - destruct ip; reflexivity.
  - destruct (takeDigits r2) as [fp r3].
    destruct c as [|p]; [destruct ip; reflexivity|].
    do 6 (destruct p as [p|p|]; try (destruct ip; reflexivity)).
    destruct ip, fp; reflexivity.
Qed.

(** X13: an amount field that starts, after any white space, with a minus
    sign never gets a line on the receipt, whatever follows the sign. *)
Theorem X13_negative_amount_is_not_shown ws s :
  Forall (fun b => isWhiteSpace b = true) ws ->
  Receipt.positiveAmount (Some (ws ++ 45%N :: s)) = false /\
  Spec.amountLine (str "Discount") (Some (ws ++ 45%N :: s)) = [].
Proof.
  intro Hws.
  assert (Hparse : gtZero (parseFloat (ws ++ 45%N :: s)) = false).
  { unfold parseFloat. rewrite (trimStart_blank_prefix 45 s Hws eq_refl).
    apply negative_literal_not_positive. }
  split.
  - unfold Receipt.positiveAmount. cbn [dflt]. rewrite Hparse.
    apply andb_false_r.
  - unfold Spec.amountLine. rewrite Hparse. reflexivity.
Qed.

(** " -5.000" gets no line. *)
Lemma X13_negative_amount_is_not_shown_witness :
  Receipt.positiveAmount (Some (str " -5.000")) = false.
Proof.
  apply (@X13_negative_amount_is_not_shown [32%N] (str "5.000")).
  repeat constructor.
Defined.

Lemma digit_cases d :
  isDigit d = true ->
  (d = 48 \/ d = 49 \/ d = 50 \/ d = 51 \/ d = 52 \/ d = 53 \/ d = 54
   \/ d = 55 \/ d = 56 \/ d = 57)%N.
Proof.
  unfold isDigit, inRange. intro H. apply andb_true_iff in H.
  destruct H as [Hlo Hhi]. apply N.leb_le in Hlo. apply N.leb_le in Hhi. lia.
Qed.

Lemma takeDigits_all ds :
  Forall (fun d => isDigit d = true) ds -> takeDigits ds = (ds, []).
Proof.
  induction 1 as [|d r Hd _ IH]; simpl; [reflexivity|].
  rewrite Hd, IH. reflexivity.
Qed.

Lemma takeDigits_until ds c r :
  Forall (fun d => isDigit d = true) ds -> isDigit c = false ->
  takeDigits (ds ++ c :: r) = (ds, c :: r).
Proof.
  intros Hds Hc. induction Hds as [|d l Hd _ IH]; simpl.
  - rewrite Hc. reflexivity.
  - rewrite Hd, IH. reflexivity.
Qed.

(** After the test for "Infinity": the digits, the fraction, the
    exponent. *)
Lemma literal_of_digit negative d l :
  isDigit d = true ->
  unsignedLiteral negative (d :: l)
  = (let (ip, r1) := takeDigits (d :: l) in
     match r1 with
     | 46%N :: r2 =>
         let (fp, r3) := takeDigits r2 in
         match ip, fp with
         | [], [] => NaN
         | _, _ =>
             Finite negative (digitsValue (ip ++ fp))
                    (exponentPart r3 - Z.of_nat (List.length fp))
         end
     | _ =>
         match ip with
         | [] => NaN
         | _ => Finite negative (digitsValue ip) (exponentPart r1)
         end
     end).
Proof.
  intro Hd.
  destruct (digit_cases d Hd) as [H|[H|[H|[H|[H|[H|[H|[H|[H|H]]]]]]]]];
    subst d; reflexivity.
Qed.

Lemma parseFloat_of_digit d l :
  isDigit d = true -> parseFloat (d :: l) = unsignedLiteral false (d :: l).
Proof.
  intro Hd.
  destruct (digit_cases d Hd) as [H|[H|[H|[H|[H|[H|[H|[H|[H|H]]]]]]]]];
    subst d; reflexivity.
Qed.

Lemma parseFloat_decimal d ip fp :
  Forall (fun c => isDigit c = true) (d :: ip) ->
  Forall (fun c => isDigit c = true) fp ->
  parseFloat ((d :: ip) ++ 46%N :: fp)
  = Finite false (digitsValue ((d :: ip) ++ fp))
           (0 - Z.of_nat (List.length fp)).
Proof.
  intros Hip Hfp. inversion Hip as [|d' ip' Hd Hip']; subst.
  change ((d :: ip) ++ 46%N :: fp) with (d :: (ip ++ 46%N :: fp)).
  rewrite parseFloat_of_digit by exact Hd.
  rewrite literal_of_digit by exact Hd.
  change (d :: (ip ++ 46%N :: fp)) with ((d :: ip) ++ 46%N :: fp).
  rewrite takeDigits_until by (first [exact Hip | reflexivity]).
  rewrite takeDigits_all by exact Hfp. reflexivity.
Qed.

Lemma parseFloat_integer d ip :
  Forall (fun c => isDigit c = true) (d :: ip) ->
  parseFloat (d :: ip) = Finite false (digitsValue (d :: ip)) 0.
Proof.
  intros Hip. inversion Hip as [|d' ip' Hd Hip']; subst.
  rewrite parseFloat_of_digit by exact Hd.
  rewrite literal_of_digit by exact Hd.
  rewrite takeDigits_all by exact Hip. reflexivity.
Qed.

Lemma digit_step_zero acc d :
  (48 <= d)%N ->
  (10 * acc + (d - 48) =? 0)%N = (acc =? 0)%N && (d =? 48)%N.
Proof.
  intro Hd.
  destruct (N.eqb_spec (10 * acc + (d - 48)) 0), (N.eqb_spec acc 0),
    (N.eqb_spec d 48); simpl; try reflexivity; exfalso; lia.
Qed.

Lemma digits_fold_zero ds : forall acc,
  Forall (fun c => isDigit c = true) ds ->
  (fold_left (fun acc d => (10 * acc + (d - 48))%N) ds acc =? 0)%N
  = (acc =? 0)%N && forallb (fun d => (d =? 48)%N) ds.
Proof.
  induction ds as [|d r IH]; intros acc Hds.
  - simpl. rewrite andb_true_r. reflexivity.
  - inversion Hds as [|d' r' Hd Hr]; subst.
    cbn [fold_left forallb]. rewrite IH by exact Hr.
    rewrite digit_step_zero.
    + symmetry. apply andb_assoc.
    + unfold isDigit, inRange in Hd. apply andb_true_iff in Hd.
      apply N.leb_le. apply Hd.
Qed.

Lemma digitsValue_positive ds :
  Forall (fun c => isDigit c = true) ds ->
  (0 <? digitsValue ds)%N = existsb (fun d => negb (d =? 48)%N) ds.
Proof.
  intro Hds. unfold digitsValue.
  pose proof (@digits_fold_zero ds 0%N Hds) as Hz.
  rewrite N.eqb_refl in Hz. cbn [andb] in Hz.
  assert (Hex : existsb (fun d => negb (d =? 48)%N) ds
                = negb (forallb (fun d => (d =? 48)%N) ds)).
  { clear. induction ds as [|d r IH]; [reflexivity|].
    simpl. rewrite IH. destruct (d =? 48)%N; reflexivity. }
  rewrite Hex, <- Hz.
  destruct (fold_left _ ds 0%N =? 0)%N eqn:Hv.
  - apply N.eqb_eq in Hv. rewrite Hv. reflexivity.
  - apply N.eqb_neq in Hv. apply N.ltb_lt. cbn [negb]. lia.
Qed.

Lemma gtZero_small_fraction m n :
  (n <= 300)%nat ->
  gtZero (Finite false m (0 - Z.of_nat n)) = (0 <? m)%N.
Proof.
  intro Hn. destruct n as [|k]; [reflexivity|].
  replace (0 - Z.of_nat (S k))%Z with (Z.neg (Pos.of_succ_nat k))
    by (rewrite Nat2Z.inj_succ; lia).
  cbn [gtZero].
  assert (Hpow : (10 ^ N.pos (Pos.of_succ_nat k) <= 10 ^ 300)%N).
  { apply N.pow_le_mono_r; [discriminate|]. lia. }
  assert (Hbig : (10 ^ 300 < 2 ^ 1075)%N) by (apply N.ltb_lt; vm_compute; reflexivity).
  remember (2 ^ 1075)%N as half. remember (10 ^ 300)%N as bound.
  remember (10 ^ N.pos (Pos.of_succ_nat k))%N as ten.
  destruct (0 <? m)%N eqn:Hm.
  - apply N.ltb_lt in Hm. apply N.ltb_lt. nia.
  - apply N.ltb_ge in Hm. assert (m = 0%N) by lia. subst m.
    apply N.ltb_ge. lia.
Qed.

(** X14: an amount written as plain digits, or as digits, a point and a
    fraction of up to 300 digits, is shown on the receipt exactly when one
    of its digits is not 0: "0", "0.000" and "000.0" are not shown,
    "0.001" and "12.500" are. *)
Theorem X14_decimal_amount_shown_iff_not_zero d ip fp :
  Forall (fun c => isDigit c = true) (d :: ip) ->
  Forall (fun c => isDigit c = true) fp ->
  (List.length fp <= 300)%nat ->
  Receipt.positiveAmount (Some (d :: ip))
  = existsb (fun c => negb (c =? 48)%N) (d :: ip) /\
  Receipt.positiveAmount (Some ((d :: ip) ++ 46%N :: fp))
  = existsb (fun c => negb (c =? 48)%N) ((d :: ip) ++ fp).
Proof.
  intros Hip Hfp Hlen. unfold Receipt.positiveAmount. split.
  - cbn [truthy dflt andb]. rewrite parseFloat_integer by exact Hip.
    cbn [gtZero]. apply digitsValue_positive. exact Hip.
  - change (truthy (Some ((d :: ip) ++ 46%N :: fp))) with true.
    cbn [dflt andb].
    rewrite parseFloat_decimal by (first [exact Hip | exact Hfp]).
    rewrite gtZero_small_fraction by exact Hlen.
    apply digitsValue_positive. apply Forall_app. split; assumption.
Qed.

(** "0.001" is shown, "0.000" is not. *)
Lemma X14_decimal_amount_shown_iff_not_zero_witness :
  Receipt.positiveAmount (Some (str "0.001")) = true /\
  Receipt.positiveAmount (Some (str "0.000")) = false.
Proof.
  split.
  - apply (@X14_decimal_amount_shown_iff_not_zero 48%N [] (str "001"));
      [repeat constructor|repeat constructor|simpl; lia].
  - apply (@X14_decimal_amount_shown_iff_not_zero 48%N [] (str "000"));
      [repeat constructor|repeat constructor|simpl; lia].
Defined.

(** *** The receipt is one page *)

Section OnlyRules.
Variable P : Op -> Prop.

Lemma only_draws A (m : M A) : draws P m -> only P m.
Proof. intros Hd s. destruct (Hd s) as [_ Hw]. exact Hw. Qed.

Lemma only_ret A (a : A) : only P (ret a).
Proof. apply only_draws, draws_ret. Qed.

Lemma only_setY y : only P (setY y).
Proof. intro s. exists []. split; [symmetry; apply app_nil_r|constructor]. Qed.

Lemma only_bind A B (m : M A) (k : A -> M B) :
  only P m -> (forall a, only P (k a)) -> only P (bind m k).
Proof.
  intros Hm Hk s. unfold bind. destruct (Hm s) as (w1 & Hw1 & HP1).
  destruct (m s) as [s1 [a|e]]; simpl in *.
  - destruct (Hk a s1) as (w2 & Hw2 & HP2). exists (w1 ++ w2). split.
    + rewrite Hw2, Hw1. symmetry. apply app_assoc.
    + apply Forall_app. split; assumption.
  - exists w1. split; assumption.
Qed.

Lemma only_tryCatch A (m : M A) (h : exn -> M A) :
  only P m -> (forall e, only P (h e)) -> only P (tryCatch m h).
Proof.
  intros Hm Hh s. unfold tryCatch. destruct (Hm s) as (w1 & Hw1 & HP1).
  destruct (m s) as [s1 [a|e]]; simpl in *.
  - exists w1. split; assumption.
  - destruct (Hh e s1) as (w2 & Hw2 & HP2). exists (w1 ++ w2). split.
    + rewrite Hw2, Hw1. symmetry. apply app_assoc.
    + apply Forall_app. split; assumption.
Qed.

Lemma only_when c (m : M unit) : only P m -> only P (when c m).
Proof. intro Hm. destruct c; [exact Hm|apply only_ret]. Qed.

End OnlyRules.

Ltac only_step :=
  lazymatch goal with
  | |- only _ (bind _ _) => apply only_bind; [|intro]
  | |- only _ (tryCatch _ _) => apply only_tryCatch; [|intro]
  | |- only _ (ret _) => apply only_ret
  | |- only _ (setY _) => apply only_setY
  | |- only _ (when _ _) => apply only_when
  | |- only _ getY => apply only_draws, draws_getY
  | |- only _ (throw _) => apply only_draws, draws_throw
  | |- only _ (emit _) => apply only_draws, draws_emit
  | |- only _ (if ?c then _ else _) => destruct c
  | |- only _ (match ?c with Some _ => _ | None => _ end) => destruct c
  end.

Lemma only_receipt_addText_pages E t x y o :
  only notAddPage (Receipt.addText E t x y o).
Proof.
  apply only_draws, draws_receipt_addText.
  - intros op H. apply plainOp_notAddPage, styleOp_plainOp, H.
  - intros. apply text_notAddPage.
Qed.

Lemma only_receiptPDF_pages E order :
  only notAddPage (Receipt.receiptPDF E order).
Proof.
  unfold Receipt.receiptPDF, Receipt.headerImage, Receipt.receiptHeader,
    Receipt.customerInformation, Receipt.orderDetailsSection,
    Receipt.deliveryInformation, Receipt.paymentInformation, Receipt.footer,
    convertImageToBase64, addImage.
  repeat first
    [ apply only_receipt_addText_pages
    | apply only_draws, draws_initializeArabicFonts
    | only_step ]; discriminate.
Qed.

(** X15: a receipt is always a single page: whatever the order and the
    environment, and whether [generateOrderReceiptPDF] returns or throws,
    no page is ever added to its document. *)
Theorem X15_receipt_is_one_page E order :
  numberOfPages (ops (fst (Receipt.receiptPDF E order Receipt.initialState)))
  = 1%nat /\
  (forall doc, Receipt.generateOrderReceiptPDF E order = Ok doc ->
               numberOfPages doc = 1%nat).
Proof.
  assert (Hone : numberOfPages
                   (ops (fst (Receipt.receiptPDF E order Receipt.initialState)))
                 = 1%nat).
  { destruct (only_receiptPDF_pages E order Receipt.initialState)
      as (w & Hw & Hpages).
    rewrite Hw. apply numberOfPages_app. exact Hpages. }
  split; [exact Hone|].
  intro doc. unfold Receipt.generateOrderReceiptPDF.
  destruct (Receipt.receiptPDF E order Receipt.initialState) as [s [u|e]];
    intro Hdoc; inversion Hdoc; subst. exact Hone.
Qed.

(** *** Where the rows of the table are drawn *)

Lemma y_textY_addText E (HE : Tame E) t x y o :
  yields textY (Report.addText E t x y o) [y].
Proof.
  intro s. destruct (finalText_defined HE t (maxWidth o)) as [ft Hft].
  rewrite (report_addText_run HE _ _ _ _ _ Hft).
  eexists _, _, _. split; [reflexivity|]. split; [reflexivity|].
  unfold reportTextOp. destruct (containsArabic t); reflexivity.
Qed.

Ltac y_textY_step HE :=
  lazymatch goal with
  | |- yields _ (bind _ _) _ => eapply y_bind; [|intro]
  | |- yields _ (ret _) _ => apply y_ret
  | |- yields _ (emit _) _ => eapply y_emit_as; cbn; reflexivity
  | |- yields _ (when ?c _) _ => destruct c; unfold when
  | |- yields _ (Report.addText _ _ _ _ _) _ => apply (y_textY_addText HE)
  | |- yields _ (Report.setColor _ _) _ => unfold Report.setColor
  end.

Lemma y_textY_drawTableRow E (HE : Tame E) order startY isAlternate :
  yields textY (Report.drawTableRow E order startY isAlternate)
         (repeat (startY + 3) 7).
Proof.
  unfold Report.drawTableRow. eapply y_conv.
  - repeat y_textY_step HE; unfold forEach;
      (apply y_forEachFrom with (g := fun _ : Report.TableColumn => [startY + 3]);
       intros acc col i; eapply y_conv; [repeat y_textY_step HE|]; reflexivity).
  - destruct isAlternate; reflexivity.
Qed.

Lemma y_textY_drawTableHeader E (HE : Tame E) startY :
  yields textY (Report.drawTableHeader E startY) (repeat (startY + 4) 7).
Proof.
  unfold Report.drawTableHeader. eapply y_conv.
  - repeat y_textY_step HE. unfold forEach.
    apply y_forEachFrom with (g := fun _ : Report.TableColumn => [startY + 4]).
    intros acc col i. eapply y_conv; [repeat y_textY_step HE|]. reflexivity.
  - reflexivity.
Qed.

Lemma rowNumber_succ k : rowNumber (S k) == rowNumber k + 1.
Proof.
  unfold rowNumber. rewrite Nat2Z.inj_succ. unfold Z.succ.
  rewrite inject_Z_plus. reflexivity.
Qed.

Lemma Forall2_Qeq_repeat a b n : a == b -> Forall2 Qeq (repeat a n) (repeat b n).
Proof. intro H. induction n; simpl; constructor; assumption. Qed.

Lemma rowsFrom_heights orders : forall index y k,
  y == 60 + 8 * rowNumber k ->
  Forall2 Qeq
    (rowsFrom (fun (_ : OrderWithStatus) startY (_ : bool) =>
                 repeat (startY + 3) 7) index y orders)
    (flat_map (fun i => repeat (63 + 8 * rowNumber i) 7)
              (seq k (List.length orders))).
Proof.
  induction orders as [|order rest IH]; intros index y k Hy.
  - constructor.
  - cbn [rowsFrom List.length seq flat_map]. apply Forall2_app.
    + apply Forall2_Qeq_repeat. rewrite Hy. ring.
    + apply IH. rewrite rowNumber_succ, Hy. unfold Report.rowHeight. ring.
Qed.

(** X16: the rows of the table are stacked at a fixed pitch, whatever the
    orders hold: where texts can be drawn and the sheet is at least 109mm
    high, the texts of the report are at the heights 15 (title) and 30
    (timestamp), 54 for the seven column headers, and 63 + 8 i for the
    seven cells of the order of index i.  The height of a row does not
    depend on the sheet: the table goes on downwards, row after row, on the
    one page. *)
Theorem X16_rows_are_stacked_at_a_fixed_pitch E o :
  Tame E ->
  109 <= pageHeight E landscape ->
  Report.orders o <> [] ->
  exists doc,
    Report.generateOrdersPDF E o = Ok doc /\
    Forall2 Qeq (textYs doc)
      ([15; 30] ++ repeat 54 7
       ++ flat_map (fun i => repeat (63 + 8 * rowNumber i) 7)
                   (seq 0 (List.length (Report.orders o)))).
Proof.
  intros HE Htall Hne.
  destruct (Report.orders o) as [|order rest] eqn:Horders; [congruence|].
  destruct (@report_run E _ textY
              (fun _ startY _ => repeat (startY + 3) 7)
              (fun startY => repeat (startY + 4) 7)
              (fun order y alt => y_textY_drawTableRow HE order y alt)
              (fun y => y_textY_drawTableHeader HE y)
              HE Htall o order rest Horders)
    as (doc & w0 & w & Hdoc & Hw0 & Heq & Hf).
  exists doc. split; [exact Hdoc|].
  unfold textYs. rewrite Heq, !flat_map_app, Hf.
  assert (H0 : flat_map textY w0 = []).
  { clear - Hw0. induction Hw0 as [|op l Hop _ IH]; [reflexivity|].
    destruct op; try contradiction; exact IH. }
  assert (H1 : flat_map textY (headerBlock E) = [15; 15 + 15]).
  { unfold headerBlock, reportTextOp. destruct (containsArabic _); reflexivity. }
  rewrite H0, H1. cbn [app].
  constructor; [reflexivity|]. constructor; [unfold Qeq; reflexivity|].
  apply Forall2_app.
  - apply Forall2_Qeq_repeat. unfold Qeq. reflexivity.
  - apply rowsFrom_heights. unfold Report.headerHeight, rowNumber, Qeq.
    reflexivity.
Qed.

(** Three orders on the A4 sheet: the last cell is at 79mm. *)
Lemma X16_rows_are_stacked_at_a_fixed_pitch_witness :
  exists doc,
    Report.generateOrdersPDF Sample.env
      (Sample.options [Sample.order1; Sample.order40; Sample.orderAccent] None)
    = Ok doc /\
    Forall2 Qeq (textYs doc)
      ([15; 30] ++ repeat 54 7
       ++ repeat 63 7 ++ repeat 71 7 ++ repeat 79 7).
Proof.
  destruct (@X16_rows_are_stacked_at_a_fixed_pitch Sample.env
              (Sample.options
                 [Sample.order1; Sample.order40; Sample.orderAccent] None)
              sample_tame)
    as (doc & Hdoc & Hys).
  - unfold Qle. simpl. lia.
  - discriminate.
  - exists doc. split; [exact Hdoc|].
    eapply Forall2_impl; [|exact Hys]. intros a b Hab. rewrite Hab.
    reflexivity.
Defined.

(** *** Where the lines of the receipt are drawn *)

Section LayRules.
Variable E : Env.
Variable A : Type.
Variable Qa : A -> St -> Prop.
Variable R : exn -> St -> Prop.

Lemma lay_getY (Qy : Q -> St -> Prop) s :
  Qy (currentY s) s -> wp getY Qy R s.
Proof. intro H. exact H. Qed.

Lemma lay_setY y (Qu : unit -> St -> Prop) s :
  Forall (bodyText E) (ops s) ->
  (forall s', Forall (bodyText E) (ops s') -> currentY s' == y -> Qu tt s') ->
  wp (setY y) Qu R s.
Proof.
  intros HF H. unfold wp, setY. apply H; [exact HF|reflexivity].
Qed.

Lemma lay_emit o (Qu : unit -> St -> Prop) s :
  Forall (bodyText E) (ops s) ->
  bodyText E o ->
  (forall s', Forall (bodyText E) (ops s') -> currentY s' == currentY s ->
              Qu tt s') ->
  wp (emit o) Qu R s.
Proof.
  intros HF Ho H. unfold wp, emit. apply H; [|reflexivity].
  cbn [ops]. apply Forall_app. split; [exact HF|]. constructor; [exact Ho|].
  constructor.
Qed.

Lemma lay_throw e s : R e s -> wp (@throw A e) Qa R s.
Proof. intro H. exact H. Qed.

Lemma lay_draws (m : M A) s :
  draws (bodyText E) m ->
  Forall (bodyText E) (ops s) ->
  (forall a s', Forall (bodyText E) (ops s') -> currentY s' == currentY s ->
                Qa a s') ->
  (forall e s', Forall (bodyText E) (ops s') -> currentY s' == currentY s ->
                R e s') ->
  wp m Qa R s.
Proof.
  intros Hd HF HQ HR.
  apply (wp_draws (P := bodyText E)); [exact Hd| |].
  - intros a s' (Hc & w & Hw & HP). apply HQ.
    + rewrite Hw. apply Forall_app. split; assumption.
    + rewrite Hc. reflexivity.
  - intros e s' (Hc & w & Hw & HP). apply HR.
    + rewrite Hw. apply Forall_app. split; assumption.
    + rewrite Hc. reflexivity.
Qed.

End LayRules.

Lemma lay_addText E (Qq : Q -> St -> Prop) R t x y o s :
  Forall (bodyText E) (ops s) ->
  (15 <= y /\ y <= 218) \/ y = Receipt.pageH E - Receipt.margin - 20 - 5 ->
  (forall a s', Forall (bodyText E) (ops s') -> currentY s' == currentY s ->
                Qq a s') ->
  (forall e s', Forall (bodyText E) (ops s') -> currentY s' == currentY s ->
                R e s') ->
  wp (Receipt.addText E t x y o) Qq R s.
Proof.
  intros HF Hy HQ HR. apply (lay_draws (E := E)); try assumption.
  apply draws_receipt_addText.
  - intros op Hop. destruct op; try exact I. discriminate.
  - intros t' a _. exact Hy.
Qed.

Lemma lay_initializeArabicFonts E (Qu : unit -> St -> Prop) R s :
  Forall (bodyText E) (ops s) ->
  (forall s', Forall (bodyText E) (ops s') -> currentY s' == currentY s ->
              Qu tt s') ->
  wp (initializeArabicFonts E) Qu R s.
Proof.
  intros HF HQ. destruct (initializeArabicFonts_run E s) as (w & Hw & Hrun).
  unfold wp. rewrite Hrun. apply HQ; [|reflexivity].
  cbn [emitAll ops]. apply Forall_app. split; [exact HF|].
  eapply Forall_impl; [|exact Hw]. intros op Hop.
  destruct op; try contradiction; exact I.
Qed.

Ltac lay_bound :=
  first [ left; split; lra | right; reflexivity ].

Ltac lay_step :=
  lazymatch goal with
  | |- wp (bind _ _) _ _ _ => apply wp_bind
  | |- wp (tryCatch _ _) _ _ _ => apply wp_tryCatch
  | |- wp getY _ _ _ => apply lay_getY
  | |- wp (setY _) _ _ _ => eapply lay_setY; [eassumption|intros ? ? ?]
  | |- wp (emit _) _ _ _ =>
      eapply lay_emit; [eassumption|exact I|intros ? ? ?]
  | |- wp (ret _) _ _ _ => apply wp_ret
  | |- wp (throw _) _ _ _ => apply lay_throw
  | |- wp (Receipt.addText _ _ _ _ _) _ _ _ =>
      apply lay_addText; [assumption|lay_bound|intros ? ? ? ?|intros ? ? ? ?]
  | |- wp (initializeArabicFonts _) _ _ _ =>
      apply lay_initializeArabicFonts; [assumption|intros ? ? ?]
  | |- wp (when ?c _) _ _ _ => destruct c; unfold when
  | |- wp (if ?c then _ else _) _ _ _ => destruct c
  | |- wp (match ?c with Some _ => _ | None => _ end) _ _ _ => destruct c
  | |- laid _ _ _ _ => split; [assumption|split; lra]
  | |- Forall _ (ops _) => assumption
  end; cbn beta.

Ltac lay_auto :=
  let s := fresh "s" in
  let HF := fresh "HF" in
  let Hlo := fresh "Hlo" in
  let Hhi := fresh "Hhi" in
  intros s (HF & Hlo & Hhi); cbv zeta; repeat lay_step.

Lemma lays_bind E a b c d e f A B (m : M A) (k : A -> M B) :
  lays E a b c d m -> (forall x, lays E c d e f (k x)) ->
  lays E a b e f (bind m k).
Proof.
  intros Hm Hk s Hs. apply wp_bind.
  eapply wp_mono; [apply Hm; exact Hs| |].
  - intros x s' Hs'. apply Hk. exact Hs'.
  - intros x s' Hs'. exact Hs'.
Qed.

Lemma lays_initializeArabicFonts E :
  lays E 15 15 15 15 (initializeArabicFonts E).
Proof. lay_auto. Qed.

Lemma lays_headerImage E : lays E 15 15 30 65 (Receipt.headerImage E).
Proof.
  unfold Receipt.headerImage, convertImageToBase64, addImage. lay_auto.
Qed.

Lemma lays_receiptHeader E order :
  lays E 30 65 53 88 (Receipt.receiptHeader E order).
Proof. unfold Receipt.receiptHeader. lay_auto. Qed.

Lemma lays_customerInformation E order :
  lays E 53 88 83 134 (Receipt.customerInformation E order).
Proof. unfold Receipt.customerInformation. lay_auto. Qed.

Lemma lays_orderDetailsSection E order :
  lays E 83 134 108 159 (Receipt.orderDetailsSection E order).
Proof. unfold Receipt.orderDetailsSection. lay_auto. Qed.

Lemma lays_deliveryInformation E order :
  lays E 108 159 133 184 (Receipt.deliveryInformation E order).
Proof. unfold Receipt.deliveryInformation. lay_auto. Qed.

Lemma lays_paymentInformation E order :
  lays E 133 184 159 234 (Receipt.paymentInformation E order).
Proof. unfold Receipt.paymentInformation. lay_auto. Qed.

Lemma lays_footer E : lays E 159 234 159 234 (Receipt.footer E).
Proof. unfold Receipt.footer. lay_auto. Qed.

Lemma lays_receiptPDF E order :
  lays E 15 15 159 234 (Receipt.receiptPDF E order).
Proof.
  unfold Receipt.receiptPDF.
  eapply lays_bind; [apply lays_initializeArabicFonts|intros _].
  eapply lays_bind; [apply lays_headerImage|intros _].
  eapply lays_bind; [apply lays_receiptHeader|intros _].
  eapply lays_bind; [apply lays_customerInformation|intros _].
  eapply lays_bind; [apply lays_orderDetailsSection|intros _].
  eapply lays_bind; [apply lays_deliveryInformation|intros _].
  eapply lays_bind; [apply lays_paymentInformation|intros _].
  apply lays_footer.
Qed.

(** X17: the receipt needs no second page.  In any environment, for any
    order, and whether [generateOrderReceiptPDF] returns or throws, every
    text of the document is written between 15mm and 218mm, or is the
    footer text, at the fixed height pageHeight - 40.  So on a sheet
    higher than 268mm (A4 has 297mm) the body always ends above the footer
    rule at pageHeight - 50. *)
Theorem X17_receipt_lines_stay_above_218 E order :
  Forall (bodyText E)
         (ops (fst (Receipt.receiptPDF E order Receipt.initialState))).
Proof.
  apply wp_fst with (I := fun s => Forall (bodyText E) (ops s)).
  eapply wp_mono; [apply (@lays_receiptPDF E order)| |].
  - split; [constructor|]. unfold Receipt.initialState, Receipt.margin.
    cbn [currentY]. split; lra.
  - intros u s' (HF & _). exact HF.
  - intros e s' HF. exact HF.
Qed.

(** The bound is reached: with the header image placed and every optional
    line present, the discount line is at 218mm. *)
Example full_receipt_reaches_218 :
  exists doc,
    Receipt.generateOrderReceiptPDF Sample.env Sample.fullOrder = Ok doc /\
    existsb (fun op => match op with
                       | Text _ _ y _ => Qeq_bool y 218
                       | _ => false
                       end) doc = true.
Proof.
  eexists. split; [vm_compute; reflexivity|].
  vm_compute. reflexivity.
Qed.
